(** * Battery management system (bms.py): shallow embedding and verified properties

    The development follows the layout of [bms.py]: topology arithmetic, the
    Modbus frame checksum, the temperature bus client, the anomaly checks,
    voltage acquisition, the issue aggregator, the balance controller and the
    poll cycle of [main]; the detector of [battery_detection.py] follows.

    Conventions of the embedding:
    - Python [int] is [Z]; list positions and counts are [nat].
    - Python [float] quantities (temperatures, voltages, thresholds) are
      idealised as rationals [Q]; sums, differences, quotients and
      comparisons are the exact ones of [Q]. What is proved of a value
      computed this way holds of the program up to the rounding of its
      binary64 operations; the module [Binary64] gives the arithmetic of the
      calibration as the interpreter performs it, and shows a reading that
      the rounding moves.
    - [bytes] is [list byte].
    - Module-level globals of [bms.py] are fields of explicit state records
      that every operation takes and returns.
    - An uncaught exception is the result [None] of the operation that
      raises it. The sleeps whose length comes from the configuration
      ([query_delay], the back-off of a retry, [poll_interval]) can raise
      and are modelled; the sleeps of a constant length return.
    - Logging, the event log and curses output do not influence any value
      modelled here and are left out; actuator writes are recorded in an
      explicit trace. *)

From Stdlib Require Import String Ascii Strings.Byte DecimalString.
From Stdlib Require Import ZArith QArith Qabs List Bool Lia Arith.
From Stdlib Require Import Sorting.Sorted Sorting.Mergesort Orders.
From Stdlib Require Import Permutation.
From Stdlib Require Floats.PrimFloat Numbers.Cyclic.Int63.Uint63.
Import ListNotations.

Local Open Scope Z_scope.

(* ===================================================================== *)
(** * Part I: definitions                                                 *)
(* ===================================================================== *)

(** ** Topology resolver *)

Module Topology.

(** The three topology settings read in [main] (lines 3125-3130). *)
Record config : Type := mkConfig {
  num_series_banks : nat;
  sensors_per_bank : nat;
  number_of_parallel_batteries : nat
}.

Definition sensors_per_battery (c : config) : nat :=
  (num_series_banks c * sensors_per_bank c)%nat.

Definition total_channels (c : config) : nat :=
  (number_of_parallel_batteries c * sensors_per_battery c)%nat.

(** The 0-based positions that the readings of parallel battery [bat]
    occupy in [all_raw_temps]: [base = bat * sensors_per_battery]. *)
Definition battery_block (c : config) (bat : nat) : list nat :=
  seq (bat * sensors_per_battery c) (sensors_per_battery c).

(** The slice that [main] appends to [BANK_SENSOR_INDICES[bank_id]] for one
    battery: [range(bank_base, bank_base + sensors_per_bank)]. *)
Definition bank_slice (c : config) (bank_id bat : nat) : list nat :=
  seq (bat * sensors_per_battery c + bank_id * sensors_per_bank c)
      (sensors_per_bank c).

(** [BANK_SENSOR_INDICES] as [main] builds it (lines 3132-3142): the outer
    loop runs over the batteries and extends every bank's list in turn, so
    the list of bank [bank_id] is the concatenation of its slices in
    battery order. *)
Definition bank_sensor_indices (c : config) : list (list nat) :=
  map (fun bank_id =>
         flat_map (bank_slice c bank_id)
                  (seq 0 (number_of_parallel_batteries c)))
      (seq 0 (num_series_banks c)).

(** [ch - 1 in indices] *)
Definition index_in (ch : Z) (indices : list nat) : bool :=
  existsb (fun i => Z.of_nat i =? ch - 1) indices.

(** [for bank_id, indices in enumerate(BANK_SENSOR_INDICES, 1)] *)
Fixpoint find_bank (ch : Z) (bank_id : nat) (banks : list (list nat))
  : option nat :=
  match banks with
  | [] => None
  | indices :: rest =>
      if index_in ch indices then Some bank_id
      else find_bank ch (S bank_id) rest
  end.

Definition get_bank_for_channel (banks : list (list nat)) (ch : Z)
  : option nat :=
  find_bank ch 1 banks.

(** [get_battery_and_local_ch]: Python [//] and [%] with a positive divisor
    are the floor division and modulo of [Z]. *)
Definition get_battery_and_local_ch (ch : Z) : Z * Z :=
  let sensors_per_battery := 24 in
  let bat_id := (ch - 1) / sensors_per_battery + 1 in
  let local_ch := (ch - 1) mod sensors_per_battery + 1 in
  (bat_id, local_ch).

End Topology.

(** ** Frame checksum *)

Module Crc.

Definition byte_to_Z (b : byte) : Z := Z.of_N (Byte.to_N b).

Definition byte_of_Z (z : Z) : byte :=
  match Byte.of_N (Z.to_N (z mod 256)) with
  | Some b => b
  | None => x00
  end.

(** One round of the inner [for _ in range(8)] loop. *)
Definition crc_shift (crc : Z) : Z :=
  if Z.land crc 0x0001 =? 0
  then Z.shiftr crc 1
  else Z.lxor (Z.shiftr crc 1) 0xA001.

(** The body of [for byte in data]. *)
Definition crc_byte (crc : Z) (b : byte) : Z :=
  Nat.iter 8 crc_shift (Z.lxor crc (byte_to_Z b)).

Definition crc_register (data : list byte) : Z :=
  fold_left crc_byte data 0xFFFF.

(** [crc.to_bytes(2, 'little')]; Python raises [OverflowError] outside
    [0, 65536), which [crc_register_range] rules out. *)
Definition to_bytes_2_little (n : Z) : list byte :=
  [byte_of_Z (n mod 256); byte_of_Z (n / 256)].

Definition modbus_crc (data : list byte) : list byte :=
  to_bytes_2_little (crc_register data).

Definition bytes_eqb (a b : list byte) : bool :=
  if list_eq_dec Byte.byte_eq_dec a b then true else false.

(** [response[:-2]] and [response[-2:]] *)
Definition all_but_last2 (response : list byte) : list byte :=
  firstn (length response - 2)%nat response.
Definition last2 (response : list byte) : list byte :=
  skipn (length response - 2)%nat response.

(** The checksum test of [read_ntc_sensors] (lines 558-562):
    [modbus_crc(response[:-2]) == response[-2:]]. *)
Definition crc_valid (response : list byte) : bool :=
  bytes_eqb (modbus_crc (all_but_last2 response)) (last2 response).

(** [query_base + crc] *)
Definition append_crc (data : list byte) : list byte :=
  data ++ modbus_crc data.

(** Overwriting the byte at one position of a frame. *)
Fixpoint set_byte (i : nat) (b : byte) (l : list byte) : list byte :=
  match l, i with
  | [], _ => []
  | _ :: t, O => b :: t
  | h :: t, S j => h :: set_byte j b t
  end.

End Crc.

(** ** Exceptions *)

(** An operation that can end in an uncaught Python exception ([IndexError],
    [TypeError], [ValueError], [OverflowError], [ZeroDivisionError],
    [StatisticsError], [OSError]) returns [None]. *)
Definition exn (A : Type) : Type := option A.

Definition bind {A B : Type} (m : exn A) (k : A -> exn B) : exn B :=
  match m with
  | Some a => k a
  | None => None
  end.

Notation "x <- m ;; k" := (bind m (fun x => k))
  (at level 61, m at next level, right associativity).
Notation "' p <- m ;; k" := (bind m (fun x => match x with p => k end))
  (at level 61, p pattern, m at next level, right associativity).

(** [for x in l: acc = f(acc, x)] where [f] can raise. *)
Fixpoint fold_exn {A B : Type} (f : A -> B -> exn A) (l : list B) (a : A)
  : exn A :=
  match l with
  | [] => Some a
  | x :: rest => a' <- f a x ;; fold_exn f rest a'
  end.

(** [[f(x) for x in l]] where [f] can raise. *)
Fixpoint map_exn {A B : Type} (f : A -> exn B) (l : list A) : exn (list B) :=
  match l with
  | [] => Some []
  | x :: rest => y <- f x ;; ys <- map_exn f rest ;; Some (y :: ys)
  end.

(** ** Temperature bus client *)

Module Modbus.

(** Python's [str] of an [int]. *)
Definition str_of_int (z : Z) : string :=
  DecimalString.NilZero.string_of_int (Z.to_int z).

(** What [read_ntc_sensors] returns: the list of temperatures or an error
    message string; [main] tells them apart with [isinstance(_, str)]. *)
Inductive read_result : Type :=
| Temperatures (raw_temperatures : list Q)
| ErrorText (message : string).

(** The five error returns of [read_ntc_sensors]. *)
Inductive read_error : Type :=
| ModbusException (code slave_addr : Z)
| FailedAfter (max_retries slave_addr : Z)
| NetworkUnreachable (slave_addr : Z)
| UnexpectedFailure (slave_addr : Z)
| AllRetriesExhausted (slave_addr : Z).

Definition error_message (e : read_error) : string :=
  match e with
  | ModbusException code slave_addr =>
      "Error: Modbus exception code " ++ str_of_int code
        ++ " for slave " ++ str_of_int slave_addr
  | FailedAfter max_retries slave_addr =>
      "Error: Failed after " ++ str_of_int max_retries
        ++ " attempts for slave " ++ str_of_int slave_addr
  | NetworkUnreachable slave_addr =>
      "Error: Network unreachable for slave " ++ str_of_int slave_addr
  | UnexpectedFailure slave_addr =>
      "Error: Unexpected failure for slave " ++ str_of_int slave_addr
  | AllRetriesExhausted slave_addr =>
      "Error: All retries exhausted for slave " ++ str_of_int slave_addr
  end%string.

(** The outcome of the socket part of one attempt: [connect] or [send]
    raised [socket.error] (a timeout is one); or the query went out and,
    once [time.sleep(query_delay)] has returned, the progressive receive
    raised [socket.error] or gave the accumulated [response] bytes. *)
Inductive exchange : Type :=
| SocketError
| ReceiveError
| Received (response : list byte).

(** The world as one call of the client sees it: what attempt [k]
    exchanges, what [test_modbus_connectivity] answers after attempt [k]
    failed, and the longest sleep that the operating system accepts during
    the call (Linux refuses a deadline, the time since boot plus the
    length, of 2^63 ns or more); the constant sleeps of the program, of at
    most 3 seconds, lie below it. *)
Record link : Type := mkLink {
  exchange_at : nat -> exchange;
  probe_at : nat -> bool;
  sleep_limit : Q
}.

Record request : Type := mkRequest {
  num_channels : Z;
  scaling_factor : Q;
  max_retries : Z;
  slave_addr : Z;
  retry_backoff_base : Z;
  query_delay : Q
}.

(** How [time.sleep(secs)] ends. The interpreter first converts the
    length to nanoseconds in a signed 64-bit integer and raises
    [OverflowError] when it does not fit (some 292 years); it raises
    [ValueError] for a negative length; the operating system raises
    [OSError] for a length beyond [sleep_limit]. *)
Inductive sleep_end : Type :=
| Slept
| SleepValueError
| SleepOSError
| SleepOverflowError.

Definition time_sleep (sleep_limit secs : Q) : sleep_end :=
  let nanoseconds := (secs * 1000000000)%Q in
  if Qle_bool 9223372036854775808%Q nanoseconds
     || negb (Qle_bool (-9223372036854775808)%Q nanoseconds)
  then SleepOverflowError
  else if negb (Qle_bool 0%Q secs) then SleepValueError
  else if Qle_bool secs sleep_limit then Slept
  else SleepOSError.

(** [time.sleep(retry_backoff_base ** attempt)], the back-off of lines 597
    and 616; the base is an [int]. *)
Definition backoff (l : link) (r : request) (attempt : nat) : sleep_end :=
  time_sleep (sleep_limit l)
             (inject_Z (retry_backoff_base r ^ Z.of_nat attempt)).

(** [n.to_bytes(2, 'big')] *)
Definition to_bytes_2_big (n : Z) : list byte :=
  [Crc.byte_of_Z (n / 256); Crc.byte_of_Z (n mod 256)].

(** The query of line 498-500. [bytes([slave_addr, 3])] raises [ValueError]
    unless the address is a byte, and [num_channels.to_bytes(2, 'big')]
    raises [OverflowError] unless the count fits two bytes; both stand
    before the [try]. *)
Definition build_query (r : request) : exn (list byte) :=
  if (0 <=? slave_addr r) && (slave_addr r <? 256)
     && (0 <=? num_channels r) && (num_channels r <? 65536)
  then
    let query_base :=
      [Crc.byte_of_Z (slave_addr r); x03] ++ to_bytes_2_big 0
        ++ to_bytes_2_big (num_channels r) in
    Some (Crc.append_crc query_base)
  else None.

(** [int.from_bytes(data[i:i+2], 'big', signed=True)] over
    [range(0, len(data), 2)]; a trailing single byte is a one-byte
    signed integer. *)
Fixpoint registers (data : list byte) : list Z :=
  match data with
  | [] => []
  | [b] =>
      let v := Crc.byte_to_Z b in
      [if v <? 128 then v else v - 256]
  | hi :: lo :: rest =>
      let v := Crc.byte_to_Z hi * 256 + Crc.byte_to_Z lo in
      (if v <? 32768 then v else v - 65536) :: registers rest
  end.

(** How the [try] body of one attempt ends. *)
Inductive attempt_end : Type :=
| Returned (result : read_result)
| RaisedSocketError
| RaisedValueError
| RaisedException.

(** The validation and decoding of a received frame (lines 548-588). *)
Definition validate (r : request) (response : list byte) : attempt_end :=
  let expected_data_length := num_channels r * 2 in
  if (length response <? 5)%nat then RaisedValueError
  else if negb (Crc.crc_valid response) then RaisedValueError
  else
    let slave := Crc.byte_to_Z (nth 0 response x00) in
    let func := Crc.byte_to_Z (nth 1 response x00) in
    let byte_count := Crc.byte_to_Z (nth 2 response x00) in
    if negb (slave =? slave_addr r) then RaisedValueError
    else if negb (func =? 3) then
      if negb (Z.land func 0x80 =? 0)
      then Returned (ErrorText (error_message
                       (ModbusException byte_count (slave_addr r))))
      else RaisedValueError
    else if negb (byte_count =? expected_data_length) then RaisedValueError
    else
      let data := firstn (Z.to_nat byte_count) (skipn 3 response) in
      match registers data with
      | [] => Returned (Temperatures [])
      | values =>
          if Qeq_bool (scaling_factor r) 0
          then RaisedException (* ZeroDivisionError in the first division *)
          else Returned (Temperatures
                 (map (fun v => inject_Z v / scaling_factor r)%Q values))
      end.

(** The [try] body. [time.sleep(query_delay)] stands inside it, between
    the send and the receive; [OSError] is [socket.error]. *)
Definition attempt_body (l : link) (r : request) (attempt : nat)
  : attempt_end :=
  match exchange_at l attempt with
  | SocketError => RaisedSocketError
  | answer =>
      match time_sleep (sleep_limit l) (query_delay r) with
      | Slept =>
          match answer with
          | Received response => validate r response
          | _ => RaisedSocketError
          end
      | SleepValueError => RaisedValueError
      | SleepOSError => RaisedSocketError
      | SleepOverflowError => RaisedException
      end
  end.

(** [for attempt in range(max_retries)]: [remaining] iterations are left,
    [attempt] is the loop variable. The second component counts the
    attempts that were made. Both retry branches, the one that sleeps and
    the one that says [continue], go on with the next iteration; the
    back-off sleep stands in the [except] handler, so what it raises
    leaves the function. *)
Fixpoint attempts (l : link) (r : request) (remaining attempt : nat)
         (network_retry_count : nat) : exn (read_result * nat) :=
  match remaining with
  | O => Some (ErrorText (error_message
                 (AllRetriesExhausted (slave_addr r))),
               attempt)
  | S rest =>
      match attempt_body l r attempt with
      | Returned result => Some (result, S attempt)
      | RaisedSocketError =>
          if probe_at l attempt then
            if Z.of_nat attempt <? max_retries r - 1
            then
              match backoff l r attempt with
              | Slept => attempts l r rest (S attempt) network_retry_count
              | _ => None
              end
            else Some (ErrorText (error_message
                         (FailedAfter (max_retries r) (slave_addr r))),
                       S attempt)
          else
            let network_retry_count := S network_retry_count in
            if (network_retry_count <? 3)%nat
            then attempts l r rest (S attempt) network_retry_count
            else Some (ErrorText (error_message
                         (NetworkUnreachable (slave_addr r))), S attempt)
      | RaisedValueError =>
          if probe_at l attempt then
            if Z.of_nat attempt <? max_retries r - 1
            then
              match backoff l r attempt with
              | Slept => attempts l r rest (S attempt) network_retry_count
              | _ => None
              end
            else Some (ErrorText (error_message
                         (FailedAfter (max_retries r) (slave_addr r))),
                       S attempt)
          else
            let network_retry_count := S network_retry_count in
            if (network_retry_count <? 3)%nat
            then attempts l r rest (S attempt) network_retry_count
            else Some (ErrorText (error_message
                         (NetworkUnreachable (slave_addr r))), S attempt)
      | RaisedException =>
          Some (ErrorText (error_message
                  (UnexpectedFailure (slave_addr r))),
                S attempt)
      end
  end.

(** [read_ntc_sensors] (lines 470-633): the value it returns with the
    number of attempts made, or the exception that leaves it. *)
Definition read_ntc_sensors (l : link) (r : request)
  : exn (read_result * nat) :=
  _ <- build_query r ;;
  attempts l r (Z.to_nat (max_retries r)) 0 0.

(** A link on which every exchange times out while the probe connects. *)
Definition always_timeout : link :=
  mkLink (fun _ => ReceiveError) (fun _ => true) 3600%Q.

End Modbus.

(** ** Rational comparisons *)

Local Open Scope Q_scope.

Definition Qltb (a b : Q) : bool := negb (Qle_bool b a).
Definition Qgtb (a b : Q) : bool := negb (Qle_bool a b).
Definition Qgeb (a b : Q) : bool := Qle_bool b a.
Definition Qneqb (a b : Q) : bool := negb (Qeq_bool a b).

(** ** Statistics *)

Module QOrder <: TotalLeBool.
Definition t := Q.
Definition leb := Qle_bool.
Theorem leb_total : forall a1 a2, leb a1 a2 = true \/ leb a2 a1 = true.
Proof.
  intros a1 a2. unfold leb. rewrite !Qle_bool_iff.
  destruct (Qlt_le_dec a1 a2) as [H | H]; [left; apply Qlt_le_weak, H | right; exact H].
Qed.
End QOrder.

Module QSort := Sort QOrder.

Module Stats.

(** [statistics.median]: the middle element of the sorted data, the mean
    of the two middle elements for an even count, [StatisticsError] for no
    data. *)
Definition median (data : list Q) : exn Q :=
  let sorted := QSort.sort data in
  let n := length sorted in
  if (n =? 0)%nat then None
  else if Nat.odd n then Some (nth (n / 2) sorted 0%Q)
  else Some ((nth (n / 2 - 1) sorted 0%Q + nth (n / 2) sorted 0%Q) / 2)%Q.

(** [min] and [max] of a list that is not empty. *)
Definition minimum (first : Q) (rest : list Q) : Q :=
  fold_left (fun m x => if Qltb x m then x else m) rest first.
Definition maximum (first : Q) (rest : list Q) : Q :=
  fold_left (fun m x => if Qgtb x m then x else m) rest first.

(** [sum(1 for t in l if p(t))] *)
Definition count (p : Q -> bool) (l : list Q) : nat :=
  length (filter p l).

End Stats.

(** ** Alerts *)

(** The alert strings of [bms.py], one constructor per message format,
    carrying the values the message prints. *)
Inductive alert : Type :=
| SlaveFailed (addr : Z) (temp_result : string)
| InvalidReading (bat_id : Z) (bank : option nat) (local_ch : Z) (valid_min : Q)
| HighTemp (bat_id : Z) (bank : option nat) (local_ch : Z)
           (calibrated high_threshold : Q)
| LowTemp (bat_id : Z) (bank : option nat) (local_ch : Z)
          (calibrated low_threshold : Q)
| Deviation (bat_id : Z) (bank : option nat) (local_ch : Z)
            (abs_dev rel_dev : Q)
| AbnormalRise (bat_id : Z) (bank : option nat) (local_ch : Z) (rise : Q)
| GroupLag (bat_id : Z) (bank : option nat) (local_ch : Z)
           (rise bank_median_rise : Q)
| SuddenDisconnection (bat_id : Z) (bank : option nat) (local_ch : Z)
| CabinetOverTemp (overall_median threshold : Q)
| BalancingFailed (high low : nat) (high_change low_change : Q)
| StartupFailures (startup_alerts : list string)
| BalancerHardwareFailure
| ZeroVoltage (bank : nat)
| HighVoltage (bank : nat) (v : Q)
| LowVoltage (bank : nat) (v : Q).

(** ["Cabinet over temp" in a] *)
Definition mentions_cabinet_over_temp (a : alert) : bool :=
  match a with
  | CabinetOverTemp _ _ => true
  | _ => false
  end.

(** The channel a per-channel temperature alert is about, as the pair
    [get_battery_and_local_ch] printed into it. *)
Definition channel_of_alert (a : alert) : option (Z * Z) :=
  match a with
  | InvalidReading b _ l _ | HighTemp b _ l _ _ | LowTemp b _ l _ _
  | Deviation b _ l _ _ | AbnormalRise b _ l _ | GroupLag b _ l _ _
  | SuddenDisconnection b _ l => Some (b, l)
  | _ => None
  end.

(** The alerts of the high, low and deviation checks. *)
Definition threshold_alert (a : alert) : bool :=
  match a with
  | HighTemp _ _ _ _ _ | LowTemp _ _ _ _ _ | Deviation _ _ _ _ _ => true
  | _ => false
  end.

(** ** Settings *)

Record settings : Type := mkSettings {
  topology : Topology.config;
  modbus_slave_addresses : list Z;
  scaling_factor : Q;
  max_retries : Z;
  valid_min : Q;
  high_threshold : Q;
  low_threshold : Q;
  abs_deviation_threshold : Q;
  deviation_threshold : Q;
  rise_threshold : Q;
  disconnection_lag_threshold : Q;
  cabinet_over_temp_threshold : Q;
  VoltageDividerRatio : Q;
  Sensor_Calibration : nat -> Q;
  HighVoltageThresholdPerBattery : Q;
  LowVoltageThresholdPerBattery : Q;
  VoltageDifferenceToBalance : Q;
  BalanceRestPeriodSeconds : Q;
  min_voltage_delta : Q;
  relay_mapping : nat -> nat -> option (list Z);
  retry_backoff_base : Z;
  query_delay : Q;
  poll_interval : Q
}.

Definition NUM_BANKS (s : settings) : nat :=
  Topology.num_series_banks (topology s).
Definition BANK_SENSOR_INDICES (s : settings) : list (list nat) :=
  Topology.bank_sensor_indices (topology s).

(** ** Anomaly engine *)

Module Anomaly.

Section Checks.
Variable s : settings.

Definition bank_of (ch : Z) : option nat :=
  Topology.get_bank_for_channel (BANK_SENSOR_INDICES s) ch.

(** Every check returns the alert list with its alert appended, or the
    list as it was. *)
Definition check_invalid_reading (raw : Q) (ch : Z) (alerts : list alert)
  : bool * list alert :=
  if Qle_bool raw (valid_min s) then
    let bank := bank_of ch in
    let '(bat_id, local_ch) := Topology.get_battery_and_local_ch ch in
    (true, alerts ++ [InvalidReading bat_id bank local_ch (valid_min s)])
  else (false, alerts).

Definition check_high_temp (calibrated : Q) (ch : Z) (alerts : list alert)
  : list alert :=
  if Qgtb calibrated (high_threshold s) then
    let bank := bank_of ch in
    let '(bat_id, local_ch) := Topology.get_battery_and_local_ch ch in
    alerts ++ [HighTemp bat_id bank local_ch calibrated (high_threshold s)]
  else alerts.

Definition check_low_temp (calibrated : Q) (ch : Z) (alerts : list alert)
  : list alert :=
  if Qltb calibrated (low_threshold s) then
    let bank := bank_of ch in
    let '(bat_id, local_ch) := Topology.get_battery_and_local_ch ch in
    alerts ++ [LowTemp bat_id bank local_ch calibrated (low_threshold s)]
  else alerts.

Definition check_deviation (calibrated bank_median : Q) (ch : Z)
           (alerts : list alert) : list alert :=
  let abs_dev := Qabs (calibrated - bank_median) in
  let rel_dev :=
    if Qneqb bank_median 0 then abs_dev / Qabs bank_median else 0 in
  if Qgtb abs_dev (abs_deviation_threshold s)
     || Qgtb rel_dev (deviation_threshold s) then
    let bank := bank_of ch in
    let '(bat_id, local_ch) := Topology.get_battery_and_local_ch ch in
    alerts ++ [Deviation bat_id bank local_ch abs_dev rel_dev]
  else alerts.

(** [previous_temps[ch-1]]: Python indexes from the end for a negative
    index and raises [IndexError] outside the list; the poll cycle only
    passes [ch >= 1]. *)
Definition previous_at (previous_temps : list (option Q)) (ch : Z)
  : exn (option Q) :=
  if (ch <? 1)%Z then None
  else nth_error previous_temps (Z.to_nat (ch - 1)).

Definition check_abnormal_rise (current : Q)
           (previous_temps : list (option Q)) (ch : Z)
           (alerts : list alert) : exn (list alert) :=
  previous <- previous_at previous_temps ch ;;
  match previous with
  | Some previous =>
      let rise := current - previous in
      if Qgtb rise (rise_threshold s) then
        let bank := bank_of ch in
        let '(bat_id, local_ch) := Topology.get_battery_and_local_ch ch in
        Some (alerts ++ [AbnormalRise bat_id bank local_ch rise])
      else Some alerts
  | None => Some alerts
  end.

Definition check_group_tracking_lag (current : Q)
           (previous_temps : list (option Q)) (bank_median_rise : Q)
           (ch : Z) (alerts : list alert) : exn (list alert) :=
  previous <- previous_at previous_temps ch ;;
  match previous with
  | Some previous =>
      let rise := current - previous in
      if Qgtb (Qabs (rise - bank_median_rise))
              (disconnection_lag_threshold s) then
        let bank := bank_of ch in
        let '(bat_id, local_ch) := Topology.get_battery_and_local_ch ch in
        Some (alerts ++ [GroupLag bat_id bank local_ch rise bank_median_rise])
      else Some alerts
  | None => Some alerts
  end.

Definition check_sudden_disconnection (current : option Q)
           (previous_temps : list (option Q)) (ch : Z)
           (alerts : list alert) : exn (list alert) :=
  previous <- previous_at previous_temps ch ;;
  match previous, current with
  | Some _, None =>
      let bank := bank_of ch in
      let '(bat_id, local_ch) := Topology.get_battery_and_local_ch ch in
      Some (alerts ++ [SuddenDisconnection bat_id bank local_ch])
  | _, _ => Some alerts
  end.

End Checks.

End Anomaly.

(** ** Voltage acquisition *)

Module Voltage.

(** What one conversion of the voltage meter gives: the word read from the
    conversion register, an [IOError] on the bus, or no bus at all (test
    mode, [bus] is [None]). *)
Inductive conversion : Type :=
| Word (raw : Z)
| BusIOError
| NoBus.

(** The conversions seen by one call of [read_voltage_with_retry]:
    sample [k] of attempt [a]. *)
Definition adc : Type := nat -> nat -> conversion.

Definition raw_adc_of (bank_id : nat) (c : conversion) : Z :=
  match c with
  | Word raw =>
      Z.lor (Z.shiftl (Z.land raw 0xFF) 8) (Z.land (Z.shiftr raw 8) 0xFF)
  | BusIOError => 0
  | NoBus => 16000 + Z.of_nat bank_id * 100
  end.

Definition sum (l : list Q) : Q := fold_left Qplus l 0.
Definition mean (l : list Q) : Q := sum l / inject_Z (Z.of_nat (length l)).

Section Read.
Variable s : settings.

(** The conversion of one raw code to volts; a zero divider ratio raises
    [ZeroDivisionError]. *)
Definition to_volts (bank_id : nat) (raw_adc : Z) : exn Q :=
  if (raw_adc =? 0)%Z then Some 0
  else if Qeq_bool (VoltageDividerRatio s) 0 then None
  else
    let measured_voltage := inject_Z raw_adc * ((6144 # 1000) / (32767 # 1)) in
    Some ((measured_voltage / VoltageDividerRatio s)
          * Sensor_Calibration s bank_id).

Definition within_5_percent (average r : Q) : bool :=
  Qle_bool (Qabs (r - average) / (if Qneqb average 0 then average else 1))
           (5 # 100).

(** One round of two samples; [Some None] when no sample survives. *)
Definition sample_round (bank_id : nat) (c0 c1 : conversion)
  : exn (option Q) :=
  r0 <- to_volts bank_id (raw_adc_of bank_id c0) ;;
  r1 <- to_volts bank_id (raw_adc_of bank_id c1) ;;
  let readings := [r0; r1] in
  let average := mean readings in
  let valid_readings := filter (within_5_percent average) readings in
  match valid_readings with
  | [] => Some None
  | _ => Some (Some (mean valid_readings))
  end.

(** [for attempt in range(2)] *)
Fixpoint rounds (bank_id : nat) (a : adc) (remaining attempt : nat)
  : exn (option Q) :=
  match remaining with
  | O => Some None
  | S rest =>
      r <- sample_round bank_id (a attempt 0%nat) (a attempt 1%nat) ;;
      match r with
      | Some v => Some (Some v)
      | None => rounds bank_id a rest (S attempt)
      end
  end.

(** The first component of what [read_voltage_with_retry] returns: the
    averaged voltage, or Python's [None]. *)
Definition read_voltage_with_retry (bank_id : nat) (a : adc)
  : exn (option Q) :=
  if (NUM_BANKS s <? bank_id)%nat then Some None
  else rounds bank_id a 2 0.

End Read.

End Voltage.

(** ** Actuators *)

Inductive actuation : Type :=
| RelayPin (relay : nat) (high : bool)
| DcDcRelay (on : bool)
| AlarmRelay (on : bool)
| FanRelay (on : bool).

(** A write that moves charge: a balancing relay line driven high or the
    converter switched on. *)
Definition engages (a : actuation) : bool :=
  match a with
  | RelayPin _ true | DcDcRelay true => true
  | _ => false
  end.

(** Any write to a balancing relay line or to the converter. *)
Definition touches_balancer (a : actuation) : bool :=
  match a with
  | RelayPin _ _ | DcDcRelay _ => true
  | _ => false
  end.

Module Actuator.

Definition all_relays_low : list actuation :=
  map (fun i => RelayPin i false) (seq 0 4).

(** [set_relay_connection]: the GPIO writes it issues. *)
Definition set_relay_connection (s : settings) (high low : nat)
  : list actuation :=
  if negb (high =? 0)%nat && negb (low =? 0)%nat
     && ((NUM_BANKS s <? high)%nat || (NUM_BANKS s <? low)%nat)
  then []
  else if (high =? 0)%nat && (low =? 0)%nat then all_relays_low
  else
    match relay_mapping s high low with
    | Some relays =>
        all_relays_low
          ++ flat_map (fun relay =>
                         if (0 <=? relay)%Z && (relay <? 4)%Z
                         then [RelayPin (Z.to_nat relay) true]
                         else [])
                      relays
    | None => []
    end.

Definition control_dcdc_converter (turn_on : bool) : list actuation :=
  [DcDcRelay turn_on].

End Actuator.

(** ** Process state *)

(** The calibration globals [startup_set], [startup_median] and
    [startup_offsets]. *)
Record calibration : Type := mkCalibration {
  startup_set : bool;
  startup_median : option Q;
  startup_offsets : option (list Q)
}.

(** One entry of [bank_stats]: the keys ['median'], ['min'], ['max'] and
    ['invalid']. *)
Record bank_stat : Type := mkBankStat {
  stat_median : Q;
  stat_min : Q;
  stat_max : Q;
  stat_invalid : nat
}.

(** The fields of [web_data] written once per poll. *)
Record snapshot : Type := mkSnapshot {
  voltages : list Q;
  temperatures : list (option Q);
  bank_summaries : list bank_stat;
  alerts : list alert;
  balancing : bool;
  system_status_alert : bool
}.

Record state : Type := mkState {
  calib : calibration;
  previous_temps : list (option Q);
  previous_bank_medians : list Q;
  run_count : nat;
  balancing_active : bool;
  startup_failed : bool;
  startup_alerts : list string;
  balancer_failed : bool;
  last_balance_time : Q;
  web_data : snapshot
}.

Definition set_calib (c : calibration) (st : state) : state :=
  mkState c (previous_temps st) (previous_bank_medians st) (run_count st)
          (balancing_active st) (startup_failed st) (startup_alerts st)
          (balancer_failed st) (last_balance_time st) (web_data st).

Definition set_previous (temps : list (option Q)) (medians : list Q)
           (st : state) : state :=
  mkState (calib st) temps medians (run_count st)
          (balancing_active st) (startup_failed st) (startup_alerts st)
          (balancer_failed st) (last_balance_time st) (web_data st).

(** [balancing_active = b] *)
Definition set_balancing_active (b : bool) (st : state) : state :=
  mkState (calib st) (previous_temps st) (previous_bank_medians st)
          (run_count st) b (startup_failed st) (startup_alerts st)
          (balancer_failed st) (last_balance_time st) (web_data st).

(** [web_data['balancing'] = b] *)
Definition set_web_balancing (b : bool) (st : state) : state :=
  mkState (calib st) (previous_temps st) (previous_bank_medians st)
          (run_count st) (balancing_active st) (startup_failed st)
          (startup_alerts st) (balancer_failed st) (last_balance_time st)
          (mkSnapshot (voltages (web_data st)) (temperatures (web_data st))
                      (bank_summaries (web_data st)) (alerts (web_data st))
                      b (system_status_alert (web_data st))).

Definition set_last_balance_time (t : Q) (st : state) : state :=
  mkState (calib st) (previous_temps st) (previous_bank_medians st)
          (run_count st) (balancing_active st) (startup_failed st)
          (startup_alerts st) (balancer_failed st) t (web_data st).

Definition set_balancer_failed (st : state) : state :=
  mkState (calib st) (previous_temps st) (previous_bank_medians st)
          (run_count st) (balancing_active st) (startup_failed st)
          (startup_alerts st) true (last_balance_time st) (web_data st).

(** ** Issue aggregator *)

Module Issues.

Definition voltage_alert (s : settings) (i : nat) (v : option Q)
  : option alert :=
  match v with
  | None => Some (ZeroVoltage i)
  | Some v =>
      if Qeq_bool v 0 then Some (ZeroVoltage i)
      else if Qgtb v (HighVoltageThresholdPerBattery s)
           then Some (HighVoltage i v)
      else if Qltb v (LowVoltageThresholdPerBattery s)
           then Some (LowVoltage i v)
      else None
  end.

(** [for i, v in enumerate(voltages, 1)] *)
Fixpoint voltage_alerts (s : settings) (i : nat) (vs : list (option Q))
  : list alert :=
  match vs with
  | [] => []
  | v :: rest =>
      match voltage_alert s i v with
      | Some a => a :: voltage_alerts s (S i) rest
      | None => voltage_alerts s (S i) rest
      end
  end.

(** [check_for_issues]: [(alert_needed, alerts)] and the write to the
    alarm relay. *)
Definition check_for_issues (s : settings) (st : state)
           (vs : list (option Q)) (temps_alerts : list alert)
  : bool * list alert * list actuation :=
  let flags := startup_failed st || balancer_failed st in
  let startup_part :=
    if startup_failed st && negb (length (startup_alerts st) =? 0)%nat
    then [StartupFailures (startup_alerts st)] else [] in
  let balancer_part :=
    if balancer_failed st then [BalancerHardwareFailure] else [] in
  let voltage_part := voltage_alerts s 1 vs in
  let alert_needed :=
    flags || negb (length voltage_part =? 0)%nat
          || negb (length temps_alerts =? 0)%nat in
  (alert_needed,
   startup_part ++ balancer_part ++ voltage_part ++ temps_alerts,
   [AlarmRelay alert_needed]).

End Issues.

(** ** Balance controller *)

Module Balance.

(** The three ways the verification block (lines 1803-1820) ends, named
    after its three log lines. *)
Inductive verdict : Type :=
| Verified
| Failed (high_change low_change : Q)
| InsufficientReadings.

(** The test [high_change >= 0 or low_change <= 0 or
    abs(high_change) < min_delta or low_change < min_delta]. *)
Definition no_change_detected (high_change low_change min_delta : Q) : bool :=
  Qgeb high_change 0 || Qle_bool low_change 0
    || Qltb (Qabs high_change) min_delta || Qltb low_change min_delta.

(** The verification block. The initial voltages are the unguarded results
    of the first two reads, so [None] there raises [TypeError] in the
    subtraction. *)
Definition verify (high_trend low_trend : list Q)
           (initial_high_v initial_low_v : option Q)
           (final_high_v final_low_v min_delta : Q) : exn verdict :=
  if (3 <=? length high_trend)%nat && (3 <=? length low_trend)%nat then
    initial_high_v <- initial_high_v ;;
    initial_low_v <- initial_low_v ;;
    let high_change := final_high_v - initial_high_v in
    let low_change := final_low_v - initial_low_v in
    if no_change_detected high_change low_change min_delta
    then Some (Failed high_change low_change)
    else Some Verified
  else Some InsufficientReadings.

(** The analysis of the balance test in [startup_self_test]
    (lines 2677-2707): the same trend test, run at start-up on every bank
    pair. It returns whether [balancer_failed] is set. *)
Definition startup_analysis (source_trend : list Q)
           (initial_source_v initial_dest_v final_source_v final_dest_v
            min_delta : Q) : bool :=
  if (3 <=? length source_trend)%nat then
    let source_change := final_source_v - initial_source_v in
    let dest_change := final_dest_v - initial_dest_v in
    Qgtb min_delta 0
      && no_change_detected source_change dest_change min_delta
  else true.

(** What the voltage meter and the clock give during one balancing run. *)
Record rig : Type := mkRig {
  initial_high_adc : Voltage.adc;
  initial_low_adc : Voltage.adc;
  (** one entry per pass of the timed loop in which [read_interval] had
      elapsed: the reads of the source and of the destination bank *)
  periodic_adc : list (Voltage.adc * Voltage.adc);
  final_high_adc : Voltage.adc;
  final_low_adc : Voltage.adc;
  (** [time.time()] stored into [last_balance_time] *)
  end_time : Q
}.

(** How a call of [balance_battery_voltages] ends. *)
Inductive ending : Type :=
| SkippedTemperatureAlerts
| SkippedZeroDestination
| Completed (v : verdict).

Record result : Type := mkResult {
  state_after : state;
  temps_alerts_after : list alert;
  writes : list actuation;
  how : ending
}.

Definition or_else (new : option Q) (old : Q) : Q :=
  match new with
  | Some v => v
  | None => old
  end.

(** The periodic reads of the timed loop: the running voltages and the
    two trends. *)
Fixpoint sample_loop (s : settings) (high low : nat)
         (periodic : list (Voltage.adc * Voltage.adc))
         (voltage_high voltage_low : Q) (high_trend low_trend : list Q)
  : exn (Q * Q * list Q * list Q) :=
  match periodic with
  | [] => Some (voltage_high, voltage_low, high_trend, low_trend)
  | (adc_high, adc_low) :: rest =>
      new_high <- Voltage.read_voltage_with_retry s high adc_high ;;
      new_low <- Voltage.read_voltage_with_retry s low adc_low ;;
      let voltage_high := or_else new_high voltage_high in
      let voltage_low := or_else new_low voltage_low in
      sample_loop s high low rest voltage_high voltage_low
                  (high_trend ++ [voltage_high]) (low_trend ++ [voltage_low])
  end.

Definition is_zero (v : option Q) : bool :=
  match v with
  | Some v => Qeq_bool v 0
  | None => false
  end.

Definition balance_battery_voltages (s : settings) (r : rig) (st : state)
           (high low : nat) (temps_alerts : list alert) (is_heating : bool)
  : exn result :=
  match temps_alerts with
  | _ :: _ => Some (mkResult st temps_alerts [] SkippedTemperatureAlerts)
  | [] =>
      let st := set_web_balancing true (set_balancing_active true st) in
      initial_high_v <-
        Voltage.read_voltage_with_retry s high (initial_high_adc r) ;;
      initial_low_v <-
        Voltage.read_voltage_with_retry s low (initial_low_adc r) ;;
      if is_zero initial_low_v then
        Some (mkResult (set_web_balancing false (set_balancing_active false st))
                       temps_alerts [] SkippedZeroDestination)
      else
        let on :=
          Actuator.set_relay_connection s high low
            ++ Actuator.control_dcdc_converter true in
        let voltage_high := or_else initial_high_v 0 in
        let voltage_low := or_else initial_low_v 0 in
        '(voltage_high, voltage_low, high_trend, low_trend) <-
          sample_loop s high low (periodic_adc r) voltage_high voltage_low
                      [voltage_high] [voltage_low] ;;
        final_high_v <-
          Voltage.read_voltage_with_retry s high (final_high_adc r) ;;
        final_low_v <-
          Voltage.read_voltage_with_retry s low (final_low_adc r) ;;
        let final_high_v := or_else final_high_v voltage_high in
        let final_low_v := or_else final_low_v voltage_low in
        let high_trend := high_trend ++ [final_high_v] in
        let low_trend := low_trend ++ [final_low_v] in
        let off :=
          Actuator.control_dcdc_converter false
            ++ Actuator.set_relay_connection s 0 0 in
        let st := set_web_balancing false (set_balancing_active false st) in
        let st := set_last_balance_time (end_time r) st in
        v <- verify high_trend low_trend initial_high_v initial_low_v
                    final_high_v final_low_v (min_voltage_delta s) ;;
        match v with
        | Failed high_change low_change =>
            Some (mkResult (set_balancer_failed st)
                    (temps_alerts
                       ++ [BalancingFailed high low high_change low_change])
                    (on ++ off) (Completed v))
        | _ => Some (mkResult st temps_alerts (on ++ off) (Completed v))
        end
  end.

End Balance.

(** ** The poll cycle of [main] *)

Module Poll.

(** Everything the outside world contributes to one pass of the
    [while True] loop. *)
Record cycle_env : Type := mkEnv {
  (** the link as the read of the [i]-th slave finds it *)
  temp_link : nat -> Modbus.link;
  (** the conversions seen by the voltage read of bank [bank_id] *)
  voltage_adc : nat -> Voltage.adc;
  (** [time.time()] at the balance decision *)
  current_time : Q;
  balance_rig : Balance.rig;
  (** whether [subprocess.call(['rrdtool', 'update', ...])] can start the
      program; it raises [OSError] otherwise *)
  rrdtool_runs : bool;
  (** the longest sleep that the operating system accepts at the end of
      the pass *)
  sleep_limit : Q
}.

Section Cycle.
Variable s : settings.

Definition sensors_per_battery : nat :=
  Topology.sensors_per_battery (topology s).
Definition total_channels : nat :=
  Topology.total_channels (topology s).

Definition request_for (addr : Z) : Modbus.request :=
  Modbus.mkRequest (Z.of_nat sensors_per_battery) (scaling_factor s)
                   (max_retries s) addr (retry_backoff_base s)
                   (query_delay s).

(** What the read of the [i]-th slave returns, unless it raises. *)
Definition temp_result_of (e : cycle_env) (i : nat) (addr : Z)
  : exn Modbus.read_result :=
  r <- Modbus.read_ntc_sensors (temp_link e i) (request_for addr) ;;
  Some (fst r).

(** [for i, addr in enumerate(slave_addresses)] (lines 3169-3186); the
    delay between two slaves is the constant 0.5 s. *)
Fixpoint read_slaves (e : cycle_env) (i : nat) (addrs : list Z)
         (temps_alerts : list alert) (all_raw_temps : list Q)
  : exn (list alert * list Q) :=
  match addrs with
  | [] => Some (temps_alerts, all_raw_temps)
  | addr :: rest =>
      temp_result <- temp_result_of e i addr ;;
      match temp_result with
      | Modbus.ErrorText temp_result =>
          read_slaves e (S i) rest
            (temps_alerts ++ [SlaveFailed addr temp_result])
            (all_raw_temps ++ repeat (valid_min s) sensors_per_battery)
      | Modbus.Temperatures temp_result =>
          read_slaves e (S i) rest temps_alerts
            (all_raw_temps ++ temp_result)
      end
  end.

Definition is_valid (t : Q) : bool := Qgtb t (valid_min s).

(** Every slave that answers gives one reading per sensor, as a frame of
    the expected length does. *)
Definition full_answers (e : cycle_env) : Prop :=
  forall i addr temp_result,
    nth_error (modbus_slave_addresses s) i = Some addr ->
    temp_result_of e i addr = Some (Modbus.Temperatures temp_result) ->
    length temp_result = sensors_per_battery.

(** The raw readings of a pass come from the bus alone. *)
Definition raw_temps_of (e : cycle_env) : list Q :=
  match read_slaves e 0 (modbus_slave_addresses s) [] [] with
  | Some (_, raw_temps) => raw_temps
  | None => []
  end.

(** [valid_count == total_channels] *)
Definition fully_valid (e : cycle_env) : bool :=
  (Stats.count is_valid (raw_temps_of e) =? total_channels)%nat.

Definition is_none {A : Type} (o : option A) : bool :=
  match o with
  | None => true
  | Some _ => false
  end.

(** The calibration block (lines 3187-3198). *)
Definition calibrate (raw_temps : list Q) (c : calibration)
  : exn calibration :=
  let valid_count := Stats.count is_valid raw_temps in
  c <- (if negb (startup_set c) && (valid_count =? total_channels)%nat
        then
          startup_median <- Stats.median raw_temps ;;
          Some (mkCalibration true (Some startup_median)
                  (Some (map (fun t => startup_median - t) raw_temps)))
        else Some c) ;;
  if startup_set c && is_none (startup_offsets c)
  then Some (mkCalibration false (startup_median c) (startup_offsets c))
  else Some c.

(** The comprehension that builds [calibrated_temps] (line 3200). *)
Definition calibrated_at (c : calibration) (raw_temps : list Q) (i : nat)
  : exn (option Q) :=
  raw <- nth_error raw_temps i ;;
  if startup_set c && is_valid raw then
    offsets <- startup_offsets c ;;
    offset <- nth_error offsets i ;;
    Some (Some (raw + offset))
  else if is_valid raw then Some (Some raw)
  else Some None.

Definition calibrate_temps (c : calibration) (raw_temps : list Q)
  : exn (list (option Q)) :=
  map_exn (calibrated_at c raw_temps) (seq 0 total_channels).

(** [compute_bank_medians]. Every index of [BANK_SENSOR_INDICES] is
    below [total_channels], the length of [calibrated_temps], so the
    lookup stays inside the list. *)
Definition values_at (calibrated_temps : list (option Q))
           (bank_indices : list nat) : list Q :=
  flat_map (fun i => match nth i calibrated_temps None with
                     | Some t => [t]
                     | None => []
                     end) bank_indices.

Definition bank_stat_of (calibrated_temps : list (option Q))
           (bank_indices : list nat) : bank_stat :=
  let bank_temps := values_at calibrated_temps bank_indices in
  let invalid_count := (length bank_indices - length bank_temps)%nat in
  match bank_temps with
  | first :: rest =>
      match Stats.median bank_temps with
      | Some med =>
          mkBankStat med (Stats.minimum first rest)
                     (Stats.maximum first rest) invalid_count
      | None => mkBankStat 0 0 0 invalid_count
      end
  | [] => mkBankStat 0 0 0 invalid_count
  end.

Definition compute_bank_medians (calibrated_temps : list (option Q))
  : list bank_stat :=
  map (bank_stat_of calibrated_temps) (BANK_SENSOR_INDICES s).

(** The body of the static loop (lines 3205-3213) for channel [ch]. *)
Definition static_check (calibrated_temps : list (option Q))
           (bank_medians : list Q) (temps_alerts : list alert)
           (item : nat * Q) : exn (list alert) :=
  let '(ch, raw) := item in
  let '(invalid, temps_alerts) :=
    Anomaly.check_invalid_reading s raw (Z.of_nat ch) temps_alerts in
  if invalid then Some temps_alerts
  else
    calib <- nth_error calibrated_temps (ch - 1) ;;
    calib <- calib ;;
    bank_id <- Anomaly.bank_of s (Z.of_nat ch) ;;
    bank_median <- nth_error bank_medians (bank_id - 1) ;;
    let temps_alerts :=
      Anomaly.check_high_temp s calib (Z.of_nat ch) temps_alerts in
    let temps_alerts :=
      Anomaly.check_low_temp s calib (Z.of_nat ch) temps_alerts in
    Some (Anomaly.check_deviation s calib bank_median (Z.of_nat ch)
                                  temps_alerts).

(** [enumerate(l, 1)] *)
Definition enumerate1 {A : Type} (l : list A) : list (nat * A) :=
  combine (seq 1 (length l)) l.

Definition static_checks (raw_temps : list Q)
           (calibrated_temps : list (option Q)) (bank_medians : list Q)
           (temps_alerts : list alert) : exn (list alert) :=
  fold_exn (static_check calibrated_temps bank_medians)
           (enumerate1 raw_temps) temps_alerts.

(** The inner body of the history loop (lines 3219-3225). *)
Definition dynamic_check (st : state) (calibrated_temps : list (option Q))
           (bank_median_rise : Q) (temps_alerts : list alert) (i : nat)
  : exn (list alert) :=
  let ch := Z.of_nat (i + 1) in
  calib <- nth_error calibrated_temps i ;;
  temps_alerts <-
    match calib with
    | Some calib =>
        temps_alerts <- Anomaly.check_abnormal_rise s calib
                          (previous_temps st) ch temps_alerts ;;
        Anomaly.check_group_tracking_lag s calib (previous_temps st)
          bank_median_rise ch temps_alerts
    | None => Some temps_alerts
    end ;;
  Anomaly.check_sudden_disconnection s calib (previous_temps st) ch
                                     temps_alerts.

Definition dynamic_bank (st : state) (calibrated_temps : list (option Q))
           (bank_medians : list Q) (temps_alerts : list alert)
           (bank_id : nat) : exn (list alert) :=
  bank_median <- nth_error bank_medians (bank_id - 1) ;;
  previous_bank_median <-
    nth_error (previous_bank_medians st) (bank_id - 1) ;;
  let bank_median_rise := bank_median - previous_bank_median in
  bank_indices <- nth_error (BANK_SENSOR_INDICES s) (bank_id - 1) ;;
  fold_exn (dynamic_check st calibrated_temps bank_median_rise)
           bank_indices temps_alerts.

Definition dynamic_checks (st : state) (calibrated_temps : list (option Q))
           (bank_medians : list Q) (temps_alerts : list alert)
  : exn (list alert) :=
  if (0 <? run_count st)%nat && negb (length (previous_temps st) =? 0)%nat
  then fold_exn (dynamic_bank st calibrated_temps bank_medians)
                (seq 1 (NUM_BANKS s)) temps_alerts
  else Some temps_alerts.

(** The cabinet block (lines 3229-3249). *)
Definition overall_median_of (calibrated_temps : list (option Q)) : Q :=
  let valid_calib_temps :=
    flat_map (fun t => match t with Some t => [t] | None => [] end)
             calibrated_temps in
  match Stats.median valid_calib_temps with
  | Some m => m
  | None => 0
  end.

Definition cabinet_check (overall_median : Q) (temps_alerts : list alert)
  : list alert * list actuation :=
  if Qgtb overall_median (cabinet_over_temp_threshold s) then
    (if existsb mentions_cabinet_over_temp temps_alerts then temps_alerts
     else temps_alerts
            ++ [CabinetOverTemp overall_median
                                (cabinet_over_temp_threshold s)],
     [FanRelay true])
  else (temps_alerts, [FanRelay false]).

(** The voltage block (lines 3250-3254): a read that gave [None] is
    stored as [0.0]. *)
Definition read_bank_voltage (e : cycle_env) (i : nat) : exn Q :=
  v <- Voltage.read_voltage_with_retry s i (voltage_adc e i) ;;
  Some (match v with
        | Some v => v
        | None => 0
        end).

Definition read_voltages (e : cycle_env) : exn (list Q) :=
  map_exn (read_bank_voltage e) (seq 1 (NUM_BANKS s)).

(** [l.index(x)] for an [x] that occurs in [l]. *)
Fixpoint index_of (x : Q) (l : list Q) : nat :=
  match l with
  | [] => 0
  | y :: rest => if Qeq_bool y x then 0 else S (index_of x rest)
  end.

(** [any(t is not None and t < 10 for t in calibrated_temps)] *)
Definition any_low_temp_of (calibrated_temps : list (option Q)) : bool :=
  existsb (fun t => match t with
                    | Some t => Qltb t 10
                    | None => false
                    end) calibrated_temps.

(** What one pass of the loop leaves behind. *)
Record pass : Type := mkPass {
  state_after : state;
  writes : list actuation;
  raw_temps_read : list Q;
  (** [temps_alerts] as handed to [check_for_issues] *)
  temps_alerts_found : list alert;
  alert_needed : bool;
  all_alerts : list alert;
  (** how the call of [balance_battery_voltages] ended, if one was made *)
  balance : option Balance.ending
}.

(** The balance decision (lines 3262-3274). *)
Definition balance_decision (e : cycle_env) (st : state)
           (battery_voltages : list Q)
           (calibrated_temps : list (option Q))
           (temps_alerts : list alert) (alert_needed : bool)
  : exn (state * list actuation * option Balance.ending) :=
  if (length battery_voltages =? NUM_BANKS s)%nat
     && negb (balancer_failed st) then
    match battery_voltages with
    | [] => None (* max() of an empty list: ValueError *)
    | first :: rest =>
        let max_v := Stats.maximum first rest in
        let min_v := Stats.minimum first rest in
        let high_b := (index_of max_v battery_voltages + 1)%nat in
        let low_b := (index_of min_v battery_voltages + 1)%nat in
        let any_low_temp := any_low_temp_of calibrated_temps in
        if balancing_active st
           || (negb alert_needed
               && (any_low_temp
                   || Qgtb (max_v - min_v) (VoltageDifferenceToBalance s))
               && Qgtb min_v 0
               && Qgtb (current_time e - last_balance_time st)
                       (BalanceRestPeriodSeconds s))
        then
          let is_heating := any_low_temp in
          r <- Balance.balance_battery_voltages s (balance_rig e) st
                 high_b low_b temps_alerts is_heating ;;
          Some (set_balancing_active false (Balance.state_after r),
                Balance.writes r, Some (Balance.how r))
        else Some (st, [], None)
    end
  else Some (st, [], None).

Definition publish (st : state) (battery_voltages : list Q)
           (calibrated_temps : list (option Q))
           (bank_stats : list bank_stat) (all_alerts : list alert)
           (alert_needed : bool) : state :=
  mkState (calib st) (previous_temps st) (previous_bank_medians st)
          (S (run_count st)) (balancing_active st) (startup_failed st)
          (startup_alerts st) (balancer_failed st) (last_balance_time st)
          (mkSnapshot battery_voltages calibrated_temps bank_stats
                      all_alerts (balancing_active st) alert_needed).

(** One pass of the [while True] loop of [main]. *)
Definition poll_cycle (e : cycle_env) (st : state) : exn pass :=
  '(temps_alerts, raw_temps) <-
    read_slaves e 0 (modbus_slave_addresses s) [] [] ;;
  c <- calibrate raw_temps (calib st) ;;
  let st := set_calib c st in
  calibrated_temps <- calibrate_temps c raw_temps ;;
  let bank_stats := compute_bank_medians calibrated_temps in
  let bank_medians := map stat_median bank_stats in
  temps_alerts <-
    static_checks raw_temps calibrated_temps bank_medians temps_alerts ;;
  temps_alerts <-
    dynamic_checks st calibrated_temps bank_medians temps_alerts ;;
  let st := set_previous calibrated_temps bank_medians st in
  let '(temps_alerts, fan) :=
    cabinet_check (overall_median_of calibrated_temps) temps_alerts in
  battery_voltages <- read_voltages e ;;
  let '(alert_needed, all_alerts, alarm) :=
    Issues.check_for_issues s st (map Some battery_voltages) temps_alerts in
  (* [subprocess.call(['rrdtool', 'update', RRD_FILE, values])] *)
  _ <- (if rrdtool_runs e then Some tt else None) ;;
  '(st, balance_writes, balance) <-
    balance_decision e st battery_voltages calibrated_temps temps_alerts
                     alert_needed ;;
  (* [time.sleep(settings['poll_interval'])], the last statement of the
     pass *)
  _ <- match Modbus.time_sleep (sleep_limit e) (poll_interval s) with
       | Modbus.Slept => Some tt
       | _ => None
       end ;;
  Some (mkPass
          (publish st battery_voltages calibrated_temps bank_stats
                   all_alerts alert_needed)
          (fan ++ alarm ++ balance_writes) raw_temps temps_alerts
          alert_needed all_alerts balance).

(** The start of a balance requested through [/api/balance]: the
    handler only raises [balancing_active]; the next pass of the loop
    acts on it. *)
Definition api_balance (st : state) : state :=
  if balancing_active st then st
  else if negb (length (alerts (web_data st)) =? 0)%nat then st
  else if (length (voltages (web_data st)) <? 2)%nat then st
  else
    match voltages (web_data st) with
    | [] => st
    | first :: rest =>
        let max_v := Stats.maximum first rest in
        let min_v := Stats.minimum first rest in
        if Qltb (max_v - min_v) (VoltageDifferenceToBalance s) then st
        else set_balancing_active true st
    end.

(** What happens to the process between start-up and its end. *)
Inductive event : Type :=
| PollCycle (e : cycle_env)
| ManualTrigger.

Definition step (ev : event) (st : state) : exn state :=
  match ev with
  | PollCycle e => p <- poll_cycle e st ;; Some (state_after p)
  | ManualTrigger => Some (api_balance st)
  end.

Definition run (evs : list event) (st : state) : exn state :=
  fold_exn (fun st ev => step ev st) evs st.

End Cycle.

End Poll.

(** ** The calibration in binary64 *)

(** The model above computes with exact rationals. The interpreter computes
    with IEEE 754 binary64 values, rounding every operation to nearest;
    the arithmetic of the calibration is given here as it performs it. *)
Module Binary64.

Definition float : Set := PrimFloat.float.

(** The conversion of an [int] below 2^53 in magnitude, which is exact. *)
Definition of_int (v : Z) : float :=
  if v <? 0
  then PrimFloat.opp (PrimFloat.of_uint63 (Uint63.of_Z (- v)))
  else PrimFloat.of_uint63 (Uint63.of_Z v).

(** The value of the decimal literal [n / d] of the source or of the
    configuration file: the binary64 value nearest to the quotient. *)
Definition decimal (n d : Z) : float :=
  PrimFloat.div (of_int n) (of_int d).

(** [int.from_bytes(data[i:i+2], 'big', signed=True) / scaling_factor]
    (line 584) *)
Definition raw_temperature (register : Z) (scaling_factor : float) : float :=
  PrimFloat.div (of_int register) scaling_factor.

(** [sorted(data)] *)
Fixpoint insert (x : float) (l : list float) : list float :=
  match l with
  | [] => [x]
  | y :: rest => if PrimFloat.leb x y then x :: l else y :: insert x rest
  end.

Definition sorted (data : list float) : list float :=
  fold_right insert [] data.

(** [statistics.median] *)
Definition median (data : list float) : exn float :=
  let data := sorted data in
  let n := length data in
  if (n =? 0)%nat then None
  else if Nat.odd n then nth_error data (n / 2)
  else
    a <- nth_error data (n / 2 - 1) ;;
    b <- nth_error data (n / 2) ;;
    Some (PrimFloat.div (PrimFloat.add a b) (of_int 2)).

(** [[startup_median - t for t in raw_temps]] (line 3192) *)
Definition startup_offsets (startup_median : float) (raw_temps : list float)
  : list float :=
  map (fun t => PrimFloat.sub startup_median t) raw_temps.

(** The comprehension of line 3200 once [startup_set] holds. *)
Definition calibrated_at (valid_min : float) (offsets raw_temps : list float)
           (i : nat) : exn (option float) :=
  raw <- nth_error raw_temps i ;;
  if PrimFloat.ltb valid_min raw then
    offset <- nth_error offsets i ;;
    Some (Some (PrimFloat.add raw offset))
  else Some None.

(** The readings that the poll of the first fully valid read publishes:
    the offsets are those of this very read. *)
Definition first_calibrated_temps (valid_min : float)
           (raw_temps : list float) : exn (list (option float)) :=
  startup_median <- median raw_temps ;;
  map_exn (calibrated_at valid_min
                         (startup_offsets startup_median raw_temps)
                         raw_temps)
          (seq 0 (length raw_temps)).

(** The conversion of a raw code to volts (lines 1459-1468). *)
Definition to_volts (voltage_divider_ratio calibration_factor : float)
           (raw_adc : Z) : float :=
  if raw_adc =? 0 then of_int 0
  else
    let measured_voltage :=
      PrimFloat.mul (of_int raw_adc)
                    (PrimFloat.div (decimal 6144 1000) (of_int 32767)) in
    PrimFloat.mul (PrimFloat.div measured_voltage voltage_divider_ratio)
                  calibration_factor.

(** [sum(readings) / len(readings)] for the two samples of a round. *)
Definition average (r0 r1 : float) : float :=
  PrimFloat.div (PrimFloat.add (PrimFloat.add (of_int 0) r0) r1) (of_int 2).

(** The test of the filter of line 1474. *)
Definition within_5_percent (average r : float) : bool :=
  PrimFloat.leb
    (PrimFloat.div (PrimFloat.abs (PrimFloat.sub r average))
                   (if PrimFloat.eqb average (of_int 0) then of_int 1
                    else average))
    (decimal 5 100).

End Binary64.

(** ** Configuration helpers *)

Module Config.

(** [l.index(x)]: the first position of [x], [ValueError] if there is
    none. *)
Fixpoint index (x : Z) (l : list Z) : option nat :=
  match l with
  | [] => None
  | y :: rest =>
      if (y =? x)%Z then Some 0%nat else option_map S (index x rest)
  end.

(** [get_port_for_slave] (lines 4-10). *)
Definition get_port_for_slave (slave_addr : Z)
           (slave_addresses slave_ports : list Z) (default_port : Z) : Z :=
  match index slave_addr slave_addresses with
  | Some idx =>
      if (idx <? length slave_ports)%nat
      then nth idx slave_ports default_port
      else default_port
  | None => default_port
  end.

(** The settings that [validate_config] reads; [relay_mapping] is the
    dictionary built by [load_config], as its items. *)
Record loaded : Type := mkLoaded {
  num_series_banks : Z;
  sensors_per_bank : Z;
  number_of_parallel_batteries : Z;
  modbus_slave_addresses : list Z;
  relay_mapping : list (string * list Z)
}.

(** The messages that [validate_config] collects. *)
Inductive config_error : Type :=
| BanksBelowOne
| BanksAboveTwenty
| SensorsBelowOne
| ParallelBelowOne
| SlaveCountMismatch
| RelayMappingMissing (pair : string).

(** [f"{i}-{j}"] *)
Definition pair_key (i j : Z) : string :=
  (Modbus.str_of_int i ++ "-" ++ Modbus.str_of_int j)%string.

(** [key in d] and [d[key]] *)
Definition has_key (key : string) (d : list (string * list Z)) : bool :=
  existsb (fun item => String.eqb (fst item) key) d.

Fixpoint lookup (key : string) (d : list (string * list Z))
  : option (list Z) :=
  match d with
  | [] => None
  | (k, v) :: rest => if String.eqb k key then Some v else lookup key rest
  end.

(** [range(1, n + 1)] *)
Definition one_to (n : Z) : list Z := map Z.of_nat (seq 1 (Z.to_nat n)).

(** The two nested loops that build [expected_pairs]. *)
Definition expected_pairs (n : Z) : list string :=
  flat_map (fun i =>
              flat_map (fun j => if (i =? j)%Z then [] else [pair_key i j])
                       (one_to n))
           (one_to n).

(** [validate_config] (lines 798-853): the list [errors]; the function
    raises [ValueError] when it is not empty. *)
Definition validate_config (c : loaded) : list config_error :=
  (if (num_series_banks c <? 1)%Z then [BanksBelowOne] else [])
    ++ (if (20 <? num_series_banks c)%Z then [BanksAboveTwenty] else [])
    ++ (if (sensors_per_bank c <? 1)%Z then [SensorsBelowOne] else [])
    ++ (if (number_of_parallel_batteries c <? 1)%Z
        then [ParallelBelowOne] else [])
    ++ (if negb (Z.of_nat (length (modbus_slave_addresses c))
                 =? number_of_parallel_batteries c)%Z
        then [SlaveCountMismatch] else [])
    ++ (match relay_mapping c with
        | [] => []
        | _ :: _ =>
            flat_map (fun pair =>
                        if has_key pair (relay_mapping c) then []
                        else [RelayMappingMissing pair])
                     (expected_pairs (num_series_banks c))
        end).

(** The relay mapping as [set_relay_connection] looks it up:
    [settings['relay_mapping'][f"{high}-{low}"]]. *)
Definition mapping_of (d : list (string * list Z)) (high low : nat)
  : option (list Z) :=
  lookup (pair_key (Z.of_nat high) (Z.of_nat low)) d.

End Config.

(** ** The event log *)

(** [event_log.append(entry)] followed by
    [if len(event_log) > settings.get('EventLogSize', 20): event_log.pop(0)],
    the pair of statements that follows every alert. *)
Definition log_event {A : Type} (EventLogSize : Z) (event_log : list A)
           (entry : A) : list A :=
  let event_log := event_log ++ [entry] in
  if (EventLogSize <? Z.of_nat (length event_log))%Z
  then tl event_log
  else event_log.

(** ** Battery detection ([battery_detection.py]) *)

Module ZLeBool := OTF_to_TTLB BinInt.Z.
Module ZSort := Sort ZLeBool.

Module Detection.

Definition MAX_INTERFACES : Z := 8.
Definition MAX_BATTERIES_PER_INTERFACE : Z := 32.
Definition MAX_TOTAL_BATTERIES : Z := 256.
Definition BASE_PORT : Z := 10001.

(** The dataclass [DetectedBattery], without its time stamp
    [last_seen]. *)
Record DetectedBattery : Type := mkDetectedBattery {
  interface_port : Z;
  slave_id : Z;
  battery_index : Z;
  sensors_per_battery : Z;
  is_online : bool
}.

(** The settings that [BatteryDetector.__init__] stores; the field
    [sensors] is [self.sensors_per_battery]. *)
Record BatteryDetector : Type := mkBatteryDetector {
  interface_ports : list Z;
  sensors : Z;
  test_register : Z;
  test_register_count : Z;
  max_batteries_per_interface : Z;
  retries : Z
}.

Definition valid_port (port : Z) : bool :=
  (BASE_PORT <=? port)%Z && (port <? BASE_PORT + MAX_INTERFACES)%Z.

(** [BatteryDetector.__init__] (lines 77-115): the ports are
    [sorted(set(interface_ports))]; a port outside the eight interface
    ports raises [ValueError]. *)
Definition init (interface_ports : list Z)
           (sensors_per_battery test_register test_register_count
            max_batteries_per_interface retries : Z)
  : exn BatteryDetector :=
  let interface_ports := ZSort.sort (nodup Z.eq_dec interface_ports) in
  let max_batteries_per_interface :=
    Z.min max_batteries_per_interface MAX_BATTERIES_PER_INTERFACE in
  if forallb valid_port interface_ports
  then Some (mkBatteryDetector interface_ports sensors_per_battery
               test_register test_register_count
               max_batteries_per_interface retries)
  else None.

(** What one attempt of [_test_battery_connection] meets on the wire. *)
Inductive probe : Type :=
| ConnectError                    (* [sock.connect] raises [socket.error] *)
| RecvTimeout                     (* [sock.recv] raises [socket.timeout] *)
| OtherError                      (* any other exception of the attempt *)
| Reply (response : list byte).

(** The probes met at a port for a slave id, by attempt. *)
Definition wire : Type := Z -> Z -> nat -> probe.

(** [bytes([slave_id, 3])] and the two [to_bytes(2, 'big')] raise outside
    the range of a byte and of two bytes. *)
Definition query_builds (d : BatteryDetector) (slave_id : Z) : bool :=
  (0 <=? slave_id)%Z && (slave_id <? 256)%Z
  && (0 <=? test_register d)%Z && (test_register d <? 65536)%Z
  && (0 <=? test_register_count d)%Z && (test_register_count d <? 65536)%Z.

(** The checks on a received reply (lines 144-162); every [continue] is
    [false]. The checksum is compared only when the reply holds the
    announced bytes and two more. *)
Definition accepts (slave_id : Z) (response : list byte) : bool :=
  if (length response <? 5)%nat then false
  else if negb (Crc.byte_to_Z (nth 0 response x00) =? slave_id)%Z then false
  else if negb (Z.land (Crc.byte_to_Z (nth 1 response x00)) 0x80 =? 0)%Z
  then false
  else
    let data_len := (Z.to_nat (Crc.byte_to_Z (nth 2 response x00)) + 3)%nat in
    if (data_len + 2 <=? length response)%nat then
      let received_crc := firstn 2 (skipn data_len response) in
      let calculated_crc := Crc.modbus_crc (firstn data_len response) in
      Crc.bytes_eqb received_crc calculated_crc
    else true.

(** One pass of the retry loop: [true] is [return True], [false] goes on
    with the next attempt. *)
Definition attempt_detects (d : BatteryDetector) (w : wire)
           (port slave_id : Z) (attempt : nat) : bool :=
  match w port slave_id attempt with
  | ConnectError => false
  | RecvTimeout => false
  | OtherError => false
  | Reply response => query_builds d slave_id && accepts slave_id response
  end.

(** [_test_battery_connection] (lines 117-177). *)
Definition test_battery_connection (d : BatteryDetector) (w : wire)
           (port slave_id : Z) : bool :=
  existsb (attempt_detects d w port slave_id)
          (seq 0 (Z.to_nat (retries d))).

(** [scan_interface] (lines 179-193); the copy of the result that it
    keeps in [self.interfaces] is read nowhere. *)
Definition scan_interface (d : BatteryDetector) (w : wire) (port : Z)
  : list Z :=
  filter (test_battery_connection d w port)
         (Config.one_to (max_batteries_per_interface d)).

(** The inner loop of [scan_all_interfaces] with its [break]. *)
Fixpoint add_slaves (d : BatteryDetector) (port : Z)
         (detected_slaves : list Z)
         (detected_batteries : list DetectedBattery) (battery_index : Z)
  : list DetectedBattery * Z :=
  match detected_slaves with
  | [] => (detected_batteries, battery_index)
  | slave_id :: rest =>
      if (MAX_TOTAL_BATTERIES <=? battery_index)%Z
      then (detected_batteries, battery_index)
      else
        let battery :=
          mkDetectedBattery port slave_id battery_index (sensors d) true in
        add_slaves d port rest (detected_batteries ++ [battery])
                   (battery_index + 1)%Z
  end.

(** The outer loop of [scan_all_interfaces] with its [break]. *)
Fixpoint scan_ports (d : BatteryDetector) (w : wire) (ports : list Z)
         (detected_batteries : list DetectedBattery) (battery_index : Z)
  : list DetectedBattery * Z :=
  match ports with
  | [] => (detected_batteries, battery_index)
  | port :: rest =>
      let detected_slaves := scan_interface d w port in
      let '(detected_batteries, battery_index) :=
        add_slaves d port detected_slaves detected_batteries battery_index in
      if (MAX_TOTAL_BATTERIES <=? battery_index)%Z
      then (detected_batteries, battery_index)
      else scan_ports d w rest detected_batteries battery_index
  end.

(** [scan_all_interfaces] (lines 195-226): the new value of
    [self.detected_batteries]. *)
Definition scan_all_interfaces (d : BatteryDetector) (w : wire)
  : list DetectedBattery :=
  fst (scan_ports d w (interface_ports d) [] 0%Z).

(** [get_battery_by_index] (lines 228-233). *)
Definition get_battery_by_index (detected_batteries : list DetectedBattery)
           (index : Z) : option DetectedBattery :=
  find (fun bat => (battery_index bat =? index)%Z) detected_batteries.

(** [get_batteries_on_interface] (lines 235-237). *)
Definition get_batteries_on_interface
           (detected_batteries : list DetectedBattery) (port : Z)
  : list DetectedBattery :=
  filter (fun bat => (interface_port bat =? port)%Z) detected_batteries.

(** [get_total_sensor_count] (lines 239-241). *)
Definition get_total_sensor_count
           (detected_batteries : list DetectedBattery) : Z :=
  fold_left Z.add (map sensors_per_battery detected_batteries) 0%Z.

(** [refresh_battery_status] (lines 243-249), on the wire as it is then. *)
Definition refresh_battery_status (d : BatteryDetector) (w : wire)
           (detected_batteries : list DetectedBattery)
  : list DetectedBattery :=
  map (fun battery =>
         mkDetectedBattery
           (interface_port battery) (slave_id battery)
           (battery_index battery) (sensors_per_battery battery)
           (test_battery_connection d w (interface_port battery)
                                    (slave_id battery)))
      detected_batteries.

(** The dictionaries of [get_detection_summary] (lines 251-267). *)
Record interface_summary : Type := mkInterfaceSummary {
  battery_count : nat;
  slave_ids : list Z;
  online_count : nat
}.

Record summary : Type := mkSummary {
  total_batteries : nat;
  total_sensors : Z;
  interfaces : list (Z * interface_summary)
}.

Definition get_detection_summary (d : BatteryDetector)
           (detected_batteries : list DetectedBattery) : summary :=
  mkSummary
    (length detected_batteries)
    (get_total_sensor_count detected_batteries)
    (map (fun port =>
            let batteries :=
              get_batteries_on_interface detected_batteries port in
            (port,
             mkInterfaceSummary (length batteries)
                                (map slave_id batteries)
                                (length (filter is_online batteries))))
         (interface_ports d)).

End Detection.

(** ** Further notions of the statements *)

(** A request that can be put on the wire (line 498): the slave address is
    a byte and the channel count fits two bytes. *)
Definition sendable (r : Modbus.request) : Prop :=
  (0 <= Modbus.slave_addr r < 256)%Z
  /\ (0 <= Modbus.num_channels r < 65536)%Z.

(** An attempt of [read_ntc_sensors] that ends in one of the two exceptions
    that are retried. *)
Definition retried (l : Modbus.link) (r : Modbus.request) (k : nat) : Prop :=
  Modbus.attempt_body l r k = Modbus.RaisedSocketError
  \/ Modbus.attempt_body l r k = Modbus.RaisedValueError.

(** The levels of the balancing lines: the four relay pins and the relay of
    the converter. *)
Record lines : Type := mkLines {
  relay_high : nat -> bool;
  dcdc_on : bool
}.

(** [GPIO.output(pin, level)] *)
Definition drive (ls : lines) (a : actuation) : lines :=
  match a with
  | RelayPin relay level =>
      mkLines (fun i => if (i =? relay)%nat then level else relay_high ls i)
              (dcdc_on ls)
  | DcDcRelay on => mkLines (relay_high ls) on
  | AlarmRelay _ | FanRelay _ => ls
  end.

(** The levels after a sequence of writes. *)
Definition replay (writes : list actuation) (ls : lines) : lines :=
  fold_left drive writes ls.

(** A bank voltage that raises no alert in [check_for_issues]. *)
Definition voltage_in_range (s : settings) (v : option Q) : Prop :=
  exists q, v = Some q /\ ~ q == 0
            /\ q <= HighVoltageThresholdPerBattery s
            /\ LowVoltageThresholdPerBattery s <= q.

(** The alerts of the three checks that need the previous poll. *)
Definition history_alert (a : alert) : bool :=
  match a with
  | AbnormalRise _ _ _ _ | GroupLag _ _ _ _ _ | SuddenDisconnection _ _ _ =>
      true
  | _ => false
  end.

(** The part of the state that a balancing run leaves alone. *)
Definition same_history (st st' : state) : Prop :=
  calib st' = calib st
  /\ previous_temps st' = previous_temps st
  /\ previous_bank_medians st' = previous_bank_medians st
  /\ run_count st' = run_count st
  /\ startup_failed st' = startup_failed st
  /\ startup_alerts st' = startup_alerts st.

(** ** The conditions under which the loop of [main] keeps running *)

(** Settings as [validate_config] accepts them, with a divider ratio other
    than 0, and with what [validate_config] does not check: slave addresses
    that are bytes and a number of sensors per battery that fits two
    bytes. *)
Definition well_configured (s : settings) : Prop :=
  (1 <= Topology.num_series_banks (topology s))%nat
  /\ (1 <= Topology.sensors_per_bank (topology s))%nat
  /\ (1 <= Topology.number_of_parallel_batteries (topology s))%nat
  /\ length (modbus_slave_addresses s)
     = Topology.number_of_parallel_batteries (topology s)
  /\ ~ VoltageDividerRatio s == 0
  /\ Forall (fun addr => 0 <= addr < 256)%Z (modbus_slave_addresses s)
  /\ (Z.of_nat (Poll.sensors_per_battery s) < 65536)%Z.

(** What the loop needs of the globals: offsets, when there are any, for
    every channel, and a previous reading for every channel and bank, as
    [main] sets them up before the loop. *)
Definition ready (s : settings) (st : state) : Prop :=
  (forall offsets,
     startup_offsets (calib st) = Some offsets ->
     (Poll.total_channels s <= length offsets)%nat)
  /\ (Poll.total_channels s <= length (previous_temps st))%nat
  /\ (NUM_BANKS s <= length (previous_bank_medians st))%nat.

(** What a pass needs of the outside world: every slave that answers
    sends one reading per sensor, [rrdtool] can be started, [time.sleep]
    accepts the back-off of every retry and the poll interval, and the two
    initial reads of a balancing run give a voltage for every bank. *)
Definition cooperative (s : settings) (e : Poll.cycle_env) : Prop :=
  Poll.full_answers s e
  /\ Poll.rrdtool_runs e = true
  /\ (forall i addr k,
        nth_error (modbus_slave_addresses s) i = Some addr ->
        (Z.of_nat k < max_retries s - 1)%Z ->
        Modbus.backoff (Poll.temp_link e i) (Poll.request_for s addr) k
        = Modbus.Slept)
  /\ Modbus.time_sleep (Poll.sleep_limit e) (poll_interval s) = Modbus.Slept
  /\ forall bank,
       (1 <= bank <= NUM_BANKS s)%nat ->
       (exists v,
          Voltage.read_voltage_with_retry
            s bank (Balance.initial_high_adc (Poll.balance_rig e))
          = Some (Some v))
       /\ (exists v,
             Voltage.read_voltage_with_retry
               s bank (Balance.initial_low_adc (Poll.balance_rig e))
             = Some (Some v)).

Definition cooperative_event (s : settings) (ev : Poll.event) : Prop :=
  match ev with
  | Poll.PollCycle e => cooperative s e
  | Poll.ManualTrigger => True
  end.

(** The batteries that a scan lists for the responding slaves [pairs]
    (port and slave id), numbered from [start]. *)
Fixpoint enlisted (sensors : Z) (pairs : list (Z * Z)) (start : Z)
  : list Detection.DetectedBattery :=
  match pairs with
  | [] => []
  | (port, slave_id) :: rest =>
      Detection.mkDetectedBattery port slave_id start sensors true
        :: enlisted sensors rest (start + 1)%Z
  end.

(** The order of a scan: by ascending port, and by ascending slave id at
    one port. *)
Definition scanned_before (a b : Z * Z) : Prop :=
  (fst a < fst b)%Z \/ (fst a = fst b /\ (snd a < snd b)%Z).

(** The responding slaves of every configured port, in scan order. *)
Definition responding (d : Detection.BatteryDetector) (w : Detection.wire)
           (ports : list Z) : list (Z * Z) :=
  flat_map (fun port => map (pair port) (Detection.scan_interface d w port))
           ports.

(** ** Auxiliary notions of the statements and proofs *)

(** The 16-bit register values. *)
Definition word16 (x : Z) : Prop := (0 <= x < 65536)%Z.

(** The round of the shift register can be undone: the top bit of the
    result tells whether the polynomial was applied. *)
Definition crc_unshift (y : Z) : Z :=
  (if y <? 32768 then 2 * y else 2 * Z.lxor y 0xA001 + 1)%Z.

Fixpoint holds_from (p : Z -> bool) (n : nat) (x : Z) : bool :=
  match n with
  | O => true
  | S m => p x && holds_from p m (x + 1)%Z
  end.

Definition shift_round_ok (x : Z) : bool :=
  ((0 <=? Crc.crc_shift x) && (Crc.crc_shift x <? 65536)
     && (crc_unshift (Crc.crc_shift x) =? x))%Z.

(** The bank medians of a pass. *)
Definition bank_medians_of (s : settings)
           (calibrated_temps : list (option Q)) : list Q :=
  map stat_median (Poll.compute_bank_medians s calibrated_temps).

(** The state at the balance decision. *)
Definition measured (s : settings) (st : state) (c : calibration)
           (calibrated_temps : list (option Q)) : state :=
  set_previous calibrated_temps (bank_medians_of s calibrated_temps)
               (set_calib c st).

Definition cabinet_of (s : settings) (calibrated_temps : list (option Q))
           (dynamic_alerts : list alert) : list alert * list actuation :=
  Poll.cabinet_check s (Poll.overall_median_of calibrated_temps)
                     dynamic_alerts.

(** The stages of a pass that ran to its end. *)
Inductive stages (s : settings) (e : Poll.cycle_env) (st : state)
          (p : Poll.pass) : Prop :=
| Stages (slave_alerts : list alert) (raw_temps : list Q) (c : calibration)
         (calibrated_temps : list (option Q))
         (static_alerts dynamic_alerts temps_alerts : list alert)
         (fan : list actuation)
         (battery_voltages : list Q)
         (alert_needed : bool) (all_alerts : list alert)
         (alarm : list actuation)
         (st_balanced : state) (balance_writes : list actuation)
    (stage_read :
       Poll.read_slaves s e 0 (modbus_slave_addresses s) [] []
       = Some (slave_alerts, raw_temps))
    (stage_calibrate : Poll.calibrate s raw_temps (calib st) = Some c)
    (stage_calibrated :
       Poll.calibrate_temps s c raw_temps = Some calibrated_temps)
    (stage_static :
       Poll.static_checks s raw_temps calibrated_temps
         (bank_medians_of s calibrated_temps) slave_alerts
       = Some static_alerts)
    (stage_dynamic :
       Poll.dynamic_checks s (set_calib c st) calibrated_temps
         (bank_medians_of s calibrated_temps) static_alerts
       = Some dynamic_alerts)
    (stage_cabinet :
       cabinet_of s calibrated_temps dynamic_alerts = (temps_alerts, fan))
    (stage_voltages : Poll.read_voltages s e = Some battery_voltages)
    (stage_issues :
       Issues.check_for_issues s (measured s st c calibrated_temps)
         (map Some battery_voltages) temps_alerts
       = (alert_needed, all_alerts, alarm))
    (stage_balance :
       Poll.balance_decision s e (measured s st c calibrated_temps)
         battery_voltages calibrated_temps temps_alerts alert_needed
       = Some (st_balanced, balance_writes, Poll.balance p))
    (stage_state :
       Poll.state_after p
       = Poll.publish st_balanced battery_voltages calibrated_temps
           (Poll.compute_bank_medians s calibrated_temps) all_alerts
           alert_needed)
    (stage_writes : Poll.writes p = fan ++ alarm ++ balance_writes)
    (stage_raw : Poll.raw_temps_read p = raw_temps)
    (stage_alerts : Poll.temps_alerts_found p = temps_alerts)
    (stage_needed : Poll.alert_needed p = alert_needed)
    (stage_all : Poll.all_alerts p = all_alerts).

(** A run of the balancer that ended in a failed verification. *)
Definition failed_ending (h : Balance.ending) : bool :=
  match h with
  | Balance.Completed (Balance.Failed _ _) => true
  | _ => false
  end.

Definition failed_balance (b : option Balance.ending) : bool :=
  match b with
  | Some h => failed_ending h
  | None => false
  end.

(** The alert of a slave whose read failed. *)
Definition is_slave_failed (a : alert) : Prop :=
  exists addr temp_result, a = SlaveFailed addr temp_result.

(** An alert that prints the battery and local channel of [ch]. *)
Definition about (ch : Z) (a : alert) : Prop :=
  channel_of_alert a = Some (Topology.get_battery_and_local_ch ch).

Definition invalid_alert_of (s : settings) (ch : Z) : alert :=
  InvalidReading (fst (Topology.get_battery_and_local_ch ch))
                 (Anomaly.bank_of s ch)
                 (snd (Topology.get_battery_and_local_ch ch)) (valid_min s).

(** An alert that is not a high, low or deviation alert. *)
Definition quiet (a : alert) : Prop := threshold_alert a = false.

(** The positions of a bank whose calibrated reading is absent. *)
Definition missing_in (calibrated_temps : list (option Q))
           (bank_indices : list nat) : list nat :=
  filter (fun i => Poll.is_none (nth i calibrated_temps None)) bank_indices.

(** ** A small installation used in the worked examples *)

Module Demo.

(** Three series banks with one sensor each, on [parallel] batteries with
    slave addresses 1, 2, ...; the divider ratio and the per-bank
    calibration factors are chosen so that the full-scale code 32767 reads
    20.5 V on bank 1, 19 V on bank 2 and 20 V on bank 3. *)
Definition installation (parallel : nat) : settings :=
  mkSettings (Topology.mkConfig 3 1 parallel)
             (map Z.of_nat (seq 1 parallel))
             100 3 0 42 0 2 (1 # 10) 2 (1 # 2) 35
             (6144 # 1000)
             (fun bank_id => match bank_id with
                             | 1%nat => 205 # 10
                             | 2%nat => 19
                             | _ => 20
                             end)
             21 (37 # 2) (1 # 10) 60 (1 # 100)
             (fun high low => if (high =? low)%nat then None
                              else Some [0; 1]%Z)
             1 (1 # 4) 10.

(** The answer of slave [addr] carrying the given register values. *)
Definition answer (addr : Z) (registers : list Z) : list byte :=
  Crc.append_crc
    ([Crc.byte_of_Z addr; x03;
      Crc.byte_of_Z (2 * Z.of_nat (length registers))]
       ++ flat_map Modbus.to_bytes_2_big registers).

Definition answering (addr : Z) (registers : list Z) : Modbus.link :=
  Modbus.mkLink (fun _ => Modbus.Received (answer addr registers))
                (fun _ => true) 3600.

(** A meter that converts to the full-scale code every time (the register
    is read with its bytes swapped). *)
Definition steady : Voltage.adc := fun _ _ => Voltage.Word 0xFF7F.

(** A meter whose two samples of every round are far apart. *)
Definition unstable : Voltage.adc :=
  fun _ k => match k with
             | O => Voltage.Word 0x0010
             | _ => Voltage.Word 0xFF7F
             end.

(** A balancing run during which the voltages do not move, with the given
    number of periodic reads. *)
Definition idle_rig (periodic_reads : nat) : Balance.rig :=
  Balance.mkRig steady steady (repeat (steady, steady) periodic_reads)
                steady steady 1005.

(** The state in which [main] enters its loop when the start-up test
    passed without calibrating. *)
Definition fresh (s : settings) : state :=
  mkState (mkCalibration false None None)
          (repeat None (Topology.total_channels (topology s)))
          (repeat 0 (NUM_BANKS s))
          0 false false [] false 0
          (mkSnapshot (repeat 0 (NUM_BANKS s))
                      (repeat None (Topology.total_channels (topology s)))
                      (repeat (mkBankStat 0 0 0 0) (NUM_BANKS s))
                      [] false false).

(** One battery answering 23.00, 25.00 and 27.00 degrees. *)
Definition warm_poll (periodic_reads : nat) : Poll.cycle_env :=
  Poll.mkEnv (fun _ => answering 1 [2300; 2500; 2700]%Z)
             (fun _ => steady) 1000 (idle_rig periodic_reads) true 3600.

(** One battery whose second sensor reads 0.00 degrees, which is not above
    [valid_min]. *)
Definition partly_valid_poll : Poll.cycle_env :=
  Poll.mkEnv (fun _ => answering 1 [2300; 0; 2700]%Z)
             (fun _ => steady) 1000 (idle_rig 1) true 3600.

(** One battery answering 24.00, 26.00 and 29.00 degrees. *)
Definition warmer_poll : Poll.cycle_env :=
  Poll.mkEnv (fun _ => answering 1 [2400; 2600; 2900]%Z)
             (fun _ => steady) 2000 (idle_rig 1) true 3600.

(** Two batteries, the second of which never answers. *)
Definition second_slave_silent : Poll.cycle_env :=
  Poll.mkEnv (fun i => match i with
                       | O => answering 1 [2300; 2500; 2700]%Z
                       | _ => Modbus.always_timeout
                       end)
             (fun _ => steady) 1000 (idle_rig 1) true 3600.

(** One battery answering, the meter of every bank unstable. *)
Definition unstable_meter : Poll.cycle_env :=
  Poll.mkEnv (fun _ => answering 1 [2300; 2500; 2700]%Z)
             (fun _ => unstable) 1000 (idle_rig 1) true 3600.

(** A meter that converts to the code 0 every time: a true reading of
    0 V. *)
Definition dead : Voltage.adc := fun _ _ => Voltage.Word 0.

(** One battery answering, every bank at a true 0 V. *)
Definition dead_banks : Poll.cycle_env :=
  Poll.mkEnv (fun _ => answering 1 [2300; 2500; 2700]%Z)
             (fun _ => dead) 1000 (idle_rig 1) true 3600.

(** A request through [/api/balance] is pending. *)
Definition triggered (s : settings) : state :=
  set_balancing_active true (fresh s).

(** The state a pass leaves behind, the state itself if the pass raised. *)
Definition after_pass (s : settings) (e : Poll.cycle_env) (st : state)
  : state :=
  match Poll.poll_cycle s e st with
  | Some p => Poll.state_after p
  | None => st
  end.

End Demo.

(* ===================================================================== *)
(** * Part II: properties                                                 *)
(* ===================================================================== *)

(** The checksum of the read request for slave 1, 24 registers. *)
Example crc_of_read_request :
  Crc.modbus_crc [x01; x03; x00; x00; x00; x18] = [x45; xc0].
Proof. vm_compute. reflexivity. Qed.

Example retry_exhaustion_slave_7 :
  Modbus.read_ntc_sensors Modbus.always_timeout
    (Modbus.mkRequest 24 (100 # 1) 3 7 1 (1 # 4))
  = Some (Modbus.ErrorText "Error: Failed after 3 attempts for slave 7",
          3%nat).
Proof. vm_compute. reflexivity. Qed.

(** ** Topology resolver *)

Section TopologyFacts.
Import Topology.
Local Open Scope nat_scope.

Variable c : config.

Lemma bank_slice_bound (bank_id bat i : nat) :
  bank_id < num_series_banks c ->
  bat < number_of_parallel_batteries c ->
  In i (bank_slice c bank_id bat) ->
  i < total_channels c.
Proof.
  unfold bank_slice, total_channels, sensors_per_battery.
  intros Hbank Hbat Hin. apply in_seq in Hin.
  set (S := num_series_banks c * sensors_per_bank c) in *.
  assert (H1 : (bank_id + 1) * sensors_per_bank c <= S)
    by (apply Nat.mul_le_mono_r; lia).
  assert (H2 : (bat + 1) * S <= number_of_parallel_batteries c * S)
    by (apply Nat.mul_le_mono_r; lia).
  lia.
Qed.

Lemma bank_indices_bound (indices : list nat) (i : nat) :
  In indices (bank_sensor_indices c) -> In i indices -> i < total_channels c.
Proof.
  unfold bank_sensor_indices. intros Hl Hi.
  apply in_map_iff in Hl. destruct Hl as [bank_id [<- Hbank]].
  apply in_seq in Hbank.
  apply in_flat_map in Hi. destruct Hi as [bat [Hbat Hi]].
  apply in_seq in Hbat.
  apply bank_slice_bound with (bank_id := bank_id) (bat := bat); auto; lia.
Qed.

Lemma index_in_spec (ch : Z) (indices : list nat) :
  index_in ch indices = true <->
  exists i, In i indices /\ Z.of_nat i = (ch - 1)%Z.
Proof.
  unfold index_in. rewrite existsb_exists.
  split; intros [i [Hi Heq]]; exists i; split; auto.
  - now apply Z.eqb_eq.
  - now apply Z.eqb_eq.
Qed.

Lemma find_bank_none (ch : Z) (banks : list (list nat)) :
  (forall indices, In indices banks -> index_in ch indices = false) ->
  forall start, find_bank ch start banks = None.
Proof.
  induction banks as [| indices rest IH]; intros Hall start; simpl.
  - reflexivity.
  - rewrite (Hall indices) by now left.
    apply IH. intros l Hl. apply Hall. now right.
Qed.

End TopologyFacts.

(** [C5], as the code has it: for every channel number outside
    [1 .. total_channels], [get_bank_for_channel] answers [None], while
    [get_battery_and_local_ch] makes no range test and answers the
    floor-division pair for width 24: a battery number of at most 0 for a
    channel below 1, and always a local channel between 1 and 24. *)
Theorem out_of_range_channel (c : Topology.config) (ch : Z) :
  (ch < 1 \/ ch > Z.of_nat (Topology.total_channels c))%Z ->
  Topology.get_bank_for_channel (Topology.bank_sensor_indices c) ch = None
  /\ Topology.get_battery_and_local_ch ch
     = ((ch - 1) / 24 + 1, (ch - 1) mod 24 + 1)%Z
  /\ (ch < 1 -> fst (Topology.get_battery_and_local_ch ch) <= 0)%Z
  /\ (1 <= snd (Topology.get_battery_and_local_ch ch) <= 24)%Z.
Proof.
  intros Hout. split; [| split; [| split]].
  - unfold Topology.get_bank_for_channel. apply find_bank_none.
    intros indices Hin.
    destruct (Topology.index_in ch indices) eqn:E; [| reflexivity].
    apply index_in_spec in E. destruct E as [i [Hi Heq]].
    pose proof (bank_indices_bound c indices i Hin Hi). lia.
  - reflexivity.
  - intros Hlow. unfold Topology.get_battery_and_local_ch. simpl fst.
    assert ((ch - 1) / 24 < 0)%Z by (apply Z.div_lt_upper_bound; lia).
    lia.
  - unfold Topology.get_battery_and_local_ch. simpl snd.
    pose proof (Z.mod_pos_bound (ch - 1) 24). lia.
Qed.

Lemma out_of_range_channel_witness :
  Topology.get_bank_for_channel
    (Topology.bank_sensor_indices (Topology.mkConfig 3 8 2)) 49 = None
  /\ Topology.get_battery_and_local_ch 49 = ((49 - 1) / 24 + 1, (49 - 1) mod 24 + 1)%Z
  /\ (49 < 1 -> fst (Topology.get_battery_and_local_ch 49) <= 0)%Z
  /\ (1 <= snd (Topology.get_battery_and_local_ch 49) <= 24)%Z.
Proof.
  apply (out_of_range_channel (Topology.mkConfig 3 8 2) 49).
  right. vm_compute. reflexivity.
Defined.

(** [C5], as the claim states it, fails: with 3 banks of 8 sensors on 2
    batteries (48 channels) the channels 0 and 49 are out of range, and
    [get_battery_and_local_ch] still answers a battery and a local channel
    for them: battery 0 and battery 3, neither of which exists. *)
Lemma battery_and_local_fabricates_out_of_range :
  let c := Topology.mkConfig 3 8 2 in
  Topology.total_channels c = 48%nat
  /\ Topology.get_bank_for_channel (Topology.bank_sensor_indices c) 0 = None
  /\ Topology.get_battery_and_local_ch 0 = (0, 24)%Z
  /\ Topology.get_battery_and_local_ch 49 = (3, 1)%Z.
Proof. vm_compute. repeat split; reflexivity. Qed.

(** The worked example of the topology: channel 9 is bank 2 of battery 1,
    channel 25 is bank 1 of battery 2, local channel 1. *)
Example topology_example :
  let banks := Topology.bank_sensor_indices (Topology.mkConfig 3 8 2) in
  Topology.get_bank_for_channel banks 9 = Some 2%nat
  /\ Topology.get_battery_and_local_ch 9 = (1, 9)%Z
  /\ Topology.get_bank_for_channel banks 25 = Some 1%nat
  /\ Topology.get_battery_and_local_ch 25 = (2, 1)%Z.
Proof. vm_compute. repeat split; reflexivity. Qed.

(** [C9]: [get_battery_and_local_ch] splits every channel with the fixed
    width 24, whatever the configuration. When the configured number of
    sensors per battery differs from 24, the pack has a channel whose
    readings [main] stores in the block of one battery while the function
    reports another battery exactly when it has more than [min 24
    sensors_per_battery] channels: with two or more batteries, or with a
    single battery of more than 24 sensors. *)
Theorem fixed_battery_width (c : Topology.config) :
  Topology.sensors_per_battery c <> 24%nat ->
  (forall ch,
     Topology.get_battery_and_local_ch ch
     = ((ch - 1) / 24 + 1, (ch - 1) mod 24 + 1)%Z)
  /\ ((exists (ch : Z) (bat : nat),
         (1 <= ch <= Z.of_nat (Topology.total_channels c))%Z
         /\ (bat < Topology.number_of_parallel_batteries c)%nat
         /\ In (Z.to_nat (ch - 1)) (Topology.battery_block c bat)
         /\ fst (Topology.get_battery_and_local_ch ch)
            <> (Z.of_nat bat + 1)%Z)
      <-> (Nat.min 24 (Topology.sensors_per_battery c)
           < Topology.total_channels c)%nat)
  /\ ((Nat.min 24 (Topology.sensors_per_battery c)
       < Topology.total_channels c)%nat
      <-> (2 <= Topology.number_of_parallel_batteries c)%nat
          /\ (1 <= Topology.sensors_per_battery c)%nat
          \/ Topology.number_of_parallel_batteries c = 1%nat
             /\ (24 < Topology.sensors_per_battery c)%nat).
Proof.
  intros Hne. split; [reflexivity |].
  unfold Topology.battery_block, Topology.total_channels.
  set (S := Topology.sensors_per_battery c) in *.
  set (P := Topology.number_of_parallel_batteries c).
  split; [split |].
  - intros [ch [bat [Hch [Hbat [Hin Hdiff]]]]].
    apply in_seq in Hin.
    destruct (Nat.lt_ge_cases (Nat.min 24 S) (P * S)) as [Hlt | Hge];
      [exact Hlt | exfalso].
    apply Hdiff. unfold Topology.get_battery_and_local_ch. simpl fst.
    assert (Hbat0 : bat = 0%nat) by nia.
    subst bat. rewrite Z.div_small by lia. reflexivity.
  - intros Hlt. destruct (Nat.lt_ge_cases S 24) as [Hs | Hs].
    + exists (Z.of_nat S + 1)%Z, 1%nat.
      replace (Z.of_nat S + 1 - 1)%Z with (Z.of_nat S) by lia.
      rewrite Nat2Z.id. split; [nia |]. split; [nia |].
      split; [apply in_seq; nia |].
      unfold Topology.get_battery_and_local_ch. simpl fst.
      replace (Z.of_nat S + 1 - 1)%Z with (Z.of_nat S) by lia.
      rewrite Z.div_small by lia. lia.
    + exists 25%Z, 0%nat. split; [nia |]. split; [nia |].
      split; [apply in_seq; simpl; lia |].
      vm_compute. discriminate.
  - nia.
Qed.

Lemma fixed_battery_width_witness :
  let c := Topology.mkConfig 2 5 2 in
  exists (ch : Z) (bat : nat),
    (1 <= ch <= Z.of_nat (Topology.total_channels c))%Z
    /\ (bat < Topology.number_of_parallel_batteries c)%nat
    /\ In (Z.to_nat (ch - 1)) (Topology.battery_block c bat)
    /\ fst (Topology.get_battery_and_local_ch ch) <> (Z.of_nat bat + 1)%Z.
Proof.
  apply (fixed_battery_width (Topology.mkConfig 2 5 2)).
  - vm_compute. lia.
  - vm_compute. lia.
Defined.

(** [C9], where the statement of the specification fails: a single
    battery of 2 banks of 5 sensors has 10 sensors, not 24, and for each of
    its 10 channels the function reports battery 1, the battery whose
    block holds the reading, and the channel itself as the local channel:
    the decomposition agrees with the configured topology. *)
Theorem single_small_battery_agrees :
  Topology.sensors_per_battery (Topology.mkConfig 2 5 1) = 10%nat
  /\ Topology.total_channels (Topology.mkConfig 2 5 1) = 10%nat
  /\ Topology.battery_block (Topology.mkConfig 2 5 1) 0 = seq 0 10
  /\ map Topology.get_battery_and_local_ch (map Z.of_nat (seq 1 10))
     = map (fun ch => (1%Z, Z.of_nat ch)) (seq 1 10)
  /\ (forall (ch : Z) (bat : nat),
        (1 <= ch <= Z.of_nat
                      (Topology.total_channels (Topology.mkConfig 2 5 1)))%Z ->
        In (Z.to_nat (ch - 1))
           (Topology.battery_block (Topology.mkConfig 2 5 1) bat) ->
        Topology.get_battery_and_local_ch ch = (Z.of_nat bat + 1, ch)%Z).
Proof.
  split; [reflexivity |]. split; [reflexivity |]. split; [reflexivity |].
  split; [reflexivity |].
  intros ch bat Hch Hin. unfold Topology.battery_block in Hin.
  apply in_seq in Hin.
  change (Topology.total_channels (Topology.mkConfig 2 5 1)) with 10%nat
    in Hch.
  change (Topology.sensors_per_battery (Topology.mkConfig 2 5 1))
    with 10%nat in Hin.
  assert (Hbat : bat = 0%nat) by lia. subst bat.
  unfold Topology.get_battery_and_local_ch. cbv zeta.
  rewrite Z.div_small, Z.mod_small by lia. f_equal. lia.
Qed.

(** With 2 banks of 5 sensors on 2 batteries, channel 11 is the first
    reading of the second battery; the function reports battery 1, local
    channel 11. *)
Example channel_11_of_a_10_sensor_battery :
  In 10%nat (Topology.battery_block (Topology.mkConfig 2 5 2) 1)
  /\ Topology.get_battery_and_local_ch 11 = (1, 11)%Z.
Proof. split; [apply in_seq; vm_compute; lia | reflexivity]. Qed.

(** ** Temperature bus client *)

(** [C6]: for a request that can be sent (the slave address is a byte,
    the channel count fits two bytes), with [max_retries = 3], every
    exchange ending in a socket error, raised by [connect] or [send] or,
    after the wait of [query_delay], by the receive (a timeout is one),
    and the connectivity probe succeeding each time: provided the wait of
    [query_delay] does not overflow the interpreter's clock and
    [time.sleep] accepts the two back-off sleeps, of [retry_backoff_base
    ** 0] and [retry_backoff_base ** 1] seconds, [read_ntc_sensors] gives
    up after exactly 3 attempts and returns the error text that names the
    slave address; it does not return a list of temperatures. *)
Theorem retry_exhaustion (l : Modbus.link) (r : Modbus.request) :
  (0 <= Modbus.slave_addr r < 256)%Z ->
  (0 <= Modbus.num_channels r < 65536)%Z ->
  Modbus.max_retries r = 3%Z ->
  (forall k, (k < 3)%nat ->
             Modbus.exchange_at l k = Modbus.SocketError
             \/ Modbus.exchange_at l k = Modbus.ReceiveError) ->
  (forall k, (k < 3)%nat -> Modbus.probe_at l k = true) ->
  Modbus.time_sleep (Modbus.sleep_limit l) (Modbus.query_delay r)
  <> Modbus.SleepOverflowError ->
  (forall k, (k < 2)%nat -> Modbus.backoff l r k = Modbus.Slept) ->
  Modbus.read_ntc_sensors l r
  = Some (Modbus.ErrorText
            ("Error: Failed after 3 attempts for slave "
               ++ Modbus.str_of_int (Modbus.slave_addr r))%string,
          3%nat).
Proof.
  intros [Ha1 Ha2] [Hn1 Hn2] Hmax Hsock Hprobe Hdelay Hsleep.
  unfold Modbus.read_ntc_sensors, Modbus.build_query.
  apply Z.leb_le in Ha1, Hn1. apply Z.ltb_lt in Ha2, Hn2.
  rewrite Ha1, Ha2, Hn1, Hn2. cbn [andb bind].
  rewrite Hmax. change (Z.to_nat 3) with 3%nat.
  assert (Hfail : forall k, (k < 3)%nat ->
            Modbus.attempt_body l r k = Modbus.RaisedSocketError
            \/ Modbus.attempt_body l r k = Modbus.RaisedValueError).
  { intros k Hk. unfold Modbus.attempt_body.
    destruct (Hsock k Hk) as [-> | ->]; [now left |].
    destruct (Modbus.time_sleep _ _);
      [now left | now right | now left | now destruct Hdelay]. }
  cbn [Modbus.attempts]. rewrite Hmax, !Hprobe, !Hsleep by lia.
  change (Z.of_nat 0 <? 3 - 1)%Z with true.
  change (Z.of_nat 1 <? 3 - 1)%Z with true.
  change (Z.of_nat 2 <? 3 - 1)%Z with false.
  destruct (Hfail 0%nat) as [-> | ->]; [lia | |];
    (destruct (Hfail 1%nat) as [-> | ->]; [lia | |]);
    (destruct (Hfail 2%nat) as [-> | ->]; [lia | |]); reflexivity.
Qed.

Lemma retry_exhaustion_witness :
  Modbus.read_ntc_sensors Modbus.always_timeout
    (Modbus.mkRequest 24 (100 # 1) 3 7 1 (1 # 4))
  = Some (Modbus.ErrorText
            ("Error: Failed after 3 attempts for slave "
               ++ Modbus.str_of_int 7)%string,
          3%nat).
Proof.
  apply (retry_exhaustion Modbus.always_timeout
           (Modbus.mkRequest 24 (100 # 1) 3 7 1 (1 # 4))).
  - cbn. lia.
  - cbn. lia.
  - reflexivity.
  - intros k _. right. reflexivity.
  - intros k _. reflexivity.
  - vm_compute. discriminate.
  - intros k Hk.
    destruct k as [| [| k]]; [reflexivity | reflexivity | lia].
Defined.

(** [C6], where the statement of the specification fails: with
    [max_retries = 3] and every exchange timing out while the probe
    connects, a back-off base of [-1], which [load_config] accepts, ends
    the call in the [ValueError] of [time.sleep(-1)] after the second
    attempt; a base of [2 ** 40] ends it in the [OverflowError] of
    [time.sleep(2 ** 40)]; and a slave address of 300 ends it in the
    [ValueError] of [bytes([300, 3])] before the first attempt: no error
    text is returned. *)
Theorem retry_exhaustion_can_end_in_an_exception :
  Modbus.read_ntc_sensors Modbus.always_timeout
    (Modbus.mkRequest 24 100 3 7 (-1) (1 # 4)) = None
  /\ Modbus.backoff Modbus.always_timeout
       (Modbus.mkRequest 24 100 3 7 (-1) (1 # 4)) 0
     = Modbus.Slept
  /\ Modbus.backoff Modbus.always_timeout
       (Modbus.mkRequest 24 100 3 7 (-1) (1 # 4)) 1
     = Modbus.SleepValueError
  /\ Modbus.read_ntc_sensors Modbus.always_timeout
       (Modbus.mkRequest 24 100 3 7 (2 ^ 40) (1 # 4)) = None
  /\ Modbus.backoff Modbus.always_timeout
       (Modbus.mkRequest 24 100 3 7 (2 ^ 40) (1 # 4)) 1
     = Modbus.SleepOverflowError
  /\ Modbus.read_ntc_sensors Modbus.always_timeout
       (Modbus.mkRequest 24 100 3 300 1 (1 # 4)) = None.
Proof. repeat split; vm_compute; reflexivity. Qed.

(** ** Frame checksum *)

Section CrcFacts.
Import Crc.
Local Open Scope Z_scope.

Lemma holds_from_spec (p : Z -> bool) (n : nat) :
  forall x, holds_from p n x = true ->
  forall y, x <= y < x + Z.of_nat n -> p y = true.
Proof.
  induction n as [| n IH]; intros x H y Hy.
  - simpl in Hy. lia.
  - cbn [holds_from] in H. apply andb_prop in H. destruct H as [Hx Hrest].
    destruct (Z.eq_dec y x) as [-> | Hne]; [exact Hx |].
    apply (IH (x + 1)); [exact Hrest | lia].
Qed.

Lemma shift_round_checked :
  holds_from shift_round_ok (Z.to_nat 65536) 0 = true.
Proof. vm_compute. reflexivity. Qed.

Lemma shift_round (x : Z) :
  word16 x -> word16 (crc_shift x) /\ crc_unshift (crc_shift x) = x.
Proof.
  intros Hx.
  assert (H : shift_round_ok x = true).
  { apply (holds_from_spec shift_round_ok (Z.to_nat 65536) 0
             shift_round_checked).
    rewrite Z2Nat.id by lia. unfold word16 in Hx. lia. }
  unfold shift_round_ok in H.
  apply andb_prop in H. destruct H as [H Hinv].
  apply andb_prop in H. destruct H as [Hlo Hhi].
  unfold word16. split; [lia | now apply Z.eqb_eq].
Qed.

Lemma shift_rounds_range (n : nat) (x : Z) :
  word16 x -> word16 (Nat.iter n crc_shift x).
Proof.
  intros Hx. induction n as [| n IH]; simpl; [exact Hx |].
  now apply shift_round.
Qed.

Lemma shift_rounds_inj (n : nat) (x y : Z) :
  word16 x -> word16 y ->
  Nat.iter n crc_shift x = Nat.iter n crc_shift y -> x = y.
Proof.
  intros Hx Hy. induction n as [| n IH]; simpl; intros H; [exact H |].
  apply IH.
  destruct (shift_round _ (shift_rounds_range n x Hx)) as [_ Ex].
  destruct (shift_round _ (shift_rounds_range n y Hy)) as [_ Ey].
  rewrite <- Ex, <- Ey, H. reflexivity.
Qed.

Lemma byte_to_Z_range (b : byte) : 0 <= byte_to_Z b < 256.
Proof.
  unfold byte_to_Z. pose proof (Byte.to_N_bounded b). lia.
Qed.

Lemma byte_to_Z_inj (a b : byte) : byte_to_Z a = byte_to_Z b -> a = b.
Proof.
  unfold byte_to_Z. intros H. apply N2Z.inj in H.
  pose proof (Byte.of_to_N a) as Ha. pose proof (Byte.of_to_N b) as Hb.
  rewrite H in Ha. congruence.
Qed.

Lemma byte_of_to_Z (z : Z) : 0 <= z < 256 -> byte_to_Z (byte_of_Z z) = z.
Proof.
  intros Hz. unfold byte_of_Z, byte_to_Z.
  rewrite Z.mod_small by lia.
  destruct (Byte.of_N (Z.to_N z)) as [b |] eqn:E.
  - apply Byte.to_of_N in E. rewrite E. lia.
  - apply Byte.of_N_None_iff in E. lia.
Qed.

Lemma lxor_below (n a b : Z) :
  0 <= n -> 0 <= a < 2 ^ n -> 0 <= b < 2 ^ n -> 0 <= Z.lxor a b < 2 ^ n.
Proof.
  intros Hn Ha Hb.
  assert (Hnn : 0 <= Z.lxor a b) by (apply Z.lxor_nonneg; lia).
  split; [exact Hnn |].
  destruct (Z.eq_dec n 0) as [-> | Hn0].
  { assert (a = 0) by (simpl in Ha; lia). assert (b = 0) by (simpl in Hb; lia).
    subst. simpl. lia. }
  destruct (Z.eq_dec (Z.lxor a b) 0) as [-> | Hne]; [lia |].
  apply Z.log2_lt_pow2; [lia |].
  pose proof (Z.log2_lxor a b (proj1 Ha) (proj1 Hb)) as Hlog.
  assert (La : Z.log2 a < n).
  { destruct (Z.eq_dec a 0) as [-> | ?].
    - simpl. lia.
    - apply Z.log2_lt_pow2; lia. }
  assert (Lb : Z.log2 b < n).
  { destruct (Z.eq_dec b 0) as [-> | ?].
    - simpl. lia.
    - apply Z.log2_lt_pow2; lia. }
  lia.
Qed.

Lemma lxor_byte_range (s : Z) (b : byte) :
  word16 s -> word16 (Z.lxor s (byte_to_Z b)).
Proof.
  intros Hs. pose proof (byte_to_Z_range b).
  unfold word16 in *. change 65536 with (2 ^ 16).
  apply lxor_below; [lia | |]; change (2 ^ 16) with 65536; lia.
Qed.

Lemma lxor_cancel_l (s a b : Z) : Z.lxor s a = Z.lxor s b -> a = b.
Proof.
  intros H. apply (f_equal (Z.lxor s)) in H.
  rewrite <- !Z.lxor_assoc, Z.lxor_nilpotent, !Z.lxor_0_l in H. exact H.
Qed.

Lemma lxor_cancel_r (s t a : Z) : Z.lxor s a = Z.lxor t a -> s = t.
Proof.
  intros H. rewrite (Z.lxor_comm s), (Z.lxor_comm t) in H.
  now apply lxor_cancel_l in H.
Qed.

Lemma crc_byte_range (s : Z) (b : byte) : word16 s -> word16 (crc_byte s b).
Proof.
  intros Hs. unfold crc_byte.
  apply shift_rounds_range, lxor_byte_range, Hs.
Qed.

Lemma crc_byte_inj_byte (s : Z) (a b : byte) :
  word16 s -> crc_byte s a = crc_byte s b -> a = b.
Proof.
  intros Hs H. unfold crc_byte in H.
  apply shift_rounds_inj in H; try now apply lxor_byte_range.
  apply lxor_cancel_l in H. now apply byte_to_Z_inj.
Qed.

Lemma crc_byte_inj_state (s t : Z) (b : byte) :
  word16 s -> word16 t -> crc_byte s b = crc_byte t b -> s = t.
Proof.
  intros Hs Ht H. unfold crc_byte in H.
  apply shift_rounds_inj in H; try now apply lxor_byte_range.
  now apply lxor_cancel_r in H.
Qed.

Lemma fold_crc_range (data : list byte) :
  forall s, word16 s -> word16 (fold_left crc_byte data s).
Proof.
  induction data as [| b rest IH]; intros s Hs; simpl; [exact Hs |].
  apply IH, crc_byte_range, Hs.
Qed.

Lemma fold_crc_inj (data : list byte) :
  forall s t, word16 s -> word16 t ->
  fold_left crc_byte data s = fold_left crc_byte data t -> s = t.
Proof.
  induction data as [| b rest IH]; intros s t Hs Ht H; simpl in H;
    [exact H |].
  apply IH in H; try now apply crc_byte_range.
  now apply crc_byte_inj_state in H.
Qed.

(** The register never leaves 16 bits, so [to_bytes(2, 'little')] never
    overflows. *)
Lemma crc_register_range (data : list byte) : word16 (crc_register data).
Proof.
  unfold crc_register. apply fold_crc_range. unfold word16. lia.
Qed.

Lemma to_bytes_2_little_inj (n m : Z) :
  word16 n -> word16 m ->
  to_bytes_2_little n = to_bytes_2_little m -> n = m.
Proof.
  unfold word16, to_bytes_2_little. intros Hn Hm H.
  injection H as Hlo Hhi.
  apply (f_equal byte_to_Z) in Hlo, Hhi.
  pose proof (Z.mod_pos_bound n 256 ltac:(lia)).
  pose proof (Z.mod_pos_bound m 256 ltac:(lia)).
  assert (0 <= n / 256 < 256)
    by (split; [apply Z.div_pos; lia | apply Z.div_lt_upper_bound; lia]).
  assert (0 <= m / 256 < 256)
    by (split; [apply Z.div_pos; lia | apply Z.div_lt_upper_bound; lia]).
  rewrite !byte_of_to_Z in Hlo, Hhi by assumption.
  rewrite (Z.div_mod n 256), (Z.div_mod m 256) by lia.
  congruence.
Qed.

(** Replacing one payload byte by a different one changes the checksum. *)
Lemma modbus_crc_detects (pre post : list byte) (a b : byte) :
  a <> b -> modbus_crc (pre ++ a :: post) <> modbus_crc (pre ++ b :: post).
Proof.
  intros Hab H. unfold modbus_crc in H.
  apply to_bytes_2_little_inj in H; try apply crc_register_range.
  unfold crc_register in H. rewrite !fold_left_app in H. simpl in H.
  assert (Hs : word16 (fold_left crc_byte pre 65535))
    by (apply fold_crc_range; unfold word16; lia).
  apply fold_crc_inj in H; try now apply crc_byte_range.
  apply crc_byte_inj_byte in H; [contradiction | exact Hs].
Qed.

Lemma modbus_crc_length (data : list byte) : length (modbus_crc data) = 2%nat.
Proof. reflexivity. Qed.

Lemma bytes_eqb_eq (a b : list byte) : bytes_eqb a b = true <-> a = b.
Proof.
  unfold bytes_eqb. destruct (list_eq_dec Byte.byte_eq_dec a b); split;
    intros; congruence.
Qed.

Lemma split_frame (data tail : list byte) :
  length tail = 2%nat ->
  all_but_last2 (data ++ tail) = data /\ last2 (data ++ tail) = tail.
Proof.
  intros Htail. unfold all_but_last2, last2.
  rewrite length_app, Htail.
  replace (length data + 2 - 2)%nat with (length data + 0)%nat by lia.
  rewrite firstn_app_2, skipn_app.
  replace (length data + 0 - length data)%nat with 0%nat by lia.
  rewrite skipn_all2 by lia. simpl. rewrite app_nil_r. auto.
Qed.

Lemma set_byte_length (l : list byte) :
  forall i b, length (set_byte i b l) = length l.
Proof.
  induction l as [| h t IH]; intros [| i] b; simpl; auto.
Qed.

Lemma set_byte_app_l (l tail : list byte) :
  forall i b, (i < length l)%nat ->
  set_byte i b (l ++ tail) = set_byte i b l ++ tail.
Proof.
  induction l as [| h t IH]; intros [| i] b Hi; simpl in *; try lia; auto.
  rewrite IH by lia. reflexivity.
Qed.

Lemma set_byte_app_r (l tail : list byte) :
  forall i b, (length l <= i)%nat ->
  set_byte i b (l ++ tail) = l ++ set_byte (i - length l) b tail.
Proof.
  induction l as [| h t IH]; intros i b Hi; simpl in *.
  - now rewrite Nat.sub_0_r.
  - destruct i as [| i]; [lia |]. simpl. rewrite IH by lia. reflexivity.
Qed.

Lemma set_byte_split (l : list byte) :
  forall i b, (i < length l)%nat ->
  exists pre post,
    l = pre ++ nth i l x00 :: post /\ set_byte i b l = pre ++ b :: post.
Proof.
  induction l as [| h t IH]; intros [| i] b Hi; simpl in *; try lia.
  - exists [], t. auto.
  - destruct (IH i b ltac:(lia)) as [pre [post [E1 E2]]].
    exists (h :: pre), post. simpl. rewrite <- E1, E2. auto.
Qed.

Lemma set_byte_changes (l : list byte) :
  forall i b, (i < length l)%nat -> b <> nth i l x00 -> set_byte i b l <> l.
Proof.
  intros i b Hi Hb H.
  destruct (set_byte_split l i b Hi) as [pre [post [E1 E2]]].
  rewrite E2 in H. remember (nth i l x00) as x eqn:Ex.
  rewrite E1 in H.
  apply app_inv_head in H. injection H as H. contradiction.
Qed.

End CrcFacts.

(** [C8]: for every byte sequence [data], the frame [data ++ modbus_crc data]
    passes the checksum test of the client, and the same frame with the byte
    at any one position [i], of the payload or of the checksum, replaced by
    a different byte fails it. *)
Theorem checksum_round_trip_and_detection
        (data : list byte) (i : nat) (b : byte) :
  (i < length (Crc.append_crc data))%nat ->
  b <> nth i (Crc.append_crc data) x00 ->
  Crc.crc_valid (Crc.append_crc data) = true
  /\ Crc.crc_valid (Crc.set_byte i b (Crc.append_crc data)) = false.
Proof.
  intros Hi Hb. unfold Crc.append_crc in *. split.
  - unfold Crc.crc_valid.
    destruct (split_frame data (Crc.modbus_crc data) eq_refl) as [-> ->].
    now apply bytes_eqb_eq.
  - destruct (Crc.crc_valid _) eqn:E; [exfalso | reflexivity].
    unfold Crc.crc_valid in E. apply bytes_eqb_eq in E.
    destruct (Nat.lt_ge_cases i (length data)) as [Hlt | Hge].
    + rewrite set_byte_app_l in E by exact Hlt.
      destruct (split_frame (Crc.set_byte i b data) (Crc.modbus_crc data)
                  eq_refl) as [E1 E2].
      rewrite E1, E2 in E.
      rewrite app_nth1 in Hb by exact Hlt.
      destruct (set_byte_split data i b Hlt) as [pre [post [D1 D2]]].
      rewrite D2 in E. remember (nth i data x00) as a eqn:Ea.
      rewrite D1 in E.
      apply (modbus_crc_detects pre post b a Hb E).
    + rewrite set_byte_app_r in E by exact Hge.
      rewrite length_app, modbus_crc_length in Hi.
      rewrite app_nth2 in Hb by lia.
      set (tail := Crc.set_byte (i - length data) b (Crc.modbus_crc data)) in *.
      assert (Htail : length tail = 2%nat)
        by (unfold tail; now rewrite set_byte_length).
      destruct (split_frame data tail Htail) as [E1 E2].
      rewrite E1, E2 in E.
      apply (set_byte_changes (Crc.modbus_crc data) (i - length data) b).
      * rewrite modbus_crc_length. lia.
      * exact Hb.
      * symmetry. exact E.
Qed.

Lemma checksum_round_trip_and_detection_witness :
  let data := [x01; x03; x00; x00; x00; x18] in
  Crc.crc_valid (Crc.append_crc data) = true
  /\ Crc.crc_valid (Crc.set_byte 2 x40 (Crc.append_crc data)) = false.
Proof.
  apply (checksum_round_trip_and_detection
           [x01; x03; x00; x00; x00; x18] 2 x40).
  - vm_compute. lia.
  - vm_compute. discriminate.
Defined.

(** The same frame with its first checksum byte replaced. *)
Example corrupted_checksum_byte :
  Crc.crc_valid [x01; x03; x00; x00; x00; x18; x44; xc0] = false.
Proof. vm_compute. reflexivity. Qed.

(** ** The poll cycle: how a completed pass decomposes *)

Lemma bind_some {A B : Type} (m : exn A) (k : A -> exn B) (b : B) :
  bind m k = Some b -> exists a, m = Some a /\ k a = Some b.
Proof.
  destruct m as [a |]; simpl; intros H; [exists a; auto | discriminate].
Qed.

Ltac bind_inv H :=
  let a := fresh "v" in
  let E := fresh "E" in
  apply bind_some in H; destruct H as [a [E H]].

Section CycleFacts.
Variable s : settings.

Lemma poll_cycle_stages (e : Poll.cycle_env) (st : state) (p : Poll.pass) :
  Poll.poll_cycle s e st = Some p -> stages s e st p.
Proof.
  unfold Poll.poll_cycle. intros H.
  bind_inv H. destruct v as [slave_alerts raw]. rename E into Eread.
  bind_inv H. rename v into c0, E into Ecal.
  bind_inv H. rename v into cal, E into Ecalibrated.
  bind_inv H. rename v into sa, E into Estatic.
  bind_inv H. rename v into da, E into Edynamic.
  destruct (Poll.cabinet_check s (Poll.overall_median_of cal) da)
    as [ta fan] eqn:Ecab.
  bind_inv H. rename v into volts, E into Evolts.
  destruct (Issues.check_for_issues s _ (map Some volts) ta)
    as [[needed all] alarm] eqn:Eissues.
  bind_inv H. clear v E.
  bind_inv H. destruct v as [[stb bw] bal]. rename E into Ebal.
  bind_inv H. clear v E.
  injection H as <-.
  eapply (@Stages s e st _ slave_alerts raw c0 cal sa da ta fan volts needed
            all alarm stb bw);
    first [eassumption | reflexivity].
Qed.

End CycleFacts.

(** ** Balance controller *)

Section BalanceFacts.
Variable s : settings.

Lemma Qltb_lt (a b : Q) : Qltb a b = true <-> a < b.
Proof.
  unfold Qltb. rewrite negb_true_iff.
  split; intros H.
  - apply Qnot_le_lt. intros Hle. apply Qle_bool_iff in Hle. congruence.
  - destruct (Qle_bool b a) eqn:E; [| reflexivity].
    apply Qle_bool_iff in E. exfalso. apply (Qlt_not_le _ _ H E).
Qed.

Lemma Qgtb_gt (a b : Q) : Qgtb a b = true <-> b < a.
Proof. unfold Qgtb. apply (Qltb_lt b a). Qed.

Lemma Qgeb_ge (a b : Q) : Qgeb a b = true <-> b <= a.
Proof. unfold Qgeb. apply Qle_bool_iff. Qed.

(** The failure test is the negation of the four-part predicate. *)
Lemma no_change_detected_false (high_change low_change min_delta : Q) :
  Balance.no_change_detected high_change low_change min_delta = false <->
  high_change < 0 /\ 0 < low_change
  /\ min_delta <= Qabs high_change /\ min_delta <= low_change.
Proof.
  unfold Balance.no_change_detected.
  rewrite !orb_false_iff.
  split.
  - intros [[[H1 H2] H3] H4]. repeat split.
    + apply Qnot_le_lt. intros Hle. apply Qgeb_ge in Hle. congruence.
    + apply Qnot_le_lt. intros Hle. apply Qle_bool_iff in Hle. congruence.
    + apply Qnot_lt_le. intros Hlt. apply Qltb_lt in Hlt. congruence.
    + apply Qnot_lt_le. intros Hlt. apply Qltb_lt in Hlt. congruence.
  - intros [H1 [H2 [H3 H4]]]. repeat split.
    + destruct (Qgeb high_change 0) eqn:E; [| reflexivity].
      apply Qgeb_ge in E. exfalso. apply (Qlt_not_le _ _ H1 E).
    + destruct (Qle_bool low_change 0) eqn:E; [| reflexivity].
      apply Qle_bool_iff in E. exfalso. apply (Qlt_not_le _ _ H2 E).
    + destruct (Qltb (Qabs high_change) min_delta) eqn:E; [| reflexivity].
      apply Qltb_lt in E. exfalso. apply (Qlt_not_le _ _ E H3).
    + destruct (Qltb low_change min_delta) eqn:E; [| reflexivity].
      apply Qltb_lt in E. exfalso. apply (Qlt_not_le _ _ E H4).
Qed.

(** With three readings or more in both trends the verdict is [Verified]
    exactly when the source fell, the destination rose, and both moved by
    [min_delta] at least; otherwise it is [Failed]. *)
Lemma verify_with_enough_readings
      (high_trend low_trend : list Q)
      (initial_high_v initial_low_v final_high_v final_low_v min_delta : Q) :
  (3 <= length high_trend)%nat -> (3 <= length low_trend)%nat ->
  let source_change := final_high_v - initial_high_v in
  let dest_change := final_low_v - initial_low_v in
  (Balance.verify high_trend low_trend (Some initial_high_v)
     (Some initial_low_v) final_high_v final_low_v min_delta
   = Some Balance.Verified
   <-> source_change < 0 /\ 0 < dest_change
       /\ min_delta <= Qabs source_change /\ min_delta <= dest_change)
  /\ (Balance.verify high_trend low_trend (Some initial_high_v)
        (Some initial_low_v) final_high_v final_low_v min_delta
      = Some Balance.Verified
      \/ Balance.verify high_trend low_trend (Some initial_high_v)
           (Some initial_low_v) final_high_v final_low_v min_delta
         = Some (Balance.Failed source_change dest_change)).
Proof.
  intros Hh Hl source_change dest_change. unfold Balance.verify.
  apply Nat.leb_le in Hh, Hl. rewrite Hh, Hl. cbn [andb bind].
  fold source_change dest_change.
  rewrite <- no_change_detected_false.
  destruct (Balance.no_change_detected source_change dest_change min_delta);
    split; auto; split; intros H; congruence.
Qed.

Lemma balance_skips_on_alerts (r : Balance.rig) (st : state)
      (high low : nat) (temps_alerts : list alert) (is_heating : bool) :
  temps_alerts <> [] ->
  Balance.balance_battery_voltages s r st high low temps_alerts is_heating
  = Some (Balance.mkResult st temps_alerts []
                           Balance.SkippedTemperatureAlerts).
Proof.
  intros Hne. unfold Balance.balance_battery_voltages.
  destruct temps_alerts; [contradiction | reflexivity].
Qed.

(** The latch after a run is the latch before it, or a failed verdict;
    a failed verdict also appends its alert. *)
Lemma balance_latch (r : Balance.rig) (st : state) (high low : nat)
      (temps_alerts : list alert) (is_heating : bool) (res : Balance.result) :
  Balance.balance_battery_voltages s r st high low temps_alerts is_heating
  = Some res ->
  balancer_failed (Balance.state_after res)
  = balancer_failed st || failed_ending (Balance.how res)
  /\ (forall high_change low_change,
        Balance.how res
        = Balance.Completed (Balance.Failed high_change low_change) ->
        Balance.temps_alerts_after res
        = temps_alerts
            ++ [BalancingFailed high low high_change low_change])
  /\ (failed_ending (Balance.how res) = false ->
      Balance.temps_alerts_after res = temps_alerts).
Proof.
  unfold Balance.balance_battery_voltages. intros H.
  destruct temps_alerts as [| a rest].
  - bind_inv H. bind_inv H.
    destruct (Balance.is_zero v0).
    + injection H as <-. cbn. rewrite orb_false_r. repeat split; auto.
      intros; discriminate.
    + bind_inv H. destruct v1 as [[[vh vl] ht] lt].
      bind_inv H. bind_inv H. bind_inv H.
      destruct v3 as [| hc lc |]; injection H as <-; cbn;
        rewrite ?orb_false_r, ?orb_true_r; repeat split; auto;
        try (intros; discriminate).
      intros hc' lc' Heq. injection Heq as <- <-. reflexivity.
  - injection H as <-. cbn. rewrite orb_false_r. repeat split; auto.
    intros; discriminate.
Qed.

Lemma balance_decision_latch (e : Poll.cycle_env) (st st' : state)
      (battery_voltages : list Q) (calibrated_temps : list (option Q))
      (temps_alerts : list alert) (alert_needed : bool)
      (w : list actuation) (b : option Balance.ending) :
  Poll.balance_decision s e st battery_voltages calibrated_temps
                        temps_alerts alert_needed = Some (st', w, b) ->
  balancer_failed st' = balancer_failed st || failed_balance b.
Proof.
  unfold Poll.balance_decision. intros H.
  destruct (_ && negb (balancer_failed st)).
  - destruct battery_voltages as [| first rest]; [discriminate |].
    destruct (balancing_active st || _).
    + bind_inv H. injection H as <- <- <-.
      apply balance_latch in E. destruct E as [E _]. cbn. exact E.
    + injection H as <- <- <-. cbn. now rewrite orb_false_r.
  - injection H as <- <- <-. cbn. now rewrite orb_false_r.
Qed.

Lemma balance_decision_latched (e : Poll.cycle_env) (st : state)
      (battery_voltages : list Q) (calibrated_temps : list (option Q))
      (temps_alerts : list alert) (alert_needed : bool) :
  balancer_failed st = true ->
  Poll.balance_decision s e st battery_voltages calibrated_temps
                        temps_alerts alert_needed = Some (st, [], None).
Proof.
  intros H. unfold Poll.balance_decision. rewrite H.
  now rewrite andb_false_r.
Qed.

Lemma balance_decision_guarded (e : Poll.cycle_env) (st st' : state)
      (battery_voltages : list Q) (calibrated_temps : list (option Q))
      (temps_alerts : list alert) (alert_needed : bool)
      (w : list actuation) (b : option Balance.ending) :
  temps_alerts <> [] ->
  Poll.balance_decision s e st battery_voltages calibrated_temps
                        temps_alerts alert_needed = Some (st', w, b) ->
  w = []
  /\ (b = None \/ b = Some Balance.SkippedTemperatureAlerts).
Proof.
  unfold Poll.balance_decision. intros Hne H.
  destruct (_ && negb (balancer_failed st)).
  - destruct battery_voltages as [| first rest]; [discriminate |].
    destruct (balancing_active st || _).
    + rewrite balance_skips_on_alerts in H by exact Hne.
      cbn in H. injection H as <- <- <-. auto.
    + injection H as <- <- <-. auto.
  - injection H as <- <- <-. auto.
Qed.

Lemma api_balance_latch (st : state) :
  balancer_failed (Poll.api_balance s st) = balancer_failed st.
Proof.
  unfold Poll.api_balance.
  destruct (balancing_active st); [reflexivity |].
  destruct (negb _); [reflexivity |].
  destruct (_ <? 2)%nat; [reflexivity |].
  destruct (voltages (web_data st)); [reflexivity |].
  destruct (Qltb _ _); reflexivity.
Qed.

(** The latch across one pass. *)
Lemma poll_cycle_latch (e : Poll.cycle_env) (st : state) (p : Poll.pass) :
  Poll.poll_cycle s e st = Some p ->
  balancer_failed (Poll.state_after p)
  = balancer_failed st || failed_balance (Poll.balance p).
Proof.
  intros H. destruct (poll_cycle_stages s e st p H).
  rewrite stage_state. cbn.
  apply balance_decision_latch in stage_balance.
  exact stage_balance.
Qed.

Lemma step_latch (ev : Poll.event) (st st' : state) :
  Poll.step s ev st = Some st' ->
  balancer_failed st = true -> balancer_failed st' = true.
Proof.
  destruct ev as [e |]; cbn; intros H Hset.
  - bind_inv H. injection H as <-.
    rewrite (poll_cycle_latch e st v E), Hset. reflexivity.
  - injection H as <-. now rewrite api_balance_latch.
Qed.

Lemma run_latch (evs : list Poll.event) :
  forall st st', Poll.run s evs st = Some st' ->
  balancer_failed st = true -> balancer_failed st' = true.
Proof.
  unfold Poll.run.
  induction evs as [| ev rest IH]; cbn; intros st st' H Hset.
  - now injection H as <-.
  - bind_inv H. apply (IH v st' H). apply (step_latch ev st v E Hset).
Qed.

End BalanceFacts.

(** The two worked examples of the verification, with three readings per
    bank: 20.50 V -> 20.30 V on the source and 19.00 V -> 19.15 V on the
    destination is verified with [min_delta = 0.01]; no movement fails. *)
Example verification_examples :
  Balance.verify [20.5; 20.4; 20.3] [19; 19.05; 19.15]
                 (Some 20.5) (Some 19) 20.3 19.15 0.01
  = Some Balance.Verified
  /\ Balance.verify [20.5; 20.5; 20.5] [19; 19; 19]
                    (Some 20.5) (Some 19) 20.5 19 0.01
     = Some (Balance.Failed (20.5 - 20.5) (19 - 19)).
Proof. split; reflexivity. Qed.

(** [C1], at the input where the code departs from it: a balancing run whose
    timed loop made no periodic read ends with two readings per bank; the
    voltages did not move (20.5 V and 19 V before and after), yet the run
    ends with the verdict "insufficient readings", leaves [balancer_failed]
    unset and appends no alert. The start-up balance test sets the latch on
    the same readings. *)
Theorem two_readings_are_not_latched :
  let s := Demo.installation 1 in
  exists res,
    Balance.balance_battery_voltages s (Demo.idle_rig 0) (Demo.fresh s)
                                     1 2 [] false = Some res
    /\ Balance.how res = Balance.Completed Balance.InsufficientReadings
    /\ balancer_failed (Balance.state_after res) = false
    /\ Balance.temps_alerts_after res = []
    /\ Balance.startup_analysis [20.5; 20.5] 20.5 19 20.5 19
                                (min_voltage_delta s) = true.
Proof.
  cbv zeta. eexists. split; [vm_compute; reflexivity |].
  repeat split; reflexivity.
Qed.

(** With one periodic read the same run has three readings per bank, fails
    the verification, sets the latch and appends the alert. *)
Example three_readings_are_latched :
  let s := Demo.installation 1 in
  exists res high_change low_change,
    Balance.balance_battery_voltages s (Demo.idle_rig 1) (Demo.fresh s)
                                     1 2 [] false = Some res
    /\ Balance.how res
       = Balance.Completed (Balance.Failed high_change low_change)
    /\ balancer_failed (Balance.state_after res) = true
    /\ Balance.temps_alerts_after res
       = [BalancingFailed 1 2 high_change low_change].
Proof.
  cbv zeta. eexists. eexists. eexists.
  split; [vm_compute; reflexivity |].
  repeat split; reflexivity.
Qed.

(** [C2]: at any moment of the process (after any events [before]) and for
    any next event: the latch goes from unset to set only in a poll cycle
    whose balancing run failed its verification; and once the latch is set
    it is still set at that moment and after the event, and a poll cycle
    then makes no call of the balancer, writes to no relay line and not to
    the converter, reports the balancer-failure alert and needs attention. *)
Theorem latch_invariant (s : settings) (before : list Poll.event)
        (ev : Poll.event) (st0 st st' : state) :
  Poll.run s before st0 = Some st ->
  Poll.step s ev st = Some st' ->
  (balancer_failed st = false -> balancer_failed st' = true ->
   exists e p high_change low_change,
     ev = Poll.PollCycle e /\ Poll.poll_cycle s e st = Some p
     /\ Poll.balance p
        = Some (Balance.Completed (Balance.Failed high_change low_change)))
  /\ (balancer_failed st0 = true ->
      balancer_failed st = true /\ balancer_failed st' = true
      /\ forall e p,
           ev = Poll.PollCycle e -> Poll.poll_cycle s e st = Some p ->
           Poll.balance p = None
           /\ Forall (fun a => touches_balancer a = false) (Poll.writes p)
           /\ In BalancerHardwareFailure (Poll.all_alerts p)
           /\ Poll.alert_needed p = true).
Proof.
  intros Hrun Hstep. split.
  - intros Hclear Hset. destruct ev as [e |]; cbn in Hstep.
    + bind_inv Hstep. injection Hstep as <-.
      rewrite (poll_cycle_latch s e st v E), Hclear in Hset. cbn in Hset.
      destruct (Poll.balance v) as [[| | [| hc lc |]] |] eqn:Eb;
        try discriminate.
      exists e, v, hc, lc. auto.
    + injection Hstep as <-. rewrite api_balance_latch in Hset. congruence.
  - intros Hset0.
    assert (Hset : balancer_failed st = true)
      by (apply (run_latch s before st0 st Hrun Hset0)).
    split; [exact Hset |]. split; [apply (step_latch s ev st st' Hstep Hset) |].
    intros e p _ Hp. destruct (poll_cycle_stages s e st p Hp).
    assert (Hm : balancer_failed (measured s st c calibrated_temps) = true)
      by exact Hset.
    rewrite (balance_decision_latched s e _ battery_voltages calibrated_temps
               temps_alerts alert_needed Hm) in stage_balance.
    injection stage_balance as <- <- Hbal.
    unfold Issues.check_for_issues in stage_issues. rewrite Hm in stage_issues.
    rewrite orb_true_r in stage_issues. cbn [orb] in stage_issues.
    injection stage_issues as <- <- <-.
    unfold cabinet_of, Poll.cabinet_check in stage_cabinet.
    repeat split.
    + symmetry. exact Hbal.
    + rewrite stage_writes.
      destruct (Qgtb _ _); injection stage_cabinet as <- <-;
        repeat constructor.
    + rewrite stage_all. apply in_or_app. right. now left.
    + exact stage_needed.
Qed.

Lemma latch_invariant_witness :
  let s := Demo.installation 1 in
  let latched := Demo.after_pass s (Demo.warm_poll 1) (Demo.fresh s) in
  balancer_failed latched = true
  /\ balancer_failed
       (Demo.after_pass s (Demo.warm_poll 1) (Poll.api_balance s latched))
     = true.
Proof.
  cbv zeta.
  set (s := Demo.installation 1).
  set (latched := Demo.after_pass s (Demo.warm_poll 1) (Demo.fresh s)).
  set (next := Demo.after_pass s (Demo.warm_poll 1) (Poll.api_balance s latched)).
  assert (Hrun : Poll.run s [Poll.ManualTrigger] latched
                 = Some (Poll.api_balance s latched)) by reflexivity.
  assert (Hstep : Poll.step s (Poll.PollCycle (Demo.warm_poll 1))
                            (Poll.api_balance s latched) = Some next)
    by (vm_compute; reflexivity).
  assert (Hset : balancer_failed latched = true) by (vm_compute; reflexivity).
  destruct (latch_invariant s [Poll.ManualTrigger]
              (Poll.PollCycle (Demo.warm_poll 1)) latched
              (Poll.api_balance s latched) next Hrun Hstep) as [_ H].
  destruct (H Hset) as [_ [Hnext _]].
  split; [exact Hset | exact Hnext].
Defined.

(** [C3]: in every poll cycle whose temperature alert list is not empty at
    the balance decision, whatever the voltages and whether or not a manual
    request is pending, [balance_battery_voltages] called with that list
    returns at once, leaving the state as it was, and the cycle writes to no
    relay line and not to the converter. *)
Theorem temperature_alert_guard (s : settings) (e : Poll.cycle_env)
        (st : state) (p : Poll.pass) :
  Poll.poll_cycle s e st = Some p ->
  Poll.temps_alerts_found p <> [] ->
  (forall st_call high low is_heating,
     Balance.balance_battery_voltages s (Poll.balance_rig e) st_call high low
       (Poll.temps_alerts_found p) is_heating
     = Some (Balance.mkResult st_call (Poll.temps_alerts_found p) []
                              Balance.SkippedTemperatureAlerts))
  /\ (Poll.balance p = None
      \/ Poll.balance p = Some Balance.SkippedTemperatureAlerts)
  /\ Forall (fun a => touches_balancer a = false) (Poll.writes p).
Proof.
  intros Hp Hne. split; [| split].
  - intros st_call high low is_heating.
    now apply balance_skips_on_alerts.
  - destruct (poll_cycle_stages s e st p Hp).
    rewrite stage_alerts in Hne.
    destruct (balance_decision_guarded s e _ _ _ _ _ _ _ _ Hne stage_balance)
      as [_ Hb]. exact Hb.
  - destruct (poll_cycle_stages s e st p Hp).
    rewrite stage_alerts in Hne.
    destruct (balance_decision_guarded s e _ _ _ _ _ _ _ _ Hne stage_balance)
      as [-> _].
    unfold Issues.check_for_issues in stage_issues.
    injection stage_issues as _ _ <-.
    unfold cabinet_of, Poll.cabinet_check in stage_cabinet.
    rewrite stage_writes.
    destruct (Qgtb _ _); injection stage_cabinet as _ <-;
      repeat constructor.
Qed.

Lemma temperature_alert_guard_witness :
  let s := Demo.installation 2 in
  exists p,
    Poll.poll_cycle s Demo.second_slave_silent (Demo.triggered s) = Some p
    /\ Poll.temps_alerts_found p <> []
    /\ Poll.balance p = Some Balance.SkippedTemperatureAlerts
    /\ Forall (fun a => touches_balancer a = false) (Poll.writes p).
Proof.
  cbv zeta. eexists.
  split; [vm_compute; reflexivity |].
  split; [vm_compute; discriminate |].
  split; [vm_compute; reflexivity |].
  refine (proj2 (proj2 (temperature_alert_guard (Demo.installation 2)
            Demo.second_slave_silent (Demo.triggered (Demo.installation 2))
            _ _ _))).
  - vm_compute. reflexivity.
  - vm_compute. discriminate.
Defined.

(** ** Lists built by loops that can raise *)

Lemma map_exn_nth {A B : Type} (f : A -> exn B) (l : list A) :
  forall r, map_exn f l = Some r ->
  length r = length l
  /\ forall i x, nth_error l i = Some x ->
       exists y, f x = Some y /\ nth_error r i = Some y.
Proof.
  induction l as [| a rest IH]; cbn; intros r H.
  - injection H as <-. split; [reflexivity |].
    intros [| i] x Hx; discriminate.
  - bind_inv H. bind_inv H. injection H as <-.
    destruct (IH v0 E0) as [Hlen Hnth]. split; [cbn; now rewrite Hlen |].
    intros [| i] x Hx; cbn in *.
    + injection Hx as <-. exists v. auto.
    + apply Hnth, Hx.
Qed.

Lemma nth_error_seq (start len i : nat) :
  (i < len)%nat -> nth_error (seq start len) i = Some (start + i)%nat.
Proof.
  revert start i. induction len as [| len IH]; intros start i Hi; [lia |].
  destruct i as [| i]; cbn.
  - now rewrite Nat.add_0_r.
  - rewrite IH by lia. f_equal. lia.
Qed.

(** A loop whose body only appends alerts of some kind only appends alerts
    of that kind. *)
Lemma fold_exn_appends {B : Type} (f : list alert -> B -> exn (list alert))
      (P : alert -> Prop) (l : list B) :
  (forall a x a', In x l -> f a x = Some a' ->
     exists suffix, a' = a ++ suffix /\ Forall P suffix) ->
  forall a a', fold_exn f l a = Some a' ->
  exists suffix, a' = a ++ suffix /\ Forall P suffix.
Proof.
  induction l as [| x rest IH]; cbn; intros Hstep a a' H.
  - injection H as <-. exists []. now rewrite app_nil_r.
  - bind_inv H.
    destruct (Hstep a x v (or_introl eq_refl) E) as [s1 [-> F1]].
    destruct (IH (fun a x a' Hin => Hstep a x a' (or_intror Hin)) _ _ H)
      as [s2 [-> F2]].
    exists (s1 ++ s2). split; [now rewrite app_assoc |].
    apply Forall_app. auto.
Qed.

(** An alert that the body appends for one item of the loop is in the final
    list. *)
Lemma fold_exn_keeps {B : Type} (f : list alert -> B -> exn (list alert))
      (l1 l2 : list B) (x : B) (y : alert) :
  (forall a x' a', f a x' = Some a' -> exists suffix, a' = a ++ suffix) ->
  (forall a a', f a x = Some a' -> In y a') ->
  forall a a', fold_exn f (l1 ++ x :: l2) a = Some a' -> In y a'.
Proof.
  intros Hmono Hadds.
  assert (Hrest : forall l a a', In y a -> fold_exn f l a = Some a' -> In y a').
  { induction l as [| z rest IH]; cbn; intros a a' Hin H.
    - now injection H as <-.
    - bind_inv H. apply (IH v a'); [| exact H].
      destruct (Hmono a z v E) as [suffix ->]. apply in_or_app. now left. }
  induction l1 as [| z rest IH]; cbn; intros a a' H.
  - bind_inv H. apply (Hrest l2 v a'); [| exact H]. apply (Hadds a v E).
  - bind_inv H. apply (IH v a' H).
Qed.

Lemma count_all (p : Q -> bool) (l : list Q) :
  Forall (fun t => p t = true) l -> Stats.count p l = length l.
Proof.
  unfold Stats.count. induction 1 as [| x l Hx _ IH]; cbn; [reflexivity |].
  rewrite Hx. cbn. now rewrite IH.
Qed.

Lemma count_le (p : Q -> bool) (l : list Q) :
  (Stats.count p l <= length l)%nat.
Proof. unfold Stats.count. apply filter_length_le. Qed.

Lemma count_some_fails (p : Q -> bool) (l : list Q) (i : nat) (x : Q) :
  nth_error l i = Some x -> p x = false -> (Stats.count p l < length l)%nat.
Proof.
  unfold Stats.count. revert i.
  induction l as [| y rest IH]; intros [| i] Hn Hp; cbn in *; try discriminate.
  - injection Hn as ->. rewrite Hp.
    pose proof (filter_length_le p rest). lia.
  - specialize (IH i Hn Hp). destruct (p y); cbn; lia.
Qed.

(** ** Calibration *)

Section CalibrationFacts.
Variable s : settings.

Lemma is_valid_gt (t : Q) : Poll.is_valid s t = true <-> valid_min s < t.
Proof. unfold Poll.is_valid. apply Qgtb_gt. Qed.

Lemma balance_calib (r : Balance.rig) (st : state) (high low : nat)
      (temps_alerts : list alert) (is_heating : bool) (res : Balance.result) :
  Balance.balance_battery_voltages s r st high low temps_alerts is_heating
  = Some res ->
  calib (Balance.state_after res) = calib st.
Proof.
  unfold Balance.balance_battery_voltages. intros H.
  destruct temps_alerts as [| a rest].
  - bind_inv H. bind_inv H.
    destruct (Balance.is_zero v0).
    + now injection H as <-.
    + bind_inv H. destruct v1 as [[[vh vl] ht] lt].
      bind_inv H. bind_inv H. bind_inv H.
      destruct v3; now injection H as <-.
  - now injection H as <-.
Qed.

Lemma balance_decision_calib (e : Poll.cycle_env) (st st' : state)
      (battery_voltages : list Q) (calibrated_temps : list (option Q))
      (temps_alerts : list alert) (alert_needed : bool)
      (w : list actuation) (b : option Balance.ending) :
  Poll.balance_decision s e st battery_voltages calibrated_temps
                        temps_alerts alert_needed = Some (st', w, b) ->
  calib st' = calib st.
Proof.
  unfold Poll.balance_decision. intros H.
  destruct (_ && negb (balancer_failed st)).
  - destruct battery_voltages as [| first rest]; [discriminate |].
    destruct (balancing_active st || _).
    + bind_inv H. injection H as <- <- <-.
      apply balance_calib in E. exact E.
    + now injection H as <- <- <-.
  - now injection H as <- <- <-.
Qed.

Lemma poll_cycle_raw (e : Poll.cycle_env) (st : state) (p : Poll.pass) :
  Poll.poll_cycle s e st = Some p ->
  Poll.raw_temps_read p = Poll.raw_temps_of s e.
Proof.
  intros H. destruct (poll_cycle_stages s e st p H).
  unfold Poll.raw_temps_of. now rewrite stage_read, stage_raw.
Qed.

(** The calibration globals after a pass are those the calibration block
    computed, whatever the rest of the pass did. *)
Lemma poll_cycle_calib (e : Poll.cycle_env) (st : state) (p : Poll.pass) :
  Poll.poll_cycle s e st = Some p ->
  Poll.calibrate s (Poll.raw_temps_read p) (calib st)
  = Some (calib (Poll.state_after p)).
Proof.
  intros H. destruct (poll_cycle_stages s e st p H).
  rewrite stage_raw, stage_calibrate, stage_state. cbn.
  apply balance_decision_calib in stage_balance.
  rewrite stage_balance. reflexivity.
Qed.

Lemma calibrate_fires (raw_temps : list Q) (c c' : calibration) :
  startup_set c = false ->
  Stats.count (Poll.is_valid s) raw_temps = Poll.total_channels s ->
  Poll.calibrate s raw_temps c = Some c' ->
  exists m, Stats.median raw_temps = Some m
            /\ c' = mkCalibration true (Some m)
                      (Some (map (fun t => m - t) raw_temps)).
Proof.
  unfold Poll.calibrate. intros Hunset Hcount H.
  rewrite Hunset, Hcount, Nat.eqb_refl in H. cbn [negb andb] in H.
  bind_inv H. bind_inv E. injection E as <-. cbn in H.
  injection H as <-. exists v0. auto.
Qed.

Lemma calibrate_idle (raw_temps : list Q) (c c' : calibration) :
  startup_set c = false ->
  Stats.count (Poll.is_valid s) raw_temps <> Poll.total_channels s ->
  Poll.calibrate s raw_temps c = Some c' -> c' = c.
Proof.
  unfold Poll.calibrate. intros Hunset Hcount H.
  apply Nat.eqb_neq in Hcount. rewrite Hunset, Hcount in H.
  cbn in H. rewrite Hunset in H. cbn in H. now injection H as <-.
Qed.

Lemma calibrate_kept (raw_temps : list Q) (c c' : calibration)
      (offsets : list Q) :
  startup_set c = true -> startup_offsets c = Some offsets ->
  Poll.calibrate s raw_temps c = Some c' -> c' = c.
Proof.
  unfold Poll.calibrate. intros Hset Hoff H.
  rewrite Hset in H. cbn in H. rewrite Hset, Hoff in H. cbn in H.
  now injection H as <-.
Qed.

Lemma api_balance_calib (st : state) :
  calib (Poll.api_balance s st) = calib st.
Proof.
  unfold Poll.api_balance.
  destruct (balancing_active st); [reflexivity |].
  destruct (negb _); [reflexivity |].
  destruct (_ <? 2)%nat; [reflexivity |].
  destruct (voltages (web_data st)); [reflexivity |].
  destruct (Qltb _ _); reflexivity.
Qed.

(** Once set with its offsets, the calibration is never computed again. *)
Lemma run_keeps_calibration (evs : list Poll.event) :
  forall st st' offsets,
    startup_set (calib st) = true ->
    startup_offsets (calib st) = Some offsets ->
    Poll.run s evs st = Some st' -> calib st' = calib st.
Proof.
  unfold Poll.run.
  induction evs as [| ev rest IH]; cbn; intros st st' offsets Hset Hoff H.
  - now injection H as <-.
  - bind_inv H.
    assert (Hv : calib v = calib st).
    { destruct ev as [e |]; cbn in E.
      - bind_inv E. injection E as <-.
        pose proof (poll_cycle_calib e st v0 E0) as Hc.
        apply (calibrate_kept _ _ _ offsets Hset Hoff Hc).
      - injection E as <-. apply api_balance_calib. }
    rewrite <- Hv. apply (IH v st' offsets); rewrite ?Hv; auto.
Qed.

(** Without a fully valid poll the calibration stays as it was. *)
Lemma run_without_valid_poll (evs : list Poll.event) :
  (forall e, In (Poll.PollCycle e) evs -> Poll.fully_valid s e = false) ->
  forall st st',
    startup_set (calib st) = false ->
    Poll.run s evs st = Some st' -> calib st' = calib st.
Proof.
  unfold Poll.run.
  induction evs as [| ev rest IH]; cbn; intros Hno st st' Hunset H.
  - now injection H as <-.
  - bind_inv H.
    assert (Hv : calib v = calib st).
    { destruct ev as [e |]; cbn in E.
      - bind_inv E. injection E as <-.
        pose proof (poll_cycle_calib e st v0 E0) as Hc.
        apply (calibrate_idle _ _ _ Hunset) in Hc; [exact Hc |].
        rewrite (poll_cycle_raw e st v0 E0).
        specialize (Hno e (or_introl eq_refl)).
        unfold Poll.fully_valid in Hno. now apply Nat.eqb_neq in Hno.
      - injection E as <-. apply api_balance_calib. }
    rewrite <- Hv. apply IH; rewrite ?Hv; auto.
Qed.

(** The calibrated value of a valid channel under a calibration that is
    set. *)
Lemma calibrated_at_set (m : Q) (raw_temps : list Q) (i : nat) (raw : Q) :
  nth_error raw_temps i = Some raw -> valid_min s < raw ->
  Poll.calibrated_at s
    (mkCalibration true (Some m) (Some (map (fun t => m - t) raw_temps)))
    raw_temps i
  = Some (Some (raw + (m - raw))).
Proof.
  intros Hn Hv. unfold Poll.calibrated_at. rewrite Hn. cbn.
  apply is_valid_gt in Hv. rewrite Hv. cbn.
  rewrite nth_error_map, Hn. reflexivity.
Qed.

End CalibrationFacts.

(** [C4]: starting uncalibrated, with no fully valid poll among the earlier
    events, the calibration is still unset when a poll arrives in which
    every channel is above [valid_min]; that poll sets the offsets to
    [median - raw] for every channel and publishes for every channel the
    sum [raw + (median - raw)] of the reading and its offset; and whatever
    polls and manual triggers follow, fully valid or not, the calibration
    never changes again. The sum is the median in exact arithmetic; in the
    binary64 arithmetic of the interpreter it is the median up to the
    rounding of the two operations. *)
Theorem calibration_one_shot (s : settings) (before later : list Poll.event)
        (e : Poll.cycle_env) (st0 st st_end : state) (p : Poll.pass) :
  startup_set (calib st0) = false ->
  (forall e', In (Poll.PollCycle e') before -> Poll.fully_valid s e' = false) ->
  Poll.run s before st0 = Some st ->
  Poll.poll_cycle s e st = Some p ->
  length (Poll.raw_temps_read p) = Poll.total_channels s ->
  Forall (fun t => valid_min s < t) (Poll.raw_temps_read p) ->
  Poll.run s later (Poll.state_after p) = Some st_end ->
  startup_set (calib st) = false
  /\ exists m,
       Stats.median (Poll.raw_temps_read p) = Some m
       /\ calib (Poll.state_after p)
          = mkCalibration true (Some m)
              (Some (map (fun t => m - t) (Poll.raw_temps_read p)))
       /\ (forall i raw,
             nth_error (Poll.raw_temps_read p) i = Some raw ->
             nth_error (temperatures (web_data (Poll.state_after p))) i
             = Some (Some (raw + (m - raw))))
       /\ calib st_end = calib (Poll.state_after p).
Proof.
  intros Hunset0 Hbefore Hrun Hp Hlen Hvalid Hlater.
  assert (Hst : calib st = calib st0)
    by (apply (run_without_valid_poll s before Hbefore st0 st Hunset0 Hrun)).
  assert (Hunset : startup_set (calib st) = false) by (now rewrite Hst).
  split; [exact Hunset |].
  pose proof (poll_cycle_calib s e st p Hp) as Hc.
  assert (Hcount : Stats.count (Poll.is_valid s) (Poll.raw_temps_read p)
                   = Poll.total_channels s).
  { rewrite <- Hlen. apply count_all.
    eapply Forall_impl; [| exact Hvalid]. intros t Ht. now apply is_valid_gt. }
  destruct (calibrate_fires s _ _ _ Hunset Hcount Hc) as [m [Hm Hcal]].
  exists m. split; [exact Hm |]. split; [exact Hcal |]. split.
  - intros i raw Hraw.
    destruct (poll_cycle_stages s e st p Hp).
    rewrite stage_raw in *. rewrite stage_state. cbn.
    rewrite stage_calibrate in Hc. injection Hc as Hc. rewrite Hc, Hcal in *.
    unfold Poll.calibrate_temps in stage_calibrated.
    destruct (map_exn_nth _ _ _ stage_calibrated) as [_ Hnth].
    assert (Hi : (i < Poll.total_channels s)%nat)
      by (rewrite <- Hlen; apply nth_error_Some; congruence).
    destruct (Hnth i i) as [y [Hy Hyn]].
    { rewrite nth_error_seq by exact Hi. reflexivity. }
    rewrite calibrated_at_set with (raw := raw) in Hy; [| exact Hraw |].
    + injection Hy as <-. exact Hyn.
    + rewrite Forall_forall in Hvalid. apply Hvalid.
      apply (nth_error_In _ _ Hraw).
  - apply (run_keeps_calibration s later (Poll.state_after p) st_end
             (map (fun t => m - t) (Poll.raw_temps_read p)));
      [now rewrite Hcal | now rewrite Hcal | exact Hlater].
Qed.

Lemma calibration_one_shot_witness :
  let s := Demo.installation 1 in
  let st := Poll.api_balance s
              (Demo.after_pass s Demo.partly_valid_poll (Demo.fresh s)) in
  exists p st_end,
    Poll.poll_cycle s (Demo.warm_poll 1) st = Some p
    /\ Poll.run s [Poll.PollCycle Demo.warmer_poll] (Poll.state_after p)
       = Some st_end
    /\ startup_set (calib st) = false
    /\ startup_set (calib (Poll.state_after p)) = true
    /\ calib st_end = calib (Poll.state_after p).
Proof.
  cbv zeta.
  set (s := Demo.installation 1).
  set (st := Poll.api_balance s
               (Demo.after_pass s Demo.partly_valid_poll (Demo.fresh s))).
  eexists. eexists.
  split; [vm_compute; reflexivity |].
  split; [vm_compute; reflexivity |].
  edestruct (calibration_one_shot s
               [Poll.PollCycle Demo.partly_valid_poll; Poll.ManualTrigger]
               [Poll.PollCycle Demo.warmer_poll]
               (Demo.warm_poll 1) (Demo.fresh s) st)
    as [Hunset [m [_ [Hcal [_ Hend]]]]].
  - reflexivity.
  - intros e' [H | [H | []]]; [| discriminate].
    injection H as <-. vm_compute. reflexivity.
  - vm_compute. reflexivity.
  - vm_compute. reflexivity.
  - vm_compute. reflexivity.
  - vm_compute. repeat constructor.
  - vm_compute. reflexivity.
  - split; [exact Hunset |]. split; [now rewrite Hcal |]. exact Hend.
Defined.

(** [C4], where the statement of the specification fails: with the
    scaling factor 100.0 and [valid_min] 0.0, the registers 1519, 3169 and
    4000 are the readings 15.19, 31.69 and 40.0; their median is 31.69, and
    the first channel is published as [15.19 + (31.69 - 15.19)], which in
    binary64 is 31.689999999999998, below the median. The readings 23.0,
    25.0 and 27.0 of the example in the specification are published as
    25.0 exactly. *)
Theorem binary64_calibration_can_miss_the_median :
  (exists startup_median calibrated rest,
     Binary64.median
       (map (fun v => Binary64.raw_temperature v (Binary64.of_int 100))
            [1519; 3169; 4000]%Z)
     = Some startup_median
     /\ startup_median = Binary64.raw_temperature 3169 (Binary64.of_int 100)
     /\ Binary64.first_calibrated_temps
          (Binary64.of_int 0)
          (map (fun v => Binary64.raw_temperature v (Binary64.of_int 100))
               [1519; 3169; 4000]%Z)
        = Some (Some calibrated :: rest)
     /\ PrimFloat.eqb calibrated startup_median = false
     /\ PrimFloat.ltb calibrated startup_median = true)
  /\ Binary64.first_calibrated_temps
       (Binary64.of_int 0)
       (map (fun v => Binary64.raw_temperature v (Binary64.of_int 100))
            [2300; 2500; 2700]%Z)
     = Some (repeat (Some (Binary64.of_int 25)) 3).
Proof.
  split.
  - eexists. eexists. eexists.
    split; [vm_compute; reflexivity |].
    split; [vm_compute; reflexivity |].
    split; [vm_compute; reflexivity |].
    split; vm_compute; reflexivity.
  - vm_compute. reflexivity.
Qed.

(** The worked example of the calibration: the readings 23.00, 25.00 and
    27.00 have median 25; channel 1 gets the offset 2 and is published as
    25. A later fully valid poll with the readings 24.00, 26.00 and 29.00
    leaves the offsets alone and publishes channel 1 as 24 + 2 = 26. *)
Example calibration_example :
  let s := Demo.installation 1 in
  exists p offset calibrated p' calibrated',
    Poll.poll_cycle s (Demo.warm_poll 1) (Demo.fresh s) = Some p
    /\ startup_median (calib (Poll.state_after p)) = Some 25.00
    /\ option_map (fun o => nth_error o 0) (startup_offsets (calib (Poll.state_after p)))
       = Some (Some offset)
    /\ offset == 2
    /\ nth_error (temperatures (web_data (Poll.state_after p))) 0
       = Some (Some calibrated)
    /\ calibrated == 25
    /\ Poll.poll_cycle s Demo.warmer_poll (Poll.state_after p) = Some p'
    /\ startup_offsets (calib (Poll.state_after p'))
       = startup_offsets (calib (Poll.state_after p))
    /\ nth_error (temperatures (web_data (Poll.state_after p'))) 0
       = Some (Some calibrated')
    /\ calibrated' == 26.
Proof.
  cbv zeta. do 5 eexists.
  split; [vm_compute; reflexivity |].
  split; [vm_compute; reflexivity |].
  split; [vm_compute; reflexivity |].
  split; [vm_compute; reflexivity |].
  split; [vm_compute; reflexivity |].
  split; [vm_compute; reflexivity |].
  split; [vm_compute; reflexivity |].
  split; [vm_compute; reflexivity |].
  split; [vm_compute; reflexivity |].
  vm_compute; reflexivity.
Qed.

(** ** Reading the slaves *)

Section ReadFacts.
Variable s : settings.
Variable e : Poll.cycle_env.

Local Abbreviation S := (Poll.sensors_per_battery s).

Lemma read_slaves_spec (addrs : list Z) :
  forall i0 temps_alerts raw temps_alerts' raw',
    (forall k addr l,
       nth_error addrs k = Some addr ->
       Poll.temp_result_of s e (i0 + k) addr
       = Some (Modbus.Temperatures l) ->
       length l = S) ->
    Poll.read_slaves s e i0 addrs temps_alerts raw
    = Some (temps_alerts', raw') ->
    (exists tail, raw' = raw ++ tail
                  /\ length tail = (length addrs * S)%nat)
    /\ (exists suffix, temps_alerts' = temps_alerts ++ suffix
                       /\ Forall is_slave_failed suffix)
    /\ (forall k addr temp_result,
          nth_error addrs k = Some addr ->
          Poll.temp_result_of s e (i0 + k) addr
          = Some (Modbus.ErrorText temp_result) ->
          In (SlaveFailed addr temp_result) temps_alerts'
          /\ forall j, (j < S)%nat ->
               nth_error raw' (length raw + k * S + j) = Some (valid_min s)).
Proof.
  induction addrs as [| addr rest IH];
    intros i0 temps_alerts raw temps_alerts' raw' Hsize H.
  - cbn in H. injection H as <- <-. split; [| split].
    + exists []. now rewrite app_nil_r.
    + exists []. now rewrite app_nil_r.
    + intros [| k] ? ? Hk; discriminate.
  - cbn [Poll.read_slaves] in H.
    assert (Hsize' : forall k addr l,
               nth_error rest k = Some addr ->
               Poll.temp_result_of s e (Datatypes.S i0 + k) addr
               = Some (Modbus.Temperatures l) -> length l = S).
    { intros k a l Hk Hr. apply (Hsize (Datatypes.S k) a l); [exact Hk |].
      now rewrite Nat.add_succ_r. }
    destruct (Poll.temp_result_of s e i0 addr) as [[l | msg] |] eqn:Er;
      cbn [bind] in H; [| | discriminate].
    + assert (Hl : length l = S).
      { apply (Hsize 0%nat addr l); [reflexivity |].
        now rewrite Nat.add_0_r. }
      destruct (IH _ _ _ _ _ Hsize' H)
        as [[tail [-> Htail]] [[suffix [-> Hsuffix]] Hfail]].
      split; [| split].
      * exists (l ++ tail). split; [now rewrite app_assoc |].
        rewrite length_app, Htail, Hl. cbn. lia.
      * exists suffix. auto.
      * intros [| k] a m Hk Hr; cbn in Hk.
        -- injection Hk as <-. rewrite Nat.add_0_r in Hr. congruence.
        -- rewrite Nat.add_succ_r in Hr.
           destruct (Hfail k a m Hk Hr) as [Hin Hnth]. split; [exact Hin |].
           intros j Hj. specialize (Hnth j Hj).
           rewrite length_app, Hl in Hnth.
           replace (length raw + Datatypes.S k * S + j)%nat
             with (length raw + S + k * S + j)%nat by (cbn; lia).
           exact Hnth.
    + destruct (IH _ _ _ _ _ Hsize' H)
        as [[tail [-> Htail]] [[suffix [-> Hsuffix]] Hfail]].
      split; [| split].
      * exists (repeat (valid_min s) S ++ tail).
        split; [now rewrite app_assoc |].
        rewrite length_app, Htail, repeat_length. cbn. lia.
      * exists (SlaveFailed addr msg :: suffix).
        split; [now rewrite <- app_assoc |].
        constructor; [now exists addr, msg | exact Hsuffix].
      * intros [| k] a m Hk Hr; cbn in Hk.
        -- injection Hk as <-. rewrite Nat.add_0_r in Hr.
           rewrite Er in Hr. injection Hr as <-. split.
           ++ apply in_or_app. left. apply in_or_app. right. now left.
           ++ intros j Hj.
              replace (length raw + 0 * S + j)%nat
                with (length raw + j)%nat by lia.
              rewrite <- app_assoc.
              rewrite nth_error_app2 by lia.
              replace (length raw + j - length raw)%nat with j by lia.
              rewrite nth_error_app1 by (now rewrite repeat_length).
              apply nth_error_repeat. exact Hj.
        -- rewrite Nat.add_succ_r in Hr.
           destruct (Hfail k a m Hk Hr) as [Hin Hnth]. split; [exact Hin |].
           intros j Hj. specialize (Hnth j Hj).
           rewrite length_app, repeat_length in Hnth.
           replace (length raw + Datatypes.S k * S + j)%nat
             with (length raw + S + k * S + j)%nat by (cbn; lia).
           exact Hnth.
Qed.

(** What the slave loop of a pass leaves, when every answer is full. *)
Lemma read_slaves_full (slave_alerts : list alert) (raw_temps : list Q) :
  Poll.full_answers s e ->
  Poll.read_slaves s e 0 (modbus_slave_addresses s) [] []
  = Some (slave_alerts, raw_temps) ->
  length raw_temps = (length (modbus_slave_addresses s) * S)%nat
  /\ Forall is_slave_failed slave_alerts
  /\ (forall k addr temp_result,
        nth_error (modbus_slave_addresses s) k = Some addr ->
        Poll.temp_result_of s e k addr
        = Some (Modbus.ErrorText temp_result) ->
        In (SlaveFailed addr temp_result) slave_alerts
        /\ forall j, (j < S)%nat ->
             nth_error raw_temps (k * S + j) = Some (valid_min s)).
Proof.
  intros Hfull H.
  destruct (read_slaves_spec (modbus_slave_addresses s) 0 [] []
              slave_alerts raw_temps)
    as [[tail [-> Htail]] [[suffix [-> Hsuffix]] Hfail]].
  - intros k addr l Hk Hr. apply (Hfull k addr l Hk Hr).
  - exact H.
  - cbn. split; [exact Htail |]. split; [exact Hsuffix |].
    intros k addr m Hk Hr. apply (Hfail k addr m Hk Hr).
Qed.

End ReadFacts.

(** ** Channels and their banks *)

Section BankFacts.
Import Topology.
Local Open Scope nat_scope.

Variable c : config.

(** Every position below [total_channels] lies in the slice of some bank. *)
Lemma position_in_some_bank (i : nat) :
  i < total_channels c ->
  exists indices, In indices (bank_sensor_indices c) /\ In i indices.
Proof.
  unfold total_channels, sensors_per_battery, bank_sensor_indices. intros Hi.
  set (N := num_series_banks c) in *. set (spb := sensors_per_bank c) in *.
  set (P := number_of_parallel_batteries c) in *.
  assert (HS : N * spb <> 0) by (intros H0; rewrite H0 in Hi; lia).
  assert (Hspb : spb <> 0) by (intros H0; rewrite H0 in HS; lia).
  pose (bat := i / (N * spb)). pose (r := i mod (N * spb)).
  pose (bank := r / spb).
  assert (Ei : i = N * spb * bat + r) by (apply Nat.div_mod_eq).
  assert (Hr : r < N * spb) by (apply Nat.mod_upper_bound; exact HS).
  assert (Er : r = spb * bank + r mod spb) by (apply Nat.div_mod_eq).
  assert (Hr2 : r mod spb < spb) by (apply Nat.mod_upper_bound; exact Hspb).
  assert (Hbat : bat < P).
  { apply Nat.Div0.div_lt_upper_bound. lia. }
  assert (Hbank : bank < N).
  { apply Nat.Div0.div_lt_upper_bound. lia. }
  exists (flat_map (bank_slice c bank) (seq 0 P)). split.
  - apply in_map_iff. exists bank. split; [reflexivity |].
    apply in_seq. lia.
  - apply in_flat_map. exists bat. split; [apply in_seq; lia |].
    unfold bank_slice, sensors_per_battery. fold N spb.
    apply in_seq. lia.
Qed.

Lemma find_bank_some (ch : Z) (banks : list (list nat)) :
  forall start,
    (exists indices, In indices banks /\ index_in ch indices = true) ->
    exists b indices,
      find_bank ch start banks = Some b /\ start <= b
      /\ nth_error banks (b - start) = Some indices
      /\ index_in ch indices = true.
Proof.
  induction banks as [| l rest IH]; intros start [indices [Hin Hidx]].
  - destruct Hin.
  - cbn [find_bank]. destruct (index_in ch l) eqn:El.
    + exists start, l. rewrite Nat.sub_diag. auto.
    + destruct Hin as [-> | Hin]; [congruence |].
      destruct (IH (S start) (ex_intro _ indices (conj Hin Hidx)))
        as [b [l' [Hf [Hle [Hn Hi]]]]].
      exists b, l'. split; [exact Hf |]. split; [lia |].
      split; [| exact Hi].
      replace (b - start) with (S (b - S start)) by lia. exact Hn.
Qed.

(** A channel inside the range has a bank, and the list of that bank
    holds its position. *)
Lemma channel_has_bank (i : nat) :
  i < total_channels c ->
  exists b indices,
    get_bank_for_channel (bank_sensor_indices c) (Z.of_nat (i + 1)) = Some b
    /\ nth_error (bank_sensor_indices c) (b - 1) = Some indices
    /\ In i indices.
Proof.
  intros Hi. destruct (position_in_some_bank i Hi) as [l [Hl Hil]].
  destruct (find_bank_some (Z.of_nat (i + 1)) (bank_sensor_indices c) 1)
    as [b [indices [Hf [_ [Hn Hidx]]]]].
  - exists l. split; [exact Hl |]. apply index_in_spec.
    exists i. split; [exact Hil | lia].
  - exists b, indices. split; [exact Hf |]. split; [exact Hn |].
    apply index_in_spec in Hidx. destruct Hidx as [i' [Hi' Heq]].
    replace i with i' by lia. exact Hi'.
Qed.

(** The battery and local channel printed into an alert tell the channel. *)
Lemma battery_and_local_inj (a b : Z) :
  get_battery_and_local_ch a = get_battery_and_local_ch b -> a = b.
Proof.
  unfold get_battery_and_local_ch. intros H. injection H as Hd Hm.
  assert (Ea : (a - 1 = 24 * ((a - 1) / 24) + (a - 1) mod 24)%Z)
    by (apply Z.div_mod; lia).
  assert (Eb : (b - 1 = 24 * ((b - 1) / 24) + (b - 1) mod 24)%Z)
    by (apply Z.div_mod; lia).
  lia.
Qed.

End BankFacts.

(** ** What the checks append *)

Section CheckFacts.
Variable s : settings.

Lemma check_invalid_reading_spec (raw : Q) (ch : Z) (alerts : list alert) :
  Anomaly.check_invalid_reading s raw ch alerts
  = if Qle_bool raw (valid_min s)
    then (true, alerts ++ [invalid_alert_of s ch])
    else (false, alerts).
Proof. reflexivity. Qed.

Lemma check_high_temp_spec (calibrated : Q) (ch : Z) (alerts : list alert) :
  exists suffix,
    Anomaly.check_high_temp s calibrated ch alerts = alerts ++ suffix
    /\ Forall (about ch) suffix.
Proof.
  unfold Anomaly.check_high_temp. destruct (Qgtb _ _).
  - eexists. split; [reflexivity |]. repeat constructor.
  - exists []. now rewrite app_nil_r.
Qed.

Lemma check_low_temp_spec (calibrated : Q) (ch : Z) (alerts : list alert) :
  exists suffix,
    Anomaly.check_low_temp s calibrated ch alerts = alerts ++ suffix
    /\ Forall (about ch) suffix.
Proof.
  unfold Anomaly.check_low_temp. destruct (Qltb _ _).
  - eexists. split; [reflexivity |]. repeat constructor.
  - exists []. now rewrite app_nil_r.
Qed.

Lemma check_deviation_spec (calibrated bank_median : Q) (ch : Z)
      (alerts : list alert) :
  exists suffix,
    Anomaly.check_deviation s calibrated bank_median ch alerts
    = alerts ++ suffix
    /\ Forall (about ch) suffix.
Proof.
  unfold Anomaly.check_deviation. destruct (_ || _).
  - eexists. split; [reflexivity |]. repeat constructor.
  - exists []. now rewrite app_nil_r.
Qed.

(** The static loop body: an invalid reading appends its alert and nothing
    else; a valid one appends only alerts about its own channel. *)
Lemma static_check_spec (calibrated_temps : list (option Q))
      (bank_medians : list Q) (temps_alerts temps_alerts' : list alert)
      (ch : nat) (raw : Q) :
  Poll.static_check s calibrated_temps bank_medians temps_alerts (ch, raw)
  = Some temps_alerts' ->
  (Qle_bool raw (valid_min s) = true
   /\ temps_alerts' = temps_alerts ++ [invalid_alert_of s (Z.of_nat ch)])
  \/ (Qle_bool raw (valid_min s) = false
      /\ exists suffix, temps_alerts' = temps_alerts ++ suffix
                        /\ Forall (about (Z.of_nat ch)) suffix).
Proof.
  unfold Poll.static_check. rewrite check_invalid_reading_spec.
  destruct (Qle_bool raw (valid_min s)); intros H.
  - left. injection H as <-. auto.
  - right. split; [reflexivity |].
    bind_inv H. bind_inv H. bind_inv H. bind_inv H. injection H as <-.
    destruct (check_high_temp_spec v0 (Z.of_nat ch) temps_alerts)
      as [s1 [-> F1]].
    destruct (check_low_temp_spec v0 (Z.of_nat ch) (temps_alerts ++ s1))
      as [s2 [-> F2]].
    destruct (check_deviation_spec v0 v2 (Z.of_nat ch)
                ((temps_alerts ++ s1) ++ s2)) as [s3 [-> F3]].
    exists (s1 ++ s2 ++ s3). split; [now rewrite !app_assoc |].
    repeat (apply Forall_app; split); assumption.
Qed.

Lemma check_abnormal_rise_spec (current : Q) (previous : list (option Q))
      (ch : Z) (alerts alerts' : list alert) :
  Anomaly.check_abnormal_rise s current previous ch alerts = Some alerts' ->
  exists suffix, alerts' = alerts ++ suffix /\ Forall quiet suffix.
Proof.
  unfold Anomaly.check_abnormal_rise. intros H. bind_inv H.
  destruct v as [prev |].
  - destruct (Qgtb _ _); injection H as <-.
    + eexists. split; [reflexivity |]. repeat constructor.
    + exists []. now rewrite app_nil_r.
  - injection H as <-. exists []. now rewrite app_nil_r.
Qed.

Lemma check_group_tracking_lag_spec (current : Q)
      (previous : list (option Q)) (rise : Q) (ch : Z)
      (alerts alerts' : list alert) :
  Anomaly.check_group_tracking_lag s current previous rise ch alerts
  = Some alerts' ->
  exists suffix, alerts' = alerts ++ suffix /\ Forall quiet suffix.
Proof.
  unfold Anomaly.check_group_tracking_lag. intros H. bind_inv H.
  destruct v as [prev |].
  - destruct (Qgtb _ _); injection H as <-.
    + eexists. split; [reflexivity |]. repeat constructor.
    + exists []. now rewrite app_nil_r.
  - injection H as <-. exists []. now rewrite app_nil_r.
Qed.

Lemma check_sudden_disconnection_spec (current : option Q)
      (previous : list (option Q)) (ch : Z) (alerts alerts' : list alert) :
  Anomaly.check_sudden_disconnection s current previous ch alerts
  = Some alerts' ->
  exists suffix, alerts' = alerts ++ suffix /\ Forall quiet suffix.
Proof.
  unfold Anomaly.check_sudden_disconnection. intros H. bind_inv H.
  destruct v as [prev |], current as [cur |]; injection H as <-;
    try (exists []; now rewrite app_nil_r).
  eexists. split; [reflexivity |]. repeat constructor.
Qed.

Lemma dynamic_check_spec (st : state) (calibrated_temps : list (option Q))
      (rise : Q) (alerts alerts' : list alert) (i : nat) :
  Poll.dynamic_check s st calibrated_temps rise alerts i = Some alerts' ->
  exists suffix, alerts' = alerts ++ suffix /\ Forall quiet suffix.
Proof.
  unfold Poll.dynamic_check. intros H. bind_inv H. bind_inv H.
  assert (H1 : exists s1, v0 = alerts ++ s1 /\ Forall quiet s1).
  { destruct v as [calib |].
    - bind_inv E0.
      destruct (check_abnormal_rise_spec _ _ _ _ _ E1) as [s1 [-> F1]].
      destruct (check_group_tracking_lag_spec _ _ _ _ _ _ E0)
        as [s2 [-> F2]].
      exists (s1 ++ s2). split; [now rewrite app_assoc |].
      apply Forall_app. auto.
    - injection E0 as <-. exists []. now rewrite app_nil_r. }
  destruct H1 as [s1 [-> F1]].
  destruct (check_sudden_disconnection_spec _ _ _ _ _ H) as [s2 [-> F2]].
  exists (s1 ++ s2). split; [now rewrite app_assoc |].
  apply Forall_app. auto.
Qed.

Lemma dynamic_checks_spec (st : state) (calibrated_temps : list (option Q))
      (bank_medians : list Q) (alerts alerts' : list alert) :
  Poll.dynamic_checks s st calibrated_temps bank_medians alerts
  = Some alerts' ->
  exists suffix, alerts' = alerts ++ suffix /\ Forall quiet suffix.
Proof.
  unfold Poll.dynamic_checks. destruct (_ && _); intros H.
  - apply (fold_exn_appends _ quiet _) in H; [exact H |].
    intros a bank_id a' _ Hb. unfold Poll.dynamic_bank in Hb.
    bind_inv Hb. bind_inv Hb. bind_inv Hb.
    apply (fold_exn_appends _ quiet _) in Hb; [exact Hb |].
    intros a0 i a0' _ Hd. apply (dynamic_check_spec _ _ _ _ _ _ Hd).
  - injection H as <-. exists []. now rewrite app_nil_r.
Qed.

Lemma cabinet_check_spec (overall_median : Q) (alerts : list alert) :
  exists suffix,
    fst (Poll.cabinet_check s overall_median alerts) = alerts ++ suffix
    /\ Forall quiet suffix.
Proof.
  unfold Poll.cabinet_check. destruct (Qgtb _ _); cbn.
  - destruct (existsb _ _).
    + exists []. now rewrite app_nil_r.
    + eexists. split; [reflexivity |]. repeat constructor.
  - exists []. now rewrite app_nil_r.
Qed.

Lemma enumerate1_items {A : Type} (l : list A) :
  forall start ch x,
    In (ch, x) (combine (seq start (length l)) l) ->
    (start <= ch)%nat /\ nth_error l (ch - start) = Some x.
Proof.
  induction l as [| y rest IH]; cbn; intros start ch x H; [destruct H |].
  destruct H as [H | H].
  - injection H as <- <-. rewrite Nat.sub_diag. auto.
  - destruct (IH _ _ _ H) as [Hle Hn]. split; [lia |].
    replace (ch - start)%nat with (Datatypes.S (ch - Datatypes.S start))
      by lia.
    exact Hn.
Qed.

Lemma enumerate1_split {A : Type} (l : list A) :
  forall start k x,
    nth_error l k = Some x ->
    exists l1 l2,
      combine (seq start (length l)) l = l1 ++ ((start + k)%nat, x) :: l2.
Proof.
  induction l as [| y rest IH]; intros start [| k] x H; cbn in *;
    try discriminate.
  - injection H as <-. exists [], (combine (seq (Datatypes.S start) (length rest)) rest).
    now rewrite Nat.add_0_r.
  - destruct (IH (Datatypes.S start) k x H) as [l1 [l2 E]].
    exists ((start, y) :: l1), l2. cbn. rewrite E.
    now rewrite Nat.add_succ_r.
Qed.

End CheckFacts.

(** ** A unit that does not answer *)

Lemma invalid_count_is_missing (calibrated_temps : list (option Q))
      (bank_indices : list nat) :
  stat_invalid (Poll.bank_stat_of calibrated_temps bank_indices)
  = length (missing_in calibrated_temps bank_indices).
Proof.
  assert (H : (length (Poll.values_at calibrated_temps bank_indices)
               + length (missing_in calibrated_temps bank_indices)
               = length bank_indices)%nat).
  { unfold Poll.values_at, missing_in.
    induction bank_indices as [| i rest IH]; cbn; [reflexivity |].
    destruct (nth i calibrated_temps None); cbn; lia. }
  unfold Poll.bank_stat_of.
  destruct (Poll.values_at calibrated_temps bank_indices) as [| first rest];
    [cbn in *; lia |].
  destruct (Stats.median (first :: rest)); cbn [stat_invalid]; lia.
Qed.

Lemma sentinel_is_invalid (s : settings) :
  Qle_bool (valid_min s) (valid_min s) = true
  /\ Poll.is_valid s (valid_min s) = false.
Proof.
  assert (H : Qle_bool (valid_min s) (valid_min s) = true)
    by (apply Qle_bool_iff, Qle_refl).
  split; [exact H |]. unfold Poll.is_valid, Qgtb. now rewrite H.
Qed.

(** [C10]: in a completed poll cycle in which the read of the [k]-th slave
    returned an error string (the other slaves answering with full frames),
    every channel [ch] of that slave, at position [i = k * sensors_per_battery
    + j], has the raw value [valid_min]; its invalid-reading alert is among
    the temperature alerts; its calibrated reading is absent; no high, low or
    deviation alert of the cycle is about it; an unset calibration stays
    unset; and the position is one of the absent readings that the invalid
    count of its bank counts. *)
Theorem failed_unit_sentinel (s : settings) (e : Poll.cycle_env) (st : state)
        (p : Poll.pass) (k j : nat) (addr : Z) (temp_result : string) :
  Poll.poll_cycle s e st = Some p ->
  length (modbus_slave_addresses s)
  = Topology.number_of_parallel_batteries (topology s) ->
  Poll.full_answers s e ->
  nth_error (modbus_slave_addresses s) k = Some addr ->
  Poll.temp_result_of s e k addr = Some (Modbus.ErrorText temp_result) ->
  (j < Poll.sensors_per_battery s)%nat ->
  let i := (k * Poll.sensors_per_battery s + j)%nat in
  let ch := Z.of_nat (i + 1) in
  let published := temperatures (web_data (Poll.state_after p)) in
  nth_error (Poll.raw_temps_read p) i = Some (valid_min s)
  /\ In (SlaveFailed addr temp_result) (Poll.temps_alerts_found p)
  /\ In (invalid_alert_of s ch) (Poll.temps_alerts_found p)
  /\ nth_error published i = Some None
  /\ (forall a, In a (Poll.temps_alerts_found p) ->
        threshold_alert a = true -> ~ about ch a)
  /\ (startup_set (calib st) = false ->
      calib (Poll.state_after p) = calib st)
  /\ exists b bank_indices stat,
       Anomaly.bank_of s ch = Some b
       /\ nth_error (BANK_SENSOR_INDICES s) (b - 1) = Some bank_indices
       /\ nth_error (bank_summaries (web_data (Poll.state_after p))) (b - 1)
          = Some stat
       /\ stat_invalid stat = length (missing_in published bank_indices)
       /\ In i (missing_in published bank_indices).
Proof.
  intros Hp HP Hfull Hk Hr Hj i ch published.
  pose proof (poll_cycle_calib s e st p Hp) as Hcalib.
  destruct (poll_cycle_stages s e st p Hp).
  destruct (read_slaves_full s e slave_alerts raw_temps Hfull stage_read)
    as [Hlen [Hslaves Hfailed]].
  destruct (Hfailed k addr temp_result Hk Hr) as [Hin_slave Hsentinel].
  specialize (Hsentinel j Hj). fold i in Hsentinel.
  destruct (sentinel_is_invalid s) as [Hle Hinvalid].
  assert (Htotal : length raw_temps = Poll.total_channels s).
  { rewrite Hlen, HP. reflexivity. }
  assert (Hi : (i < Poll.total_channels s)%nat).
  { rewrite <- Htotal. apply nth_error_Some. congruence. }
  (* the calibrated reading of the channel *)
  assert (Hcal : nth_error calibrated_temps i = Some None).
  { unfold Poll.calibrate_temps in stage_calibrated.
    destruct (map_exn_nth _ _ _ stage_calibrated) as [_ Hnth].
    destruct (Hnth i i) as [y [Hy Hyn]];
      [rewrite nth_error_seq by exact Hi; reflexivity |].
    unfold Poll.calibrated_at in Hy. rewrite Hsentinel in Hy. cbn in Hy.
    rewrite Hinvalid, andb_false_r in Hy. injection Hy as <-. exact Hyn. }
  (* how the alert list grows through the stages *)
  destruct (dynamic_checks_spec s _ _ _ _ _ stage_dynamic) as [s2 [E2 F2]].
  destruct (cabinet_check_spec s (Poll.overall_median_of calibrated_temps)
              dynamic_alerts) as [s3 [E3 F3]].
  unfold cabinet_of in stage_cabinet. rewrite stage_cabinet in E3. cbn in E3.
  unfold Poll.static_checks, Poll.enumerate1 in stage_static.
  assert (Hstatic_in : In (invalid_alert_of s ch) static_alerts).
  { destruct (enumerate1_split raw_temps 1 i (valid_min s) Hsentinel)
      as [l1 [l2 El]].
    pose proof stage_static as Hfold. rewrite El in Hfold.
    apply (fold_exn_keeps _ l1 l2 _ (invalid_alert_of s ch)) in Hfold;
      [exact Hfold | |].
    - intros a [ch' raw'] a' Hs.
      destruct (static_check_spec s _ _ _ _ _ _ Hs)
        as [[_ ->] | [_ [suffix [-> _]]]]; eexists; reflexivity.
    - intros a a' Hs.
      destruct (static_check_spec s _ _ _ _ _ _ Hs)
        as [[_ ->] | [Hfalse _]]; [| congruence].
      apply in_or_app. right. left. unfold ch.
      now rewrite (Nat.add_comm i 1). }
  assert (Hstatic_spares :
            exists s1, static_alerts = slave_alerts ++ s1
                       /\ Forall (fun a => threshold_alert a = true ->
                                           ~ about ch a) s1).
  { apply (fold_exn_appends _
             (fun a => threshold_alert a = true -> ~ about ch a) _)
      in stage_static; [exact stage_static |].
    intros a [ch' raw'] a' Hitem Hs.
    destruct (enumerate1_items raw_temps 1 ch' raw' Hitem) as [Hge Hraw'].
    destruct (static_check_spec s _ _ _ _ _ _ Hs)
      as [[_ ->] | [Hvalid [suffix [-> Habout]]]].
    - eexists. split; [reflexivity |]. constructor; [| constructor].
      intros Ht. discriminate Ht.
    - exists suffix. split; [reflexivity |].
      eapply Forall_impl; [| exact Habout].
      intros a0 Ha0 _ Hch. unfold about in Ha0, Hch.
      assert (Hpair : Topology.get_battery_and_local_ch (Z.of_nat ch')
                      = Topology.get_battery_and_local_ch ch) by congruence.
      apply battery_and_local_inj in Hpair. unfold ch in Hpair.
      assert (Hpos : (ch' - 1)%nat = i) by lia.
      rewrite Hpos, Hsentinel in Hraw'. injection Hraw' as <-.
      congruence. }
  destruct Hstatic_spares as [s1 [E1 F1]].
  assert (Ealerts : temps_alerts = slave_alerts ++ s1 ++ s2 ++ s3)
    by (rewrite E3, E2, E1, !app_assoc; reflexivity).
  repeat split.
  - now rewrite stage_raw.
  - rewrite stage_alerts, Ealerts. apply in_or_app. now left.
  - rewrite stage_alerts, E3, E2. apply in_or_app. left.
    apply in_or_app. now left.
  - unfold published. rewrite stage_state. cbn. exact Hcal.
  - rewrite stage_alerts, Ealerts. intros a Ha Ht.
    apply in_app_or in Ha. destruct Ha as [Ha | Ha].
    + rewrite Forall_forall in Hslaves.
      destruct (Hslaves a Ha) as [? [? ->]]. discriminate Ht.
    + apply in_app_or in Ha. destruct Ha as [Ha | Ha].
      * rewrite Forall_forall in F1. apply (F1 a Ha Ht).
      * assert (Hq : quiet a).
        { apply in_app_or in Ha. destruct Ha as [Ha | Ha].
          - rewrite Forall_forall in F2. apply (F2 a Ha).
          - rewrite Forall_forall in F3. apply (F3 a Ha). }
        unfold quiet in Hq. congruence.
  - intros Hunset. rewrite stage_raw in Hcalib.
    apply (calibrate_idle s raw_temps _ _ Hunset); [| exact Hcalib].
    pose proof (count_some_fails (Poll.is_valid s) raw_temps i (valid_min s)
                  Hsentinel Hinvalid).
    unfold Poll.total_channels in Htotal |- *. lia.
  - destruct (channel_has_bank (topology s) i Hi) as [b [indices [Hb [Hn Hin]]]].
    exists b, indices, (Poll.bank_stat_of calibrated_temps indices).
    unfold published. rewrite stage_state. cbn.
    split; [exact Hb |]. split; [exact Hn |]. split.
    + unfold Poll.compute_bank_medians. apply map_nth_error. exact Hn.
    + split; [apply invalid_count_is_missing |].
      unfold missing_in. apply filter_In. split; [exact Hin |].
      rewrite (nth_error_nth _ _ _ Hcal). reflexivity.
Qed.

Lemma failed_unit_sentinel_witness :
  let s := Demo.installation 2 in
  exists p,
    Poll.poll_cycle s Demo.second_slave_silent (Demo.fresh s) = Some p
    /\ nth_error (Poll.raw_temps_read p) 3 = Some (valid_min s)
    /\ In (invalid_alert_of s 4) (Poll.temps_alerts_found p)
    /\ nth_error (temperatures (web_data (Poll.state_after p))) 3 = Some None.
Proof.
  cbv zeta. eexists. split; [vm_compute; reflexivity |].
  edestruct (failed_unit_sentinel (Demo.installation 2)
               Demo.second_slave_silent (Demo.fresh (Demo.installation 2)))
    with (k := 1%nat) (j := 0%nat) (addr := 2%Z)
         (temp_result := "Error: Failed after 3 attempts for slave 2"%string)
    as [Hraw [_ [Hinvalid [Hcal _]]]].
  - vm_compute. reflexivity.
  - reflexivity.
  - intros [| [| i]] addr l Hn Hr; cbn in Hn.
    + injection Hn as <-. vm_compute in Hr. injection Hr as <-. reflexivity.
    + injection Hn as <-. vm_compute in Hr. discriminate Hr.
    + destruct i; discriminate Hn.
  - reflexivity.
  - vm_compute. reflexivity.
  - vm_compute. lia.
  - split; [exact Hraw |]. split; [exact Hinvalid | exact Hcal].
Defined.

(** ** Acquisition failures in the published data *)

Section PublishFacts.
Variable s : settings.

Lemma voltage_alerts_in (vs : list (option Q)) :
  forall start k v a,
    nth_error vs k = Some v ->
    Issues.voltage_alert s (start + k) v = Some a ->
    In a (Issues.voltage_alerts s start vs).
Proof.
  induction vs as [| w rest IH]; intros start [| k] v a Hn Ha; cbn in *;
    try discriminate.
  - injection Hn as ->. rewrite Nat.add_0_r in Ha. rewrite Ha. now left.
  - assert (Hin : In a (Issues.voltage_alerts s (S start) rest)).
    { apply (IH (S start) k v a Hn). now rewrite Nat.add_succ_r in Ha. }
    destruct (Issues.voltage_alert s start w); [now right | exact Hin].
Qed.

Lemma nonempty_length {A : Type} (l : list A) (x : A) :
  In x l -> negb (length l =? 0)%nat = true.
Proof. destruct l; [intros [] | reflexivity]. Qed.

(** The aggregator on a list of temperature alerts that is not empty. *)
Lemma check_for_issues_temps (st : state) (vs : list (option Q))
      (temps_alerts : list alert) (a : alert) :
  In a temps_alerts ->
  fst (fst (Issues.check_for_issues s st vs temps_alerts)) = true
  /\ In a (snd (fst (Issues.check_for_issues s st vs temps_alerts))).
Proof.
  intros Hin. unfold Issues.check_for_issues. cbn [fst snd]. split.
  - rewrite (nonempty_length temps_alerts a Hin). apply orb_true_r.
  - apply in_or_app. right. apply in_or_app. right.
    apply in_or_app. now right.
Qed.

(** The aggregator on a list of voltages with a voltage alert. *)
Lemma check_for_issues_voltage (st : state) (vs : list (option Q))
      (temps_alerts : list alert) (a : alert) :
  In a (Issues.voltage_alerts s 1 vs) ->
  fst (fst (Issues.check_for_issues s st vs temps_alerts)) = true
  /\ In a (snd (fst (Issues.check_for_issues s st vs temps_alerts))).
Proof.
  intros Hin. unfold Issues.check_for_issues. cbn [fst snd]. split.
  - rewrite (nonempty_length _ a Hin).
    rewrite orb_true_r. reflexivity.
  - apply in_or_app. right. apply in_or_app. right.
    apply in_or_app. now left.
Qed.

(** The readings of a slave that returned an error, in a pass that ran to
    its end. *)
Lemma silent_unit_readings (e : Poll.cycle_env) (st : state)
      (p : Poll.pass) (k j : nat) (addr : Z) (temp_result : string) :
  Poll.poll_cycle s e st = Some p ->
  length (modbus_slave_addresses s)
  = Topology.number_of_parallel_batteries (topology s) ->
  Poll.full_answers s e ->
  nth_error (modbus_slave_addresses s) k = Some addr ->
  Poll.temp_result_of s e k addr = Some (Modbus.ErrorText temp_result) ->
  (j < Poll.sensors_per_battery s)%nat ->
  nth_error (temperatures (web_data (Poll.state_after p)))
            (k * Poll.sensors_per_battery s + j) = Some None
  /\ In (SlaveFailed addr temp_result) (Poll.temps_alerts_found p).
Proof.
  intros Hp HP Hfull Hk Hr Hj.
  destruct (poll_cycle_stages s e st p Hp).
  destruct (read_slaves_full s e slave_alerts raw_temps Hfull stage_read)
    as [Hlen [_ Hfailed]].
  destruct (Hfailed k addr temp_result Hk Hr) as [Hin_slave Hsentinel].
  specialize (Hsentinel j Hj).
  destruct (sentinel_is_invalid s) as [_ Hinvalid].
  assert (Hi : (k * Poll.sensors_per_battery s + j
                < Poll.total_channels s)%nat).
  { unfold Poll.total_channels, Topology.total_channels.
    rewrite <- HP. fold (Poll.sensors_per_battery s). rewrite <- Hlen.
    apply nth_error_Some. congruence. }
  split.
  - rewrite stage_state. cbn.
    unfold Poll.calibrate_temps in stage_calibrated.
    destruct (map_exn_nth _ _ _ stage_calibrated) as [_ Hnth].
    destruct (Hnth _ _ (nth_error_seq 0 _ _ Hi)) as [y [Hy Hyn]].
    cbn in Hy. unfold Poll.calibrated_at in Hy.
    rewrite Hsentinel in Hy. cbn in Hy.
    rewrite Hinvalid, andb_false_r in Hy. injection Hy as <-. exact Hyn.
  - rewrite stage_alerts.
    destruct (dynamic_checks_spec s _ _ _ _ _ stage_dynamic) as [s2 [E2 _]].
    destruct (cabinet_check_spec s
                (Poll.overall_median_of calibrated_temps) dynamic_alerts)
      as [s3 [E3 _]].
    unfold cabinet_of in stage_cabinet. rewrite stage_cabinet in E3.
    cbn in E3.
    unfold Poll.static_checks in stage_static.
    apply (fold_exn_appends _ (fun _ => True) _) in stage_static.
    + destruct stage_static as [s1 [E1 _]].
      rewrite E3, E2, E1. repeat (apply in_or_app; left). exact Hin_slave.
    + intros a [ch' raw'] a' _ Hs.
      destruct (static_check_spec s _ _ _ _ _ _ Hs)
        as [[_ ->] | [_ [suffix [-> _]]]]; eexists; split;
        try reflexivity; apply Forall_forall; auto.
Qed.

End PublishFacts.

(** [C7], as the code has it: in a completed poll cycle, a slave whose read
    returned an error string (the other slaves answering with full frames)
    has every one of its channels published as absent, never as a number,
    and its failure is among the alerts; a bank whose voltage read gave
    [None] is published with the voltage 0, the value that a true reading
    of 0 V gives, and is reported by the alert "Bank i: Zero voltage". Both
    raise "needs attention". *)
Theorem acquisition_failures_as_published (s : settings)
        (e : Poll.cycle_env) (st : state) (p : Poll.pass) :
  Poll.poll_cycle s e st = Some p ->
  (length (modbus_slave_addresses s)
   = Topology.number_of_parallel_batteries (topology s) ->
   Poll.full_answers s e ->
   forall k j addr temp_result,
     nth_error (modbus_slave_addresses s) k = Some addr ->
     Poll.temp_result_of s e k addr
     = Some (Modbus.ErrorText temp_result) ->
     (j < Poll.sensors_per_battery s)%nat ->
     nth_error (temperatures (web_data (Poll.state_after p)))
               (k * Poll.sensors_per_battery s + j) = Some None
     /\ In (SlaveFailed addr temp_result) (Poll.all_alerts p)
     /\ Poll.alert_needed p = true)
  /\ (forall bank_id,
        (1 <= bank_id <= NUM_BANKS s)%nat ->
        Voltage.read_voltage_with_retry s bank_id (Poll.voltage_adc e bank_id)
        = Some None ->
        nth_error (voltages (web_data (Poll.state_after p))) (bank_id - 1)
        = Some 0
        /\ In (ZeroVoltage bank_id) (Poll.all_alerts p)
        /\ Poll.alert_needed p = true).
Proof.
  intros Hp. split.
  - intros HP Hfull k j addr temp_result Hk Hr Hj.
    destruct (silent_unit_readings s e st p k j addr temp_result
                Hp HP Hfull Hk Hr Hj) as [Hcal Hin].
    split; [exact Hcal |].
    destruct (poll_cycle_stages s e st p Hp).
    rewrite stage_alerts in Hin.
    destruct (check_for_issues_temps s (measured s st c calibrated_temps)
                (map Some battery_voltages) temps_alerts _ Hin) as [Hn Ha].
    rewrite stage_issues in Hn, Ha. cbn in Hn, Ha.
    rewrite stage_all, stage_needed. auto.
  - intros bank_id Hbank Hread.
    destruct (poll_cycle_stages s e st p Hp).
    unfold Poll.read_voltages in stage_voltages.
    destruct (map_exn_nth _ _ _ stage_voltages) as [_ Hnth].
    destruct (Hnth (bank_id - 1)%nat bank_id) as [y [Hy Hyn]].
    { rewrite nth_error_seq by lia. f_equal. lia. }
    unfold Poll.read_bank_voltage in Hy. rewrite Hread in Hy. cbn in Hy.
    injection Hy as <-.
    assert (Hin : In (ZeroVoltage bank_id)
                     (Issues.voltage_alerts s 1 (map Some battery_voltages))).
    { apply (voltage_alerts_in s _ 1 (bank_id - 1) (Some 0)).
      - rewrite nth_error_map, Hyn. reflexivity.
      - replace (1 + (bank_id - 1))%nat with bank_id by lia. reflexivity. }
    destruct (check_for_issues_voltage s (measured s st c calibrated_temps)
                (map Some battery_voltages) temps_alerts _ Hin) as [Hn Ha].
    rewrite stage_issues in Hn, Ha. cbn in Hn, Ha.
    rewrite stage_state, stage_all, stage_needed. cbn. auto.
Qed.

Lemma acquisition_failures_as_published_witness :
  let s := Demo.installation 1 in
  exists p,
    Poll.poll_cycle s Demo.unstable_meter (Demo.fresh s) = Some p
    /\ nth_error (voltages (web_data (Poll.state_after p))) 0 = Some 0
    /\ In (ZeroVoltage 1) (Poll.all_alerts p)
    /\ Poll.alert_needed p = true.
Proof.
  cbv zeta. eexists. split; [vm_compute; reflexivity |].
  edestruct (acquisition_failures_as_published (Demo.installation 1)
               Demo.unstable_meter (Demo.fresh (Demo.installation 1)))
    as [_ Hvolt].
  - vm_compute. reflexivity.
  - apply (Hvolt 1%nat).
    + vm_compute. lia.
    + vm_compute. reflexivity.
Defined.

(** [C7], as the claim states it, fails: a bank whose two samples disagree
    in both rounds has no reading ([None]), and the poll cycle publishes its
    voltage as 0, exactly what it publishes for banks that truly read 0 V. *)
Lemma failed_voltage_read_is_published_as_zero :
  let s := Demo.installation 1 in
  Voltage.read_voltage_with_retry s 1 Demo.unstable = Some None
  /\ (exists v, Voltage.read_voltage_with_retry s 1 Demo.dead = Some (Some v)
                /\ v == 0)
  /\ exists p p',
       Poll.poll_cycle s Demo.unstable_meter (Demo.fresh s) = Some p
       /\ Poll.poll_cycle s Demo.dead_banks (Demo.fresh s) = Some p'
       /\ Forall2 Qeq (voltages (web_data (Poll.state_after p))) [0; 0; 0]
       /\ Forall2 Qeq (voltages (web_data (Poll.state_after p'))) [0; 0; 0].
Proof.
  cbv zeta. split; [vm_compute; reflexivity |].
  split; [eexists; split; [vm_compute; reflexivity | reflexivity] |].
  eexists. eexists.
  split; [vm_compute; reflexivity |].
  split; [vm_compute; reflexivity |].
  split; vm_compute; repeat constructor.
Qed.

(** A bus error during the conversions is turned into the raw code 0 inside
    [read_voltage_with_retry], so it too reads as 0 V. *)
Example bus_error_reads_as_zero :
  exists v,
    Voltage.read_voltage_with_retry (Demo.installation 1) 1
      (fun _ _ => Voltage.BusIOError) = Some (Some v)
    /\ v == 0.
Proof. eexists. split; [vm_compute; reflexivity | reflexivity]. Qed.

(* ===================================================================== *)
(** * Part III: further properties of the code                            *)
(* ===================================================================== *)

From Stdlib Require Import Lqa.

(** ** Topology *)

Section BankFormula.
Import Topology.
Local Open Scope nat_scope.

Variable c : config.

Lemma find_bank_first (ch : Z) (banks : list (list nat)) :
  forall start k indices,
    nth_error banks k = Some indices ->
    index_in ch indices = true ->
    (forall k' l, k' < k -> nth_error banks k' = Some l ->
                  index_in ch l = false) ->
    find_bank ch start banks = Some (start + k).
Proof.
  induction banks as [| l rest IH]; intros start [| k] indices Hn Hin Hbefore;
    cbn in *; try discriminate.
  - injection Hn as ->. rewrite Hin. now rewrite Nat.add_0_r.
  - rewrite (Hbefore 0 l) by (auto; lia).
    rewrite (IH (S start) k indices Hn Hin).
    + f_equal. lia.
    + intros k' l' Hk' Hl'. apply (Hbefore (S k') l'); [lia | exact Hl'].
Qed.

(** A position that lies in the list of bank [b] has [b] as the quotient of
    its offset inside the battery by the bank width. *)
Lemma bank_of_position (b i : nat) :
  b < num_series_banks c ->
  In i (flat_map (bank_slice c b) (seq 0 (number_of_parallel_batteries c))) ->
  (i mod sensors_per_battery c) / sensors_per_bank c = b.
Proof.
  intros Hb Hin. apply in_flat_map in Hin. destruct Hin as [bat [_ Hin]].
  unfold bank_slice in Hin. apply in_seq in Hin.
  unfold sensors_per_battery in *.
  set (N := num_series_banks c) in *. set (spb := sensors_per_bank c) in *.
  assert (Hspb : spb <> 0) by lia.
  pose (r := i - (bat * (N * spb) + b * spb)).
  assert (Hr : r < spb) by (unfold r; lia).
  assert (Hle : (b + 1) * spb <= N * spb) by (apply Nat.mul_le_mono_r; lia).
  assert (Hmod : i mod (N * spb) = b * spb + r).
  { symmetry. apply (Nat.mod_unique i (N * spb) bat); unfold r; lia. }
  rewrite Hmod. symmetry.
  apply (Nat.div_unique (b * spb + r) spb b r); lia.
Qed.

End BankFormula.

(** [X1]: for every channel inside the range, [get_bank_for_channel] gives
    the bank in closed form: the offset of the channel inside its battery,
    divided by the number of sensors per bank, plus one; it lies between 1
    and [num_series_banks]. *)
Theorem bank_of_channel_formula (c : Topology.config) (i : nat) :
  (i < Topology.total_channels c)%nat ->
  Topology.get_bank_for_channel (Topology.bank_sensor_indices c)
                                (Z.of_nat (i + 1))
  = Some ((i mod Topology.sensors_per_battery c)
            / Topology.sensors_per_bank c + 1)%nat
  /\ ((i mod Topology.sensors_per_battery c) / Topology.sensors_per_bank c
      < Topology.num_series_banks c)%nat.
Proof.
  intros Hi.
  destruct (position_in_some_bank c i Hi) as [l [Hl Hil]].
  unfold Topology.bank_sensor_indices in Hl.
  apply in_map_iff in Hl. destruct Hl as [b [<- Hb]]. apply in_seq in Hb.
  assert (Hbank : ((i mod Topology.sensors_per_battery c)
                     / Topology.sensors_per_bank c = b)%nat)
    by (apply bank_of_position; [lia | exact Hil]).
  rewrite Hbank. split; [| lia].
  unfold Topology.get_bank_for_channel.
  replace (b + 1)%nat with (1 + b)%nat by lia.
  apply find_bank_first
    with (indices := flat_map (Topology.bank_slice c b)
                       (seq 0 (Topology.number_of_parallel_batteries c))).
  - unfold Topology.bank_sensor_indices.
    rewrite nth_error_map, nth_error_seq by lia. reflexivity.
  - apply index_in_spec. exists i. split; [exact Hil | lia].
  - intros k' l' Hk' Hl'.
    unfold Topology.bank_sensor_indices in Hl'.
    rewrite nth_error_map, nth_error_seq in Hl' by lia.
    cbn in Hl'. injection Hl' as <-.
    destruct (Topology.index_in _ _) eqn:E; [| reflexivity].
    apply index_in_spec in E. destruct E as [i' [Hi' Heq]].
    assert (i' = i) by lia. subst i'.
    apply bank_of_position in Hi'; [| lia]. lia.
Qed.

Lemma bank_of_channel_formula_witness :
  Topology.get_bank_for_channel
    (Topology.bank_sensor_indices (Topology.mkConfig 3 8 2)) 33
  = Some 2%nat.
Proof.
  apply (bank_of_channel_formula (Topology.mkConfig 3 8 2) 32).
  vm_compute. lia.
Defined.

(** [X2]: the battery number and the local channel that
    [get_battery_and_local_ch] returns give the channel back:
    [ch = (battery - 1) * 24 + local], with the local channel between 1 and
    24, and a battery number of at least 1 for every channel from 1 on. *)
Theorem channel_from_battery_and_local (ch : Z) :
  let '(bat_id, local_ch) := Topology.get_battery_and_local_ch ch in
  (ch = (bat_id - 1) * 24 + local_ch
   /\ 1 <= local_ch <= 24
   /\ (1 <= ch -> 1 <= bat_id))%Z.
Proof.
  unfold Topology.get_battery_and_local_ch. cbv zeta.
  pose proof (Z.div_mod (ch - 1) 24 ltac:(lia)) as Hdm.
  pose proof (Z.mod_pos_bound (ch - 1) 24 ltac:(lia)) as Hm.
  split; [lia |]. split; [lia |].
  intros Hch. assert (0 <= (ch - 1) / 24)%Z by (apply Z.div_pos; lia). lia.
Qed.

(** ** Temperature bus client *)

Lemma time_sleep_slept (limit secs : Q) :
  0 <= secs <= limit ->
  secs * 1000000000 < 9223372036854775808 ->
  Modbus.time_sleep limit secs = Modbus.Slept.
Proof.
  intros [Hlo Hhi] Hfit. unfold Modbus.time_sleep. cbv zeta.
  assert (H1 : Qle_bool 9223372036854775808 (secs * 1000000000) = false).
  { destruct (Qle_bool _ _) eqn:E; [| reflexivity].
    apply Qle_bool_iff in E. exfalso. apply (Qlt_not_le _ _ Hfit E). }
  assert (H2 : Qle_bool (-9223372036854775808) (secs * 1000000000) = true).
  { apply Qle_bool_iff. apply Qle_trans with 0; [discriminate |].
    apply Qmult_le_0_compat; [exact Hlo | discriminate]. }
  apply Qle_bool_iff in Hlo, Hhi. rewrite H1, H2, Hlo, Hhi. reflexivity.
Qed.

Lemma time_sleep_negative (limit secs : Q) :
  secs < 0 ->
  -9223372036854775808 <= secs * 1000000000 ->
  Modbus.time_sleep limit secs = Modbus.SleepValueError.
Proof.
  intros Hneg Hfit. unfold Modbus.time_sleep. cbv zeta.
  assert (H1 : Qle_bool 9223372036854775808 (secs * 1000000000) = false).
  { destruct (Qle_bool _ _) eqn:E; [| reflexivity].
    apply Qle_bool_iff in E. exfalso.
    assert (H : secs * 1000000000 <= 0).
    { setoid_replace 0 with (0 * 1000000000) by reflexivity.
      apply Qmult_le_compat_r; [apply Qlt_le_weak, Hneg | discriminate]. }
    apply (Qle_not_lt _ _ (Qle_trans _ _ _ E H)). reflexivity. }
  assert (H3 : Qle_bool 0 secs = false).
  { destruct (Qle_bool 0 secs) eqn:E; [| reflexivity].
    apply Qle_bool_iff in E. exfalso. apply (Qlt_not_le _ _ Hneg E). }
  apply Qle_bool_iff in Hfit. rewrite H1, Hfit, H3. reflexivity.
Qed.

(** The back-off sleep of attempt [k] returns when the power is not
    negative, does not reach 2^63 ns and lies within the limit of the
    operating system. *)
Lemma backoff_slept (l : Modbus.link) (r : Modbus.request) (k : nat) :
  (0 <= Modbus.retry_backoff_base r ^ Z.of_nat k < 9223372037)%Z ->
  inject_Z (Modbus.retry_backoff_base r ^ Z.of_nat k)
  <= Modbus.sleep_limit l ->
  Modbus.backoff l r k = Modbus.Slept.
Proof.
  intros [Hlo Hhi] Hlimit. unfold Modbus.backoff.
  apply time_sleep_slept.
  - split; [| exact Hlimit].
    change 0 with (inject_Z 0). now rewrite <- Zle_Qle.
  - change 1000000000 with (inject_Z 1000000000).
    change 9223372036854775808 with (inject_Z 9223372036854775808).
    rewrite <- inject_Z_mult, <- Zlt_Qlt. lia.
Qed.

Lemma build_query_sendable (r : Modbus.request) :
  sendable r -> exists query, Modbus.build_query r = Some query.
Proof.
  intros [[H1 H2] [H3 H4]]. unfold Modbus.build_query.
  apply Z.leb_le in H1, H3. apply Z.ltb_lt in H2, H4.
  rewrite H1, H2, H3, H4. cbn. eauto.
Qed.

Lemma build_query_unsendable (r : Modbus.request) :
  ~ sendable r -> Modbus.build_query r = None.
Proof.
  intros Hno. unfold Modbus.build_query.
  destruct (_ && _) eqn:E; [| reflexivity].
  exfalso. apply Hno. unfold sendable.
  repeat (apply andb_prop in E; destruct E as [E ?]).
  rewrite ?Z.leb_le, ?Z.ltb_lt in *. lia.
Qed.

Section ClientFacts.
Variable l : Modbus.link.
Variable r : Modbus.request.

Lemma attempts_bound (remaining : nat) :
  forall attempt network_retry_count result n,
    Modbus.attempts l r remaining attempt network_retry_count
    = Some (result, n) ->
    (attempt <= n <= attempt + remaining)%nat
    /\ (0 < remaining -> attempt < n)%nat.
Proof.
  induction remaining as [| rest IH]; intros attempt nrc result n;
    cbn [Modbus.attempts]; intros H.
  - injection H as _ <-. split; [lia | intros H; lia].
  - assert (Hrec : forall nrc',
              Modbus.attempts l r rest (S attempt) nrc' = Some (result, n) ->
              (attempt <= n <= attempt + S rest)%nat
              /\ (0 < S rest -> attempt < n)%nat).
    { intros nrc' H'. destruct (IH _ _ _ _ H') as [Hb _].
      split; [lia | intros _; lia]. }
    destruct (Modbus.attempt_body l r attempt);
      repeat match type of H with
             | context [if ?b then _ else _] => destruct b
             | context [match Modbus.backoff ?x ?y ?z with _ => _ end] =>
                 destruct (Modbus.backoff x y z)
             end;
      try discriminate;
      try (injection H as _ <-; split; [lia | intros _; lia]);
      eapply Hrec; exact H.
Qed.

Lemma attempts_exhaust (n : nat) :
  Modbus.max_retries r = Z.of_nat n ->
  (forall k, (k < n)%nat -> retried l r k) ->
  (forall k, (k < n)%nat -> Modbus.probe_at l k = true) ->
  (forall k, (k + 1 < n)%nat -> Modbus.backoff l r k = Modbus.Slept) ->
  forall remaining attempt network_retry_count,
    (0 < remaining)%nat -> (attempt + remaining = n)%nat ->
    Modbus.attempts l r remaining attempt network_retry_count
    = Some (Modbus.ErrorText
              (Modbus.error_message
                 (Modbus.FailedAfter (Modbus.max_retries r)
                                     (Modbus.slave_addr r))),
            n).
Proof.
  intros Hmax Hfail Hprobe Hsleep.
  induction remaining as [| rest IH]; intros attempt nrc Hpos Hsum; [lia |].
  cbn [Modbus.attempts].
  assert (Hk : (attempt < n)%nat) by lia.
  rewrite (Hprobe attempt Hk).
  destruct (Z.ltb_spec (Z.of_nat attempt) (Modbus.max_retries r - 1))
    as [Hlt | Hge].
  - assert (Hrest : (0 < rest)%nat) by lia.
    rewrite (Hsleep attempt) by lia.
    destruct (Hfail attempt Hk) as [-> | ->];
      apply IH; lia.
  - assert (attempt = (n - 1)%nat) by lia.
    destruct (Hfail attempt Hk) as [-> | ->]; do 3 f_equal; lia.
Qed.

Lemma attempts_recover (k : nat) (result : Modbus.read_result) :
  (Z.of_nat k < Modbus.max_retries r)%Z ->
  (forall j, (j < k)%nat ->
     retried l r j /\ Modbus.probe_at l j = true
     /\ Modbus.backoff l r j = Modbus.Slept) ->
  Modbus.attempt_body l r k = Modbus.Returned result ->
  forall remaining attempt network_retry_count,
    (attempt <= k)%nat -> (k < attempt + remaining)%nat ->
    Modbus.attempts l r remaining attempt network_retry_count
    = Some (result, S k).
Proof.
  intros Hk Hbefore Hres.
  induction remaining as [| rest IH]; intros attempt nrc Hle Hlt; [lia |].
  cbn [Modbus.attempts].
  destruct (Nat.eq_dec attempt k) as [-> | Hne].
  - rewrite Hres. reflexivity.
  - assert (Hj : (attempt < k)%nat) by lia.
    destruct (Hbefore attempt Hj) as [Hretried [Hprobe Hsleep]].
    rewrite Hprobe, Hsleep.
    assert (Hz : (Z.of_nat attempt <? Modbus.max_retries r - 1)%Z = true)
      by (apply Z.ltb_lt; lia).
    rewrite Hz.
    destruct Hretried as [-> | ->]; apply IH; lia.
Qed.

End ClientFacts.

Lemma registers_length (n : nat) :
  forall data, length data = (2 * n)%nat ->
               length (Modbus.registers data) = n.
Proof.
  induction n as [| n IH]; intros data Hlen.
  - destruct data; [reflexivity | discriminate].
  - destruct data as [| hi [| lo rest]]; cbn in Hlen; try lia.
    cbn [Modbus.registers length]. rewrite IH; [reflexivity | lia].
Qed.

(** [X3]: a response made of the slave address, function code 3, the byte
    count [2 * num_channels], that many data bytes and the checksum of all
    of these is accepted by the validation of [read_ntc_sensors]: it yields
    exactly [num_channels] readings, the big-endian signed 16-bit registers
    of the data divided by the scaling factor. *)
Theorem full_frame_decodes (r : Modbus.request) (data : list byte) :
  (0 <= Modbus.slave_addr r < 256)%Z ->
  (0 <= Modbus.num_channels r)%Z ->
  (2 * Modbus.num_channels r < 256)%Z ->
  length data = (2 * Z.to_nat (Modbus.num_channels r))%nat ->
  ~ Modbus.scaling_factor r == 0 ->
  Modbus.validate r
    (Crc.append_crc
       ([Crc.byte_of_Z (Modbus.slave_addr r); x03;
         Crc.byte_of_Z (2 * Modbus.num_channels r)] ++ data))
  = Modbus.Returned
      (Modbus.Temperatures
         (map (fun v => inject_Z v / Modbus.scaling_factor r)
              (Modbus.registers data)))
  /\ length (Modbus.registers data) = Z.to_nat (Modbus.num_channels r).
Proof.
  intros Haddr Hn0 Hn Hlen Hscale.
  split; [| now apply registers_length].
  set (header := [Crc.byte_of_Z (Modbus.slave_addr r); x03;
                  Crc.byte_of_Z (2 * Modbus.num_channels r)]).
  unfold Modbus.validate, Crc.append_crc.
  set (payload := header ++ data).
  assert (Hvalid : Crc.crc_valid (payload ++ Crc.modbus_crc payload) = true).
  { unfold Crc.crc_valid.
    destruct (split_frame payload (Crc.modbus_crc payload) eq_refl)
      as [-> ->].
    now apply bytes_eqb_eq. }
  rewrite Hvalid. cbn [negb].
  assert (Hlong : (length (payload ++ Crc.modbus_crc payload) <? 5)%nat
                  = false).
  { apply Nat.ltb_ge. rewrite length_app. unfold payload.
    rewrite length_app. cbn. lia. }
  rewrite Hlong.
  unfold payload, header. cbn [app nth skipn].
  rewrite !byte_of_to_Z by lia.
  rewrite Z.eqb_refl. cbn [negb].
  change (Crc.byte_to_Z x03) with 3%Z. cbn [Z.eqb Pos.eqb negb].
  rewrite (Z.mul_comm (Modbus.num_channels r) 2), Z.eqb_refl. cbn [negb].
  assert (Hdata : firstn (Z.to_nat (2 * Modbus.num_channels r))
                         (data ++ Crc.modbus_crc
                                    (Crc.byte_of_Z (Modbus.slave_addr r)
                                       :: x03
                                       :: Crc.byte_of_Z
                                            (2 * Modbus.num_channels r)
                                       :: data))
                  = data).
  { replace (Z.to_nat (2 * Modbus.num_channels r))
      with (length data + 0)%nat by lia.
    rewrite firstn_app_2. cbn. apply app_nil_r. }
  rewrite Hdata.
  destruct (Modbus.registers data) as [| v rest]; [reflexivity |].
  destruct (Qeq_bool (Modbus.scaling_factor r) 0) eqn:E; [| reflexivity].
  apply Qeq_bool_iff in E. contradiction.
Qed.

Lemma full_frame_decodes_witness :
  Modbus.validate (Modbus.mkRequest 3 100 3 1 1 (1 # 4))
                  (Demo.answer 1 [2300; 2500; 2700]%Z)
  = Modbus.Returned (Modbus.Temperatures [23.00; 25.00; 27.00]).
Proof.
  apply (full_frame_decodes (Modbus.mkRequest 3 100 3 1 1 (1 # 4))
           [x08; xfc; x09; xc4; x0a; x8c]).
  - vm_compute. split; [discriminate | reflexivity].
  - vm_compute. discriminate.
  - vm_compute. reflexivity.
  - reflexivity.
  - vm_compute. discriminate.
Defined.

(** [X4]: for a request that can be sent (a slave address that is a byte,
    a channel count that fits two bytes), when the wait of [query_delay]
    returns, a response with a valid checksum and the right
    slave address whose function code is not 3 and has the error bit
    [0x80] set ends [read_ntc_sensors] on that first attempt: the result
    is the text with the exception code (the third byte) and the slave
    address, and no retry is made, whatever [max_retries] allows. *)
Theorem exception_response_is_final (l : Modbus.link) (r : Modbus.request)
        (response : list byte) :
  sendable r ->
  Modbus.time_sleep (Modbus.sleep_limit l) (Modbus.query_delay r)
  = Modbus.Slept ->
  (1 <= Modbus.max_retries r)%Z ->
  Modbus.exchange_at l 0 = Modbus.Received response ->
  (5 <= length response)%nat ->
  Crc.crc_valid response = true ->
  Crc.byte_to_Z (nth 0 response x00) = Modbus.slave_addr r ->
  Crc.byte_to_Z (nth 1 response x00) <> 3%Z ->
  Z.land (Crc.byte_to_Z (nth 1 response x00)) 0x80 <> 0%Z ->
  Modbus.read_ntc_sensors l r
  = Some (Modbus.ErrorText
            (Modbus.error_message
               (Modbus.ModbusException (Crc.byte_to_Z (nth 2 response x00))
                                       (Modbus.slave_addr r))),
          1%nat).
Proof.
  intros Hsend Hdelay Hmax Hex Hlen Hcrc Hslave Hfunc Hbit.
  unfold Modbus.read_ntc_sensors.
  destruct (build_query_sendable r Hsend) as [query ->]. cbn [bind].
  apply (attempts_recover l r 0).
  - lia.
  - intros j Hj. lia.
  - unfold Modbus.attempt_body.
    rewrite Hex, Hdelay. unfold Modbus.validate.
    apply Nat.ltb_ge in Hlen. rewrite Hlen, Hcrc, Hslave, Z.eqb_refl.
    apply Z.eqb_neq in Hfunc, Hbit. rewrite Hfunc, Hbit. reflexivity.
  - lia.
  - lia.
Qed.

Lemma exception_response_is_final_witness :
  Modbus.read_ntc_sensors
    (Modbus.mkLink
       (fun _ => Modbus.Received (Crc.append_crc [x01; x83; x02]))
       (fun _ => true) 3600)
    (Modbus.mkRequest 3 100 3 1 1 (1 # 4))
  = Some (Modbus.ErrorText "Error: Modbus exception code 2 for slave 1",
          1%nat).
Proof.
  apply (exception_response_is_final
           (Modbus.mkLink
              (fun _ => Modbus.Received (Crc.append_crc [x01; x83; x02]))
              (fun _ => true) 3600)
           (Modbus.mkRequest 3 100 3 1 1 (1 # 4))
           (Crc.append_crc [x01; x83; x02])).
  - split; cbn; lia.
  - vm_compute. reflexivity.
  - vm_compute. discriminate.
  - reflexivity.
  - vm_compute. lia.
  - vm_compute. reflexivity.
  - reflexivity.
  - vm_compute. discriminate.
  - vm_compute. discriminate.
Defined.

(** [X5]: for a request that can be sent and every [max_retries = n >= 1],
    if each of the [n] attempts ends in a socket error or a validation
    error, the connectivity probe succeeds after each and the back-off
    sleeps between them return, [read_ntc_sensors] makes exactly [n]
    attempts and returns the text "Failed after n attempts" with the slave
    address. *)
Theorem retries_are_exhausted (l : Modbus.link) (r : Modbus.request)
        (n : nat) :
  sendable r ->
  Modbus.max_retries r = Z.of_nat n ->
  (1 <= n)%nat ->
  (forall k, (k < n)%nat -> retried l r k) ->
  (forall k, (k < n)%nat -> Modbus.probe_at l k = true) ->
  (forall k, (k + 1 < n)%nat -> Modbus.backoff l r k = Modbus.Slept) ->
  Modbus.read_ntc_sensors l r
  = Some (Modbus.ErrorText
            (Modbus.error_message
               (Modbus.FailedAfter (Modbus.max_retries r)
                                   (Modbus.slave_addr r))),
          n).
Proof.
  intros Hsend Hmax Hn Hfail Hprobe Hsleep. unfold Modbus.read_ntc_sensors.
  destruct (build_query_sendable r Hsend) as [query ->]. cbn [bind].
  apply (attempts_exhaust l r n Hmax Hfail Hprobe Hsleep);
    rewrite Hmax; lia.
Qed.

Lemma retries_are_exhausted_witness :
  Modbus.read_ntc_sensors
    (Modbus.mkLink
       (fun k => match k with
                 | O => Modbus.SocketError
                 | _ => Modbus.Received [x01; x03]
                 end)
       (fun _ => true) 3600)
    (Modbus.mkRequest 24 100 5 9 2 (1 # 4))
  = Some (Modbus.ErrorText "Error: Failed after 5 attempts for slave 9",
          5%nat).
Proof.
  apply (retries_are_exhausted
           (Modbus.mkLink
              (fun k => match k with
                        | O => Modbus.SocketError
                        | _ => Modbus.Received [x01; x03]
                        end)
              (fun _ => true) 3600)
           (Modbus.mkRequest 24 100 5 9 2 (1 # 4)) 5).
  - split; cbn; lia.
  - reflexivity.
  - lia.
  - intros [| k] _; [left | right]; reflexivity.
  - intros k _. reflexivity.
  - intros k Hk.
    assert (Hcases : k = 0%nat \/ k = 1%nat \/ k = 2%nat \/ k = 3%nat)
      by lia.
    destruct Hcases as [-> | [-> | [-> | ->]]]; vm_compute; reflexivity.
Defined.

(** [X6]: for a request that can be sent, when the first three attempts
    fail and the connectivity probe fails after each of them,
    [read_ntc_sensors] gives up after exactly three attempts with "Network
    unreachable", however many retries [max_retries >= 3] allows; no
    back-off sleep is made on this path. *)
Theorem network_down_gives_up (l : Modbus.link) (r : Modbus.request) :
  sendable r ->
  (3 <= Modbus.max_retries r)%Z ->
  (forall k, (k < 3)%nat -> retried l r k) ->
  (forall k, (k < 3)%nat -> Modbus.probe_at l k = false) ->
  Modbus.read_ntc_sensors l r
  = Some (Modbus.ErrorText
            (Modbus.error_message
               (Modbus.NetworkUnreachable (Modbus.slave_addr r))),
          3%nat).
Proof.
  intros Hsend Hmax Hfail Hprobe. unfold Modbus.read_ntc_sensors.
  destruct (build_query_sendable r Hsend) as [query ->]. cbn [bind].
  destruct (Z.to_nat (Modbus.max_retries r)) as [| [| [| m]]] eqn:E; try lia.
  cbn [Modbus.attempts].
  rewrite !Hprobe by lia.
  destruct (Hfail 0%nat ltac:(lia)) as [-> | ->];
    destruct (Hfail 1%nat ltac:(lia)) as [-> | ->];
    destruct (Hfail 2%nat ltac:(lia)) as [-> | ->]; reflexivity.
Qed.

Lemma network_down_gives_up_witness :
  Modbus.read_ntc_sensors
    (Modbus.mkLink (fun _ => Modbus.SocketError) (fun _ => false) 3600)
    (Modbus.mkRequest 24 100 10 2 1 (1 # 4))
  = Some (Modbus.ErrorText "Error: Network unreachable for slave 2", 3%nat).
Proof.
  apply (network_down_gives_up
           (Modbus.mkLink (fun _ => Modbus.SocketError) (fun _ => false)
                          3600)
           (Modbus.mkRequest 24 100 10 2 1 (1 # 4))).
  - split; cbn; lia.
  - vm_compute. discriminate.
  - intros k _. left. reflexivity.
  - intros k _. reflexivity.
Defined.

(** [X7]: [read_ntc_sensors] raises before any attempt exactly when the
    request cannot be sent; whenever it returns, it has made at most
    [max_retries] attempts, and at least one if [max_retries >= 1]; for a
    request that can be sent and [max_retries <= 0] it makes none and
    returns "All retries exhausted". *)
Theorem attempts_are_bounded (l : Modbus.link) (r : Modbus.request) :
  (~ sendable r -> Modbus.read_ntc_sensors l r = None)
  /\ (forall result n,
        Modbus.read_ntc_sensors l r = Some (result, n) ->
        sendable r
        /\ (n <= Z.to_nat (Modbus.max_retries r))%nat
        /\ ((1 <= Modbus.max_retries r)%Z -> (1 <= n)%nat))
  /\ (sendable r -> (Modbus.max_retries r <= 0)%Z ->
      Modbus.read_ntc_sensors l r
      = Some (Modbus.ErrorText
                (Modbus.error_message
                   (Modbus.AllRetriesExhausted (Modbus.slave_addr r))),
              0%nat)).
Proof.
  unfold Modbus.read_ntc_sensors. split; [| split].
  - intros Hno. now rewrite (build_query_unsendable r Hno).
  - intros result n H. bind_inv H.
    assert (Hsend : sendable r).
    { unfold Modbus.build_query in E. unfold sendable.
      destruct (_ && _) eqn:Eb; [| discriminate].
      repeat (apply andb_prop in Eb; destruct Eb as [Eb ?]).
      rewrite ?Z.leb_le, ?Z.ltb_lt in *. lia. }
    destruct (attempts_bound l r _ _ _ _ _ H) as [[_ Hle] Hpos].
    split; [exact Hsend |]. split; [lia |].
    intros Hmax. assert (0 < Z.to_nat (Modbus.max_retries r))%nat by lia.
    specialize (Hpos H0). lia.
  - intros Hsend Hmax.
    destruct (build_query_sendable r Hsend) as [query ->]. cbn [bind].
    replace (Z.to_nat (Modbus.max_retries r)) with 0%nat by lia.
    reflexivity.
Qed.

Lemma attempts_are_bounded_witness :
  Modbus.read_ntc_sensors Modbus.always_timeout
    (Modbus.mkRequest 24 100 3 300 1 (1 # 4)) = None
  /\ Modbus.read_ntc_sensors Modbus.always_timeout
       (Modbus.mkRequest 24 100 0 7 1 (1 # 4))
     = Some (Modbus.ErrorText "Error: All retries exhausted for slave 7",
             0%nat).
Proof.
  destruct (attempts_are_bounded Modbus.always_timeout
              (Modbus.mkRequest 24 100 3 300 1 (1 # 4))) as [Hraise _].
  destruct (attempts_are_bounded Modbus.always_timeout
              (Modbus.mkRequest 24 100 0 7 1 (1 # 4))) as [_ [_ Hnone]].
  split.
  - apply Hraise. unfold sendable. cbn. lia.
  - apply Hnone; [split; cbn; lia | cbn; lia].
Defined.

(** [X8]: for a request that can be sent, if the attempts before attempt
    [k] fail with the probe up and the back-off sleep after each of them
    returns, and attempt [k], still within [max_retries], receives (after
    the wait of [query_delay] has returned) a frame that the validation
    accepts, [read_ntc_sensors] returns the readings of that frame after
    exactly [k + 1] attempts. *)
Theorem read_recovers (l : Modbus.link) (r : Modbus.request) (k : nat)
        (response : list byte) (raw_temperatures : list Q) :
  sendable r ->
  Modbus.time_sleep (Modbus.sleep_limit l) (Modbus.query_delay r)
  = Modbus.Slept ->
  (Z.of_nat k < Modbus.max_retries r)%Z ->
  (forall j, (j < k)%nat ->
     retried l r j /\ Modbus.probe_at l j = true
     /\ Modbus.backoff l r j = Modbus.Slept) ->
  Modbus.exchange_at l k = Modbus.Received response ->
  Modbus.validate r response
  = Modbus.Returned (Modbus.Temperatures raw_temperatures) ->
  Modbus.read_ntc_sensors l r
  = Some (Modbus.Temperatures raw_temperatures, S k).
Proof.
  intros Hsend Hdelay Hk Hbefore Hex Hvalid. unfold Modbus.read_ntc_sensors.
  destruct (build_query_sendable r Hsend) as [query ->]. cbn [bind].
  apply (attempts_recover l r k); try lia.
  - exact Hbefore.
  - unfold Modbus.attempt_body. rewrite Hex, Hdelay. exact Hvalid.
Qed.

Lemma read_recovers_witness :
  Modbus.read_ntc_sensors
    (Modbus.mkLink
       (fun k => match k with
                 | 2%nat => Modbus.Received (Demo.answer 1 [2300; 2500; 2700]%Z)
                 | _ => Modbus.SocketError
                 end)
       (fun _ => true) 3600)
    (Modbus.mkRequest 3 100 3 1 1 (1 # 4))
  = Some (Modbus.Temperatures [23.00; 25.00; 27.00], 3%nat).
Proof.
  apply (read_recovers
           (Modbus.mkLink
              (fun k => match k with
                        | 2%nat =>
                            Modbus.Received (Demo.answer 1 [2300; 2500; 2700]%Z)
                        | _ => Modbus.SocketError
                        end)
              (fun _ => true) 3600)
           (Modbus.mkRequest 3 100 3 1 1 (1 # 4)) 2
           (Demo.answer 1 [2300; 2500; 2700]%Z)).
  - split; cbn; lia.
  - vm_compute. reflexivity.
  - vm_compute. reflexivity.
  - intros [| [| j]] Hj; try lia;
      (split; [left; reflexivity |
               split; [reflexivity | vm_compute; reflexivity]]).
  - reflexivity.
  - vm_compute. reflexivity.
Defined.

(** ** Voltage acquisition *)

Section VoltageFacts.
Variable s : settings.

(** In exact arithmetic the two samples of a round are equally far from
    their average, and the filter keeps both or neither. In binary64 it
    can keep one of them alone: with the divider ratio 0.01592 and the
    calibration factor 1.0, of the raw codes 31626 and 28614 only the
    second passes. *)
Example binary64_filter_can_keep_one_sample :
  map (Binary64.within_5_percent
         (Binary64.average
            (Binary64.to_volts (Binary64.decimal 1592 100000)
                               (Binary64.of_int 1) 31626)
            (Binary64.to_volts (Binary64.decimal 1592 100000)
                               (Binary64.of_int 1) 28614)))
      (map (Binary64.to_volts (Binary64.decimal 1592 100000)
                              (Binary64.of_int 1))
           [31626; 28614]%Z)
  = [false; true].
Proof. vm_compute. reflexivity. Qed.

Lemma sample_round_some (bank_id : nat) (c0 c1 : Voltage.conversion) (v : Q) :
  Voltage.sample_round s bank_id c0 c1 = Some (Some v) ->
  exists r0 r1,
    Voltage.to_volts s bank_id (Voltage.raw_adc_of bank_id c0) = Some r0
    /\ Voltage.to_volts s bank_id (Voltage.raw_adc_of bank_id c1) = Some r1
    /\ filter (Voltage.within_5_percent (Voltage.mean [r0; r1])) [r0; r1]
       <> []
    /\ v = Voltage.mean
             (filter (Voltage.within_5_percent (Voltage.mean [r0; r1]))
                     [r0; r1]).
Proof.
  unfold Voltage.sample_round. intros H. bind_inv H. bind_inv H.
  exists v0, v1. split; [exact E |]. split; [exact E0 |].
  destruct (filter _ _) as [| x rest]; [discriminate H |].
  injection H as <-. split; [discriminate | reflexivity].
Qed.

End VoltageFacts.



(** ** Actuators *)

(** [X10]: [set_relay_connection] writes only to the relay pins 0 to 3; and
    whenever it drives a pin high, the pair has an entry in the relay
    mapping that lists this pin, both banks lie inside the configuration
    unless one of them is 0, and the first four writes drove all four pins
    low. *)
Theorem relay_writes_are_guarded (s : settings) (high low : nat) :
  let w := Actuator.set_relay_connection s high low in
  Forall (fun a => exists relay level,
                     a = RelayPin relay level /\ (relay < 4)%nat) w
  /\ forall relay,
       In (RelayPin relay true) w ->
       (exists relays, relay_mapping s high low = Some relays
                       /\ In (Z.of_nat relay) relays)
       /\ (high <> 0%nat -> low <> 0%nat ->
           (high <= NUM_BANKS s)%nat /\ (low <= NUM_BANKS s)%nat)
       /\ firstn 4 w = Actuator.all_relays_low.
Proof.
  cbv zeta. unfold Actuator.set_relay_connection.
  assert (Hlow : Forall (fun a => exists relay level,
                           a = RelayPin relay level /\ (relay < 4)%nat)
                        Actuator.all_relays_low).
  { unfold Actuator.all_relays_low. cbn.
    repeat constructor; eexists; eexists; split; try reflexivity; lia. }
  assert (Hno : forall relay, ~ In (RelayPin relay true) Actuator.all_relays_low).
  { intros relay H. cbn in H.
    repeat (destruct H as [H | H]; [discriminate |]). exact H. }
  destruct (negb (high =? 0)%nat && negb (low =? 0)%nat
            && ((NUM_BANKS s <? high)%nat || (NUM_BANKS s <? low)%nat)) eqn:Hg.
  - split; [constructor | intros relay []].
  - destruct ((high =? 0)%nat && (low =? 0)%nat) eqn:Hz.
    + split; [exact Hlow |]. intros relay H. destruct (Hno relay H).
    + destruct (relay_mapping s high low) as [relays |] eqn:Hm.
      * split.
        -- apply Forall_app. split; [exact Hlow |].
           apply Forall_forall. intros a Ha.
           apply in_flat_map in Ha. destruct Ha as [x [_ Ha]].
           destruct ((0 <=? x)%Z && (x <? 4)%Z) eqn:Hx; [| destruct Ha].
           destruct Ha as [<- | []].
           apply andb_prop in Hx. destruct Hx as [H0 H4].
           apply Z.leb_le in H0. apply Z.ltb_lt in H4.
           eexists. eexists. split; [reflexivity | lia].
        -- intros relay H. apply in_app_or in H.
           destruct H as [H | H]; [destruct (Hno relay H) |].
           apply in_flat_map in H. destruct H as [x [Hx H]].
           destruct ((0 <=? x)%Z && (x <? 4)%Z) eqn:Hr; [| destruct H].
           destruct H as [H | []]. injection H as <-.
           apply andb_prop in Hr. destruct Hr as [H0 _].
           apply Z.leb_le in H0.
           split; [exists relays; split; [reflexivity |];
                   now rewrite Z2Nat.id by lia |].
           split; [| reflexivity].
           intros Hh Hl.
           apply Nat.eqb_neq in Hh, Hl. rewrite Hh, Hl in Hg. cbn in Hg.
           apply orb_false_iff in Hg. destruct Hg as [G1 G2].
           apply Nat.ltb_ge in G1, G2. auto.
      * split; [constructor | intros relay []].
Qed.

(** ** Balance controller *)

Section RunFacts.
Variable s : settings.

Lemma replay_app (w1 w2 : list actuation) (ls : lines) :
  replay (w1 ++ w2) ls = replay w2 (replay w1 ls).
Proof. unfold replay. apply fold_left_app. Qed.

Lemma replay_switch_off (ls : lines) :
  let after :=
    replay (Actuator.control_dcdc_converter false
              ++ Actuator.set_relay_connection s 0 0) ls in
  dcdc_on after = false
  /\ forall relay, (relay < 4)%nat -> relay_high after relay = false.
Proof.
  cbv zeta. split; [reflexivity |].
  intros [| [| [| [| relay]]]] H; try reflexivity. lia.
Qed.

End RunFacts.

(** [X11]: a call of [balance_battery_voltages] that returns either wrote
    nothing (it was skipped for temperature alerts or a destination at 0 V)
    or ran to completion, and then it switched the converter on, and after
    its writes the converter is off and the four relay pins are low,
    whatever the levels were before and whatever the verdict is. *)
Theorem balancing_run_switches_off (s : settings) (r : Balance.rig)
        (st : state) (high low : nat) (temps_alerts : list alert)
        (is_heating : bool) (res : Balance.result) (before : lines) :
  Balance.balance_battery_voltages s r st high low temps_alerts is_heating
  = Some res ->
  (Balance.writes res = []
   /\ (Balance.how res = Balance.SkippedTemperatureAlerts
       \/ Balance.how res = Balance.SkippedZeroDestination))
  \/ ((exists v, Balance.how res = Balance.Completed v)
      /\ In (DcDcRelay true) (Balance.writes res)
      /\ dcdc_on (replay (Balance.writes res) before) = false
      /\ (forall relay, (relay < 4)%nat ->
            relay_high (replay (Balance.writes res) before) relay = false)
      /\ balancing_active (Balance.state_after res) = false
      /\ last_balance_time (Balance.state_after res) = Balance.end_time r).
Proof.
  unfold Balance.balance_battery_voltages. intros H.
  destruct temps_alerts as [| a rest].
  - bind_inv H. bind_inv H.
    destruct (Balance.is_zero v0).
    + injection H as <-. left. cbn. auto.
    + bind_inv H. destruct v1 as [[[vh vl] ht] lt].
      bind_inv H. bind_inv H. bind_inv H.
      right.
      assert (Hw : Balance.writes res
                   = (Actuator.set_relay_connection s high low
                        ++ Actuator.control_dcdc_converter true)
                       ++ Actuator.control_dcdc_converter false
                       ++ Actuator.set_relay_connection s 0 0
                   /\ Balance.how res = Balance.Completed v3
                   /\ balancing_active (Balance.state_after res) = false
                   /\ last_balance_time (Balance.state_after res)
                      = Balance.end_time r).
      { destruct v3; injection H as <-; cbn; auto. }
      destruct Hw as [Hw [Hhow [Hact Htime]]].
      split; [exists v3; exact Hhow |].
      rewrite Hw. split.
      * apply in_or_app. left. apply in_or_app. right. now left.
      * rewrite replay_app.
        destruct (replay_switch_off s
                    (replay (Actuator.set_relay_connection s high low
                               ++ Actuator.control_dcdc_converter true)
                            before)) as [Hd Hr].
        auto.
  - injection H as <-. left. cbn. auto.
Qed.

Lemma balancing_run_switches_off_witness :
  exists res,
    Balance.balance_battery_voltages (Demo.installation 1) (Demo.idle_rig 1)
      (Demo.fresh (Demo.installation 1)) 1 2 [] false = Some res
    /\ dcdc_on (replay (Balance.writes res) (mkLines (fun _ => true) true))
       = false.
Proof.
  eexists. split; [vm_compute; reflexivity |].
  edestruct (balancing_run_switches_off (Demo.installation 1)
               (Demo.idle_rig 1) (Demo.fresh (Demo.installation 1)) 1 2 []
               false) as [[Hw _] | [_ [_ [Hoff _]]]].
  - vm_compute. reflexivity.
  - vm_compute in Hw. discriminate Hw.
  - exact (Hoff).
Defined.

(** ** The poll cycle: gates, alarms and the published snapshot *)

Section GateFacts.
Variable s : settings.

Lemma fan_and_alarm_writes (calibrated_temps : list (option Q))
      (dynamic_alerts temps_alerts all_alerts : list alert)
      (fan alarm : list actuation) (st : state) (vs : list (option Q))
      (alert_needed : bool) :
  cabinet_of s calibrated_temps dynamic_alerts = (temps_alerts, fan) ->
  Issues.check_for_issues s st vs temps_alerts
  = (alert_needed, all_alerts, alarm) ->
  Forall (fun a => touches_balancer a = false) (fan ++ alarm).
Proof.
  unfold cabinet_of, Poll.cabinet_check, Issues.check_for_issues.
  intros Hc Hi. injection Hi as _ _ <-.
  destruct (Qgtb _ _); injection Hc as _ <-; repeat constructor.
Qed.

Lemma balance_frame (r : Balance.rig) (st : state) (high low : nat)
      (temps_alerts : list alert) (is_heating : bool) (res : Balance.result) :
  Balance.balance_battery_voltages s r st high low temps_alerts is_heating
  = Some res ->
  same_history st (Balance.state_after res).
Proof.
  unfold Balance.balance_battery_voltages, same_history. intros H.
  destruct temps_alerts as [| a rest].
  - bind_inv H. bind_inv H.
    destruct (Balance.is_zero v0).
    + injection H as <-. cbn. repeat split.
    + bind_inv H. destruct v1 as [[[vh vl] ht] lt].
      bind_inv H. bind_inv H. bind_inv H.
      destruct v3; injection H as <-; cbn; repeat split.
  - injection H as <-. cbn. repeat split.
Qed.

Lemma balance_decision_frame (e : Poll.cycle_env) (st st' : state)
      (battery_voltages : list Q) (calibrated_temps : list (option Q))
      (temps_alerts : list alert) (alert_needed : bool)
      (w : list actuation) (b : option Balance.ending) :
  Poll.balance_decision s e st battery_voltages calibrated_temps
                        temps_alerts alert_needed = Some (st', w, b) ->
  same_history st st'.
Proof.
  unfold Poll.balance_decision. intros H.
  destruct (_ && negb (balancer_failed st)).
  - destruct battery_voltages as [| first rest]; [discriminate |].
    destruct (balancing_active st || _).
    + bind_inv H. injection H as <- <- <-.
      apply balance_frame in E. exact E.
    + injection H as <- <- <-. unfold same_history. repeat split.
  - injection H as <- <- <-. unfold same_history. repeat split.
Qed.

Lemma voltage_alert_none (i : nat) (v : option Q) :
  Issues.voltage_alert s i v = None <-> voltage_in_range s v.
Proof.
  unfold Issues.voltage_alert, voltage_in_range. split.
  - destruct v as [q |]; [| discriminate].
    destruct (Qeq_bool q 0) eqn:E0; [discriminate |].
    destruct (Qgtb q _) eqn:E1; [discriminate |].
    destruct (Qltb q _) eqn:E2; [discriminate |].
    intros _. exists q. split; [reflexivity |]. split.
    + intros Hq. apply Qeq_bool_iff in Hq. congruence.
    + split.
      * apply Qnot_lt_le. intros Hlt. apply Qgtb_gt in Hlt. congruence.
      * apply Qnot_lt_le. intros Hlt. apply Qltb_lt in Hlt. congruence.
  - intros [q [-> [Hne [Hhi Hlo]]]].
    destruct (Qeq_bool q 0) eqn:E0.
    { apply Qeq_bool_iff in E0. contradiction. }
    destruct (Qgtb q _) eqn:E1.
    { apply Qgtb_gt in E1. exfalso. apply (Qlt_not_le _ _ E1 Hhi). }
    destruct (Qltb q _) eqn:E2.
    { apply Qltb_lt in E2. exfalso. apply (Qlt_not_le _ _ E2 Hlo). }
    reflexivity.
Qed.

Lemma voltage_alerts_nil (vs : list (option Q)) :
  forall i, Issues.voltage_alerts s i vs = []
            <-> Forall (voltage_in_range s) vs.
Proof.
  induction vs as [| v rest IH]; intros i; cbn.
  - split; [constructor | reflexivity].
  - destruct (Issues.voltage_alert s i v) eqn:E.
    + split; [discriminate |]. intros H. inversion H as [| ? ? Hv Hrest].
      apply voltage_alert_none with (i := i) in Hv. congruence.
    + rewrite IH. split.
      * intros H. constructor; [| exact H].
        apply (voltage_alert_none i). exact E.
      * intros H. now inversion H.
Qed.

End GateFacts.

(** [X12]: in a poll cycle that starts without a pending manual request,
    if the cycle needs attention or the rest period since the last
    balancing run has not elapsed, no balancing run is started: no call of
    [balance_battery_voltages], no write to a relay line or the converter,
    and [last_balance_time] stays as it was. *)
Theorem automatic_balancing_is_gated (s : settings) (e : Poll.cycle_env)
        (st : state) (p : Poll.pass) :
  Poll.poll_cycle s e st = Some p ->
  balancing_active st = false ->
  Poll.alert_needed p = true
  \/ ~ BalanceRestPeriodSeconds s
       < Poll.current_time e - last_balance_time st ->
  Poll.balance p = None
  /\ Forall (fun a => touches_balancer a = false) (Poll.writes p)
  /\ last_balance_time (Poll.state_after p) = last_balance_time st.
Proof.
  intros Hp Hidle Hgate. destruct (poll_cycle_stages s e st p Hp).
  rewrite stage_needed in Hgate.
  unfold Poll.balance_decision in stage_balance.
  assert (Hnone : Some (st_balanced, balance_writes, Poll.balance p)
                  = Some (measured s st c calibrated_temps, [], None)).
  { rewrite <- stage_balance.
    destruct (_ && negb (balancer_failed _)); [| reflexivity].
    destruct battery_voltages as [| first rest]; [discriminate |].
    assert (Hactive : balancing_active (measured s st c calibrated_temps)
                      = false) by exact Hidle.
    rewrite Hactive. cbn [orb].
    assert (Hcond : (negb alert_needed
                     && (Poll.any_low_temp_of calibrated_temps
                         || Qgtb (Stats.maximum first rest
                                  - Stats.minimum first rest)
                                 (VoltageDifferenceToBalance s))
                     && Qgtb (Stats.minimum first rest) 0
                     && Qgtb (Poll.current_time e
                              - last_balance_time
                                  (measured s st c calibrated_temps))
                             (BalanceRestPeriodSeconds s)) = false).
    { destruct Hgate as [-> | Hrest]; [reflexivity |].
      destruct (Qgtb (Poll.current_time e - _) _) eqn:E;
        [| now rewrite andb_false_r].
      apply Qgtb_gt in E. contradiction. }
    rewrite Hcond. reflexivity. }
  injection Hnone as -> -> Hb.
  split; [exact Hb |]. split.
  - rewrite stage_writes, app_nil_r.
    apply (fan_and_alarm_writes s _ _ _ _ _ _ _ _ _ stage_cabinet stage_issues).
  - rewrite stage_state. reflexivity.
Qed.

Lemma automatic_balancing_is_gated_witness :
  let s := Demo.installation 2 in
  exists p,
    Poll.poll_cycle s Demo.second_slave_silent (Demo.fresh s) = Some p
    /\ Poll.balance p = None.
Proof.
  cbv zeta. eexists. split; [vm_compute; reflexivity |].
  refine (proj1 (automatic_balancing_is_gated (Demo.installation 2)
                   Demo.second_slave_silent
                   (Demo.fresh (Demo.installation 2)) _ _ _ _)).
  - vm_compute. reflexivity.
  - reflexivity.
  - left. vm_compute. reflexivity.
Defined.

(** [X13]: [check_for_issues] reports "no attention needed" exactly when
    neither the start-up flag nor the balancer latch is set, every bank
    voltage is a reading other than 0 between the low and the high
    threshold, and there is no temperature alert; in that case its alert
    list is empty. It always writes the alarm relay with the value it
    returns. *)
Theorem no_alarm_exactly_when_all_is_well (s : settings) (st : state)
        (vs : list (option Q)) (temps_alerts : list alert) :
  let result := Issues.check_for_issues s st vs temps_alerts in
  (fst (fst result) = false
   <-> startup_failed st = false /\ balancer_failed st = false
       /\ Forall (voltage_in_range s) vs /\ temps_alerts = [])
  /\ (fst (fst result) = false -> snd (fst result) = [])
  /\ snd result = [AlarmRelay (fst (fst result))].
Proof.
  cbv zeta. unfold Issues.check_for_issues. cbn [fst snd].
  assert (Hlen : forall (A : Type) (l : list A),
             negb (length l =? 0)%nat = false <-> l = []).
  { intros A [| x l]; cbn; split; congruence. }
  split; [| split; [| reflexivity]].
  - rewrite !orb_false_iff, !Hlen, voltage_alerts_nil. tauto.
  - rewrite !orb_false_iff, !Hlen.
    intros [[[Hs Hb] Hv] Ht]. rewrite Hs, Hb, Hv, Ht. reflexivity.
Qed.

Section SnapshotFacts.
Variable s : settings.

Lemma static_check_is_not_history (calibrated_temps : list (option Q))
      (bank_medians : list Q) (temps_alerts temps_alerts' : list alert)
      (item : nat * Q) :
  Poll.static_check s calibrated_temps bank_medians temps_alerts item
  = Some temps_alerts' ->
  exists suffix, temps_alerts' = temps_alerts ++ suffix
                 /\ Forall (fun a => history_alert a = false) suffix.
Proof.
  destruct item as [ch raw]. unfold Poll.static_check.
  rewrite check_invalid_reading_spec.
  destruct (Qle_bool raw (valid_min s)); intros H.
  - injection H as <-. eexists. split; [reflexivity |].
    repeat constructor.
  - bind_inv H. bind_inv H. bind_inv H. bind_inv H. injection H as <-.
    unfold Anomaly.check_deviation, Anomaly.check_low_temp,
      Anomaly.check_high_temp.
    destruct (Qgtb v0 (high_threshold s)), (Qltb v0 (low_threshold s)),
      (_ || _); cbn; rewrite <- ?app_assoc;
      eexists; split; try reflexivity; try (now rewrite app_nil_r);
      repeat constructor.
Qed.

Lemma read_slaves_alerts (e : Poll.cycle_env) (addrs : list Z) :
  forall i0 temps_alerts raw temps_alerts' raw',
    Poll.read_slaves s e i0 addrs temps_alerts raw
    = Some (temps_alerts', raw') ->
    exists suffix, temps_alerts' = temps_alerts ++ suffix
                   /\ Forall is_slave_failed suffix.
Proof.
  induction addrs as [| addr rest IH]; intros i0 ta raw ta' raw' H.
  - cbn in H. injection H as <- _. exists []. now rewrite app_nil_r.
  - cbn [Poll.read_slaves] in H.
    destruct (Poll.temp_result_of s e i0 addr) as [[l | msg] |];
      cbn [bind] in H; [| | discriminate].
    + apply (IH _ _ _ _ _ H).
    + destruct (IH _ _ _ _ _ H) as [suffix [-> F]].
      exists (SlaveFailed addr msg :: suffix).
      split; [now rewrite <- app_assoc |].
      constructor; [now exists addr, msg | exact F].
Qed.

End SnapshotFacts.

(** [X14]: in the first pass of the loop ([run_count = 0]) the three checks
    that compare with the previous poll are skipped: no abnormal-rise,
    group-lag or sudden-disconnection alert is among the temperature alerts
    of the pass. *)
Theorem first_poll_has_no_history_alerts (s : settings) (e : Poll.cycle_env)
        (st : state) (p : Poll.pass) :
  Poll.poll_cycle s e st = Some p ->
  run_count st = 0%nat ->
  Forall (fun a => history_alert a = false) (Poll.temps_alerts_found p).
Proof.
  intros Hp Hfirst. destruct (poll_cycle_stages s e st p Hp).
  rewrite stage_alerts.
  unfold Poll.dynamic_checks in stage_dynamic.
  assert (Hrc : run_count (set_calib c st) = 0%nat) by exact Hfirst.
  rewrite Hrc in stage_dynamic. cbn in stage_dynamic.
  injection stage_dynamic as <-.
  destruct (read_slaves_alerts s e _ _ _ _ _ _ stage_read) as [s0 [E0 F0]].
  cbn in E0. subst slave_alerts.
  unfold Poll.static_checks in stage_static.
  apply (fold_exn_appends _ (fun a => history_alert a = false) _)
    in stage_static.
  - destruct stage_static as [s1 [-> F1]].
    unfold cabinet_of, Poll.cabinet_check in stage_cabinet.
    assert (Hs0 : Forall (fun a => history_alert a = false) s0).
    { eapply Forall_impl; [| exact F0]. intros a [addr [msg ->]]. reflexivity. }
    destruct (Qgtb _ _); [destruct (existsb _ _) |];
      injection stage_cabinet as <- _;
      repeat (apply Forall_app; split); auto; repeat constructor.
  - intros a item a' _ Hs.
    apply (static_check_is_not_history s _ _ _ _ _ Hs).
Qed.

Lemma first_poll_has_no_history_alerts_witness :
  let s := Demo.installation 2 in
  exists p,
    Poll.poll_cycle s Demo.second_slave_silent (Demo.fresh s) = Some p
    /\ Forall (fun a => history_alert a = false) (Poll.temps_alerts_found p).
Proof.
  cbv zeta. eexists. split; [vm_compute; reflexivity |].
  apply (first_poll_has_no_history_alerts (Demo.installation 2)
           Demo.second_slave_silent (Demo.fresh (Demo.installation 2))).
  - vm_compute. reflexivity.
  - reflexivity.
Defined.

(** [X15]: every pass that runs to its end publishes a snapshot of the
    configured shape: one temperature entry per channel, one voltage and
    one bank summary per series bank; the readings it keeps as "previous"
    for the next pass are the published ones, with one median per bank;
    and [run_count] goes up by one. *)
Theorem snapshot_has_the_configured_shape (s : settings)
        (e : Poll.cycle_env) (st : state) (p : Poll.pass) :
  Poll.poll_cycle s e st = Some p ->
  let st' := Poll.state_after p in
  length (temperatures (web_data st')) = Poll.total_channels s
  /\ length (voltages (web_data st')) = NUM_BANKS s
  /\ length (bank_summaries (web_data st')) = NUM_BANKS s
  /\ previous_temps st' = temperatures (web_data st')
  /\ previous_bank_medians st'
     = map stat_median (bank_summaries (web_data st'))
  /\ run_count st' = S (run_count st)
  /\ alerts (web_data st') = Poll.all_alerts p.
Proof.
  intros Hp. cbv zeta. destruct (poll_cycle_stages s e st p Hp).
  destruct (balance_decision_frame s _ _ _ _ _ _ _ _ _ stage_balance)
    as [_ [Hprev [Hmed [Hrun _]]]].
  rewrite stage_state, stage_all. cbn.
  rewrite Hprev, Hmed, Hrun. cbn.
  unfold Poll.calibrate_temps in stage_calibrated.
  destruct (map_exn_nth _ _ _ stage_calibrated) as [Hlen _].
  unfold Poll.read_voltages in stage_voltages.
  destruct (map_exn_nth _ _ _ stage_voltages) as [Hvlen _].
  rewrite length_seq in Hlen, Hvlen.
  unfold Poll.compute_bank_medians, BANK_SENSOR_INDICES,
    Topology.bank_sensor_indices.
  rewrite !length_map, length_seq.
  repeat split; auto.
Qed.

Lemma snapshot_has_the_configured_shape_witness :
  let s := Demo.installation 2 in
  exists p,
    Poll.poll_cycle s Demo.second_slave_silent (Demo.fresh s) = Some p
    /\ length (temperatures (web_data (Poll.state_after p))) = 6%nat.
Proof.
  cbv zeta. eexists. split; [vm_compute; reflexivity |].
  refine (proj1 (snapshot_has_the_configured_shape (Demo.installation 2)
                   Demo.second_slave_silent
                   (Demo.fresh (Demo.installation 2)) _ _)).
  vm_compute. reflexivity.
Defined.

(** [X16]: in every pass that runs to its end, the published reading of a
    channel is absent exactly when its raw value is not above [valid_min];
    a raw value above [valid_min] is published as the raw value itself
    while the calibration is unset, and as the raw value plus the offset of
    the channel once it is set. *)
Theorem published_reading_of_a_channel (s : settings) (e : Poll.cycle_env)
        (st : state) (p : Poll.pass) (i : nat) (raw : Q) :
  Poll.poll_cycle s e st = Some p ->
  (i < Poll.total_channels s)%nat ->
  nth_error (Poll.raw_temps_read p) i = Some raw ->
  let published := nth_error (temperatures (web_data (Poll.state_after p))) i in
  let c := calib (Poll.state_after p) in
  (published = Some None <-> raw <= valid_min s)
  /\ (valid_min s < raw -> startup_set c = false -> published = Some (Some raw))
  /\ (valid_min s < raw -> startup_set c = true ->
      exists offsets offset,
        startup_offsets c = Some offsets
        /\ nth_error offsets i = Some offset
        /\ published = Some (Some (raw + offset))).
Proof.
  intros Hp Hi Hraw. cbv zeta.
  pose proof (poll_cycle_calib s e st p Hp) as Hc.
  destruct (poll_cycle_stages s e st p Hp).
  rewrite stage_raw in *. rewrite stage_calibrate in Hc. injection Hc as Hc.
  rewrite <- Hc. rewrite stage_state. cbn.
  unfold Poll.calibrate_temps in stage_calibrated.
  destruct (map_exn_nth _ _ _ stage_calibrated) as [_ Hnth].
  destruct (Hnth i i) as [y [Hy ->]];
    [rewrite nth_error_seq by exact Hi; reflexivity |].
  unfold Poll.calibrated_at in Hy. rewrite Hraw in Hy. cbn [bind] in Hy.
  destruct (Poll.is_valid s raw) eqn:Hv.
  - apply is_valid_gt in Hv. split; [| split].
    + split.
      * intros Hnone. injection Hnone as ->.
        destruct (startup_set c); cbn in Hy.
        -- bind_inv Hy. bind_inv Hy. discriminate Hy.
        -- discriminate Hy.
      * intros Hle. exfalso. apply (Qlt_not_le _ _ Hv Hle).
    + intros _ Hunset. rewrite Hunset in Hy. cbn in Hy. now injection Hy as <-.
    + intros _ Hset. rewrite Hset in Hy. cbn in Hy.
      bind_inv Hy. bind_inv Hy. injection Hy as <-.
      exists v, v0. auto.
  - rewrite andb_false_r in Hy. injection Hy as <-.
    assert (Hle : raw <= valid_min s).
    { apply Qnot_lt_le. intros Hlt. apply is_valid_gt in Hlt. congruence. }
    split; [| split].
    + split; auto.
    + intros Hlt. exfalso. apply (Qlt_not_le _ _ Hlt Hle).
    + intros Hlt. exfalso. apply (Qlt_not_le _ _ Hlt Hle).
Qed.

Lemma published_reading_of_a_channel_witness :
  let s := Demo.installation 1 in
  exists p,
    Poll.poll_cycle s Demo.partly_valid_poll (Demo.fresh s) = Some p
    /\ nth_error (temperatures (web_data (Poll.state_after p))) 1 = Some None.
Proof.
  cbv zeta. eexists. split; [vm_compute; reflexivity |].
  edestruct (published_reading_of_a_channel (Demo.installation 1)
               Demo.partly_valid_poll (Demo.fresh (Demo.installation 1)))
    with (i := 1%nat) (raw := 0.00) as [[_ Hnone] _].
  - vm_compute. reflexivity.
  - vm_compute. lia.
  - vm_compute. reflexivity.
  - apply Hnone. vm_compute. discriminate.
Defined.

(** ** Bank statistics *)

Lemma minimum_is_lower_bound (rest : list Q) :
  forall first,
    Stats.minimum first rest <= first
    /\ forall x, In x rest -> Stats.minimum first rest <= x.
Proof.
  unfold Stats.minimum.
  induction rest as [| y rest IH]; intros first; cbn.
  - split; [apply Qle_refl | intros x []].
  - destruct (Qltb y first) eqn:E.
    + apply Qltb_lt in E. destruct (IH y) as [H1 H2]. split.
      * apply Qle_trans with y; [exact H1 | now apply Qlt_le_weak].
      * intros x [<- | Hx]; [exact H1 | now apply H2].
    + assert (Hle : first <= y).
      { apply Qnot_lt_le. intros Hlt. apply Qltb_lt in Hlt. congruence. }
      destruct (IH first) as [H1 H2]. split; [exact H1 |].
      intros x [<- | Hx]; [now apply Qle_trans with first | now apply H2].
Qed.

Lemma maximum_is_upper_bound (rest : list Q) :
  forall first,
    first <= Stats.maximum first rest
    /\ forall x, In x rest -> x <= Stats.maximum first rest.
Proof.
  unfold Stats.maximum.
  induction rest as [| y rest IH]; intros first; cbn.
  - split; [apply Qle_refl | intros x []].
  - destruct (Qgtb y first) eqn:E.
    + apply Qgtb_gt in E. destruct (IH y) as [H1 H2]. split.
      * apply Qle_trans with y; [now apply Qlt_le_weak | exact H1].
      * intros x [<- | Hx]; [exact H1 | now apply H2].
    + assert (Hle : y <= first).
      { apply Qnot_lt_le. intros Hlt. apply Qgtb_gt in Hlt. congruence. }
      destruct (IH first) as [H1 H2]. split; [exact H1 |].
      intros x [<- | Hx]; [now apply Qle_trans with first | now apply H2].
Qed.

(** The median of data that is not empty exists and lies between any two
    bounds of the data. *)
Lemma median_between (data : list Q) (lo hi : Q) :
  data <> [] ->
  (forall x, In x data -> lo <= x <= hi) ->
  exists m, Stats.median data = Some m /\ lo <= m <= hi.
Proof.
  intros Hne Hbound. unfold Stats.median.
  pose proof (QSort.Permuted_sort data) as Hperm.
  set (sorted := QSort.sort data) in *.
  assert (Hlen : length sorted = length data)
    by (symmetry; apply Permutation_length; exact Hperm).
  assert (Hpos : (0 < length sorted)%nat).
  { rewrite Hlen. destruct data; [contradiction | cbn; lia]. }
  assert (Hin : forall k, (k < length sorted)%nat ->
                          lo <= nth k sorted 0 <= hi).
  { intros k Hk. apply Hbound.
    apply (Permutation_in _ (Permutation_sym Hperm)).
    now apply nth_In. }
  destruct (length sorted =? 0)%nat eqn:E0;
    [apply Nat.eqb_eq in E0; lia |].
  assert (Hhalf : (length sorted / 2 < length sorted)%nat)
    by (apply Nat.div_lt; lia).
  destruct (Nat.odd (length sorted)).
  - eexists. split; [reflexivity |]. now apply Hin.
  - eexists. split; [reflexivity |].
    pose proof (Hin (length sorted / 2 - 1)%nat ltac:(lia)) as [A1 A2].
    pose proof (Hin (length sorted / 2)%nat Hhalf) as [B1 B2].
    split.
    + apply Qle_shift_div_l; [reflexivity | lra].
    + apply Qle_shift_div_r; [reflexivity | lra].
Qed.

(** [X17]: the statistics that [compute_bank_medians] gives for one bank: a
    bank none of whose readings is present reports median, minimum and
    maximum 0 and counts every sensor as invalid; otherwise every present
    reading of the bank, and the median, lie between the reported minimum
    and maximum, and the invalid count is smaller than the number of
    sensors. *)
Theorem bank_statistics_bounds (calibrated_temps : list (option Q))
        (bank_indices : list nat) :
  let stat := Poll.bank_stat_of calibrated_temps bank_indices in
  ((forall i, In i bank_indices -> nth i calibrated_temps None = None) ->
   stat = mkBankStat 0 0 0 (length bank_indices))
  /\ (forall i t,
        In i bank_indices -> nth i calibrated_temps None = Some t ->
        stat_min stat <= t <= stat_max stat
        /\ stat_min stat <= stat_median stat <= stat_max stat
        /\ (stat_invalid stat < length bank_indices)%nat).
Proof.
  cbv zeta. split.
  - intros Hnone. unfold Poll.bank_stat_of.
    assert (Hv : Poll.values_at calibrated_temps bank_indices = []).
    { unfold Poll.values_at.
      induction bank_indices as [| i rest IH]; [reflexivity |].
      cbn. rewrite (Hnone i) by now left. cbn.
      apply IH. intros j Hj. apply Hnone. now right. }
    rewrite Hv. cbn. now rewrite Nat.sub_0_r.
  - intros i t Hi Ht.
    assert (Hin : In t (Poll.values_at calibrated_temps bank_indices)).
    { unfold Poll.values_at. apply in_flat_map. exists i.
      split; [exact Hi |]. rewrite Ht. now left. }
    assert (Hcount : (length (missing_in calibrated_temps bank_indices)
                      < length bank_indices)%nat).
    { unfold missing_in.
      clear Hin. induction bank_indices as [| j rest IH]; [destruct Hi |].
      cbn. destruct Hi as [-> | Hi].
      - rewrite Ht. cbn.
        pose proof (filter_length_le
                      (fun i => Poll.is_none (nth i calibrated_temps None))
                      rest). lia.
      - specialize (IH Hi).
        destruct (Poll.is_none (nth j calibrated_temps None)); cbn; lia. }
    rewrite invalid_count_is_missing.
    unfold Poll.bank_stat_of.
    destruct (Poll.values_at calibrated_temps bank_indices)
      as [| first rest] eqn:Ev; [destruct Hin |].
    destruct (minimum_is_lower_bound rest first) as [Hmin1 Hmin2].
    destruct (maximum_is_upper_bound rest first) as [Hmax1 Hmax2].
    assert (Hbound : forall x, In x (first :: rest) ->
                Stats.minimum first rest <= x <= Stats.maximum first rest).
    { intros x [<- | Hx]; split; auto. }
    destruct (median_between (first :: rest) _ _ ltac:(discriminate) Hbound)
      as [m [-> Hm]].
    cbn. split; [apply Hbound, Hin |]. split; [exact Hm | exact Hcount].
Qed.

(** ** Manual requests *)

(** [X18]: the handler of [/api/balance] changes nothing but the flag
    [balancing_active]; it raises the flag only when no alert is published,
    at least two bank voltages are published, and the spread between the
    highest and the lowest of them is not below
    [VoltageDifferenceToBalance]. The balancer latch is not consulted. *)
Theorem manual_request_is_guarded (s : settings) (st : state) :
  (Poll.api_balance s st = st
   \/ Poll.api_balance s st = set_balancing_active true st)
  /\ (balancing_active st = false ->
      balancing_active (Poll.api_balance s st) = true ->
      alerts (web_data st) = []
      /\ (2 <= length (voltages (web_data st)))%nat
      /\ exists first rest,
           voltages (web_data st) = first :: rest
           /\ VoltageDifferenceToBalance s
              <= Stats.maximum first rest - Stats.minimum first rest).
Proof.
  unfold Poll.api_balance.
  destruct (balancing_active st) eqn:Ha; [split; [now left | discriminate] |].
  destruct (alerts (web_data st)) as [| a l] eqn:Eal; cbn [length Nat.eqb negb].
  - destruct (length (voltages (web_data st)) <? 2)%nat eqn:Elen.
    + split; [now left | intros _ H; congruence].
    + apply Nat.ltb_ge in Elen.
      destruct (voltages (web_data st)) as [| first rest] eqn:Ev.
      * split; [now left | intros _ H; congruence].
      * destruct (Qltb _ _) eqn:Espread.
        -- split; [now left | intros _ H; congruence].
        -- split; [now right |]. intros _ _.
           split; [reflexivity |]. split; [exact Elen |].
           exists first, rest. split; [reflexivity |].
           apply Qnot_lt_le. intros Hlt. apply Qltb_lt in Hlt. congruence.
  - split; [now left | intros _ H; congruence].
Qed.

Section PendingFacts.
Variable s : settings.

Lemma step_keeps_pending (ev : Poll.event) (st st' : state) :
  Poll.step s ev st = Some st' ->
  balancer_failed st = true -> balancing_active st = true ->
  balancer_failed st' = true /\ balancing_active st' = true
  /\ forall e, ev = Poll.PollCycle e ->
               balancing (web_data st') = true.
Proof.
  intros H Hlatch Hactive. destruct ev as [e |]; cbn in H.
  - bind_inv H. injection H as <-.
    destruct (poll_cycle_stages s e st v E).
    assert (Hm : balancer_failed (measured s st c calibrated_temps) = true)
      by exact Hlatch.
    rewrite (balance_decision_latched s e _ battery_voltages
               calibrated_temps temps_alerts alert_needed Hm)
      in stage_balance.
    injection stage_balance as <- _ _.
    rewrite stage_state. cbn. auto.
  - injection H as <-. unfold Poll.api_balance. rewrite Hactive.
    split; [exact Hlatch |]. split; [exact Hactive | discriminate].
Qed.

End PendingFacts.

(** [X19]: once the latch is set while a manual request is pending (the
    handler accepts a request right after the failing pass, whose snapshot
    has no alert yet), the request is never served and never withdrawn:
    after any further events the flag [balancing_active] is still set, and
    every later pass publishes [balancing = True] although it makes no call
    of the balancer. *)
Theorem latched_request_stays_pending (s : settings)
        (evs : list Poll.event) (st st' : state) :
  balancer_failed st = true ->
  balancing_active st = true ->
  Poll.run s evs st = Some st' ->
  balancer_failed st' = true
  /\ balancing_active st' = true
  /\ forall e p,
       Poll.poll_cycle s e st' = Some p ->
       Poll.balance p = None
       /\ balancing (web_data (Poll.state_after p)) = true
       /\ balancing_active (Poll.state_after p) = true.
Proof.
  unfold Poll.run. revert st.
  induction evs as [| ev rest IH]; cbn; intros st Hlatch Hactive H.
  - injection H as <-. split; [exact Hlatch |]. split; [exact Hactive |].
    intros e p Hp.
    assert (Hstep : Poll.step s (Poll.PollCycle e) st
                    = Some (Poll.state_after p)) by (cbn; now rewrite Hp).
    destruct (step_keeps_pending s _ _ _ Hstep Hlatch Hactive)
      as [_ [Hact Hpub]].
    split; [| split; [apply (Hpub e eq_refl) | exact Hact]].
    destruct (poll_cycle_stages s e st p Hp).
    assert (Hm : balancer_failed (measured s st c calibrated_temps) = true)
      by exact Hlatch.
    rewrite (balance_decision_latched s e _ battery_voltages
               calibrated_temps temps_alerts alert_needed Hm)
      in stage_balance.
    now injection stage_balance as _ _ <-.
  - bind_inv H.
    destruct (step_keeps_pending s _ _ _ E Hlatch Hactive) as [Hl [Ha _]].
    apply (IH v Hl Ha H).
Qed.

Lemma latched_request_stays_pending_witness :
  let s := Demo.installation 1 in
  let st := Poll.api_balance s
              (Demo.after_pass s (Demo.warm_poll 1) (Demo.fresh s)) in
  balancer_failed st = true
  /\ balancing_active st = true
  /\ balancing_active (Demo.after_pass s Demo.warmer_poll st) = true.
Proof.
  cbv zeta.
  set (s := Demo.installation 1).
  set (st := Poll.api_balance s
               (Demo.after_pass s (Demo.warm_poll 1) (Demo.fresh s))).
  assert (Hlatch : balancer_failed st = true) by (vm_compute; reflexivity).
  assert (Hactive : balancing_active st = true) by (vm_compute; reflexivity).
  split; [exact Hlatch |]. split; [exact Hactive |].
  refine (proj1 (proj2 (latched_request_stays_pending s
            [Poll.PollCycle Demo.warmer_poll] st
            (Demo.after_pass s Demo.warmer_poll st) Hlatch Hactive _))).
  vm_compute. reflexivity.
Defined.

(** ** When a balancing run raises *)

Section ReadsReturn.
Variable s : settings.
Hypothesis ratio : ~ VoltageDividerRatio s == 0.

Lemma to_volts_returns (bank_id : nat) (raw_adc : Z) :
  exists v, Voltage.to_volts s bank_id raw_adc = Some v.
Proof.
  unfold Voltage.to_volts. destruct (raw_adc =? 0)%Z; [eauto |].
  destruct (Qeq_bool (VoltageDividerRatio s) 0) eqn:E; [| eauto].
  apply Qeq_bool_iff in E. contradiction.
Qed.

Lemma sample_round_returns (bank_id : nat) (c0 c1 : Voltage.conversion) :
  exists v, Voltage.sample_round s bank_id c0 c1 = Some v.
Proof.
  unfold Voltage.sample_round.
  destruct (to_volts_returns bank_id (Voltage.raw_adc_of bank_id c0))
    as [r0 ->].
  destruct (to_volts_returns bank_id (Voltage.raw_adc_of bank_id c1))
    as [r1 ->].
  cbn [bind]. destruct (filter _ _); eauto.
Qed.

Lemma rounds_returns (bank_id : nat) (a : Voltage.adc) (remaining : nat) :
  forall attempt,
    exists v, Voltage.rounds s bank_id a remaining attempt = Some v.
Proof.
  induction remaining as [| n IH]; intros attempt; cbn; [eauto |].
  destruct (sample_round_returns bank_id (a attempt 0%nat) (a attempt 1%nat))
    as [[v |] ->]; cbn [bind]; [eauto | apply IH].
Qed.

(** With a divider ratio other than 0, [read_voltage_with_retry] raises
    nothing: it returns a voltage or [None]. *)
Lemma read_voltage_returns (bank_id : nat) (a : Voltage.adc) :
  exists v, Voltage.read_voltage_with_retry s bank_id a = Some v.
Proof.
  unfold Voltage.read_voltage_with_retry.
  destruct (NUM_BANKS s <? bank_id)%nat; [eauto | apply rounds_returns].
Qed.

Lemma sample_loop_returns (high low : nat)
      (periodic : list (Voltage.adc * Voltage.adc)) :
  forall voltage_high voltage_low high_trend low_trend,
  exists voltage_high' voltage_low' high_trend' low_trend',
    Balance.sample_loop s high low periodic voltage_high voltage_low
                        high_trend low_trend
    = Some (voltage_high', voltage_low', high_trend', low_trend')
    /\ length high_trend' = (length high_trend + length periodic)%nat
    /\ length low_trend' = (length low_trend + length periodic)%nat.
Proof.
  induction periodic as [| [adc_high adc_low] rest IH];
    intros voltage_high voltage_low high_trend low_trend; cbn.
  - do 4 eexists. split; [reflexivity | lia].
  - destruct (read_voltage_returns high adc_high) as [new_high ->].
    destruct (read_voltage_returns low adc_low) as [new_low ->].
    cbn [bind].
    destruct (IH (Balance.or_else new_high voltage_high)
                 (Balance.or_else new_low voltage_low)
                 (high_trend ++ [Balance.or_else new_high voltage_high])
                 (low_trend ++ [Balance.or_else new_low voltage_low]))
      as [vh [vl [ht [lt [-> [Hh Hl]]]]]].
    do 4 eexists. split; [reflexivity |].
    rewrite Hh, Hl, !length_app. cbn. lia.
Qed.

End ReadsReturn.

(** [X20]: with a divider ratio other than 0, no temperature alert and at
    least one periodic read, a call of [balance_battery_voltages] raises
    exactly when the initial read of the source or of the destination bank
    gave [None] (and the destination did not read 0 V, which ends the call
    early): the verification subtracts the initial voltages unguarded. In
    every other case the call returns. *)
Theorem balancing_run_raises_on_failed_initial_read (s : settings)
        (r : Balance.rig) (st : state) (high low : nat) (is_heating : bool)
        (initial_high_v initial_low_v : option Q) :
  ~ VoltageDividerRatio s == 0 ->
  Balance.periodic_adc r <> [] ->
  Voltage.read_voltage_with_retry s high (Balance.initial_high_adc r)
  = Some initial_high_v ->
  Voltage.read_voltage_with_retry s low (Balance.initial_low_adc r)
  = Some initial_low_v ->
  (Balance.balance_battery_voltages s r st high low [] is_heating = None
   <-> Balance.is_zero initial_low_v = false
       /\ (initial_high_v = None \/ initial_low_v = None)).
Proof.
  intros Hratio Hperiodic Hhigh Hlow.
  unfold Balance.balance_battery_voltages. rewrite Hhigh, Hlow. cbn [bind].
  destruct (Balance.is_zero initial_low_v) eqn:Ezero.
  - split; [discriminate | intros [H _]; discriminate].
  - destruct (sample_loop_returns s Hratio high low (Balance.periodic_adc r)
                (Balance.or_else initial_high_v 0)
                (Balance.or_else initial_low_v 0)
                [Balance.or_else initial_high_v 0]
                [Balance.or_else initial_low_v 0])
      as [vh [vl [ht [lt [-> [Hh Hl]]]]]].
    cbn [bind].
    destruct (read_voltage_returns s Hratio high (Balance.final_high_adc r))
      as [fh ->].
    destruct (read_voltage_returns s Hratio low (Balance.final_low_adc r))
      as [fl ->].
    cbn [bind].
    assert (Hlen : (1 <= length (Balance.periodic_adc r))%nat).
    { destruct (Balance.periodic_adc r); [contradiction | cbn; lia]. }
    unfold Balance.verify. rewrite !length_app, Hh, Hl. cbn [length].
    replace (3 <=? 1 + length (Balance.periodic_adc r) + 1)%nat with true
      by (symmetry; apply Nat.leb_le; lia).
    cbn [andb].
    destruct initial_high_v as [ih |], initial_low_v as [il |]; cbn [bind].
    + split; [| intros [_ [H | H]]; discriminate].
      destruct (Balance.no_change_detected _ _ _); cbn [bind]; discriminate.
    + split; [auto | reflexivity].
    + split; [auto | reflexivity].
    + split; [auto | reflexivity].
Qed.

Lemma balancing_run_raises_on_failed_initial_read_witness :
  let s := Demo.installation 1 in
  let r := Balance.mkRig Demo.unstable Demo.steady
                         [(Demo.steady, Demo.steady)]
                         Demo.steady Demo.steady 1005 in
  Balance.balance_battery_voltages s r (Demo.fresh s) 1 2 [] false = None.
Proof.
  cbv zeta.
  refine (proj2 (balancing_run_raises_on_failed_initial_read
                   (Demo.installation 1) _ _ 1 2 false None _
                   _ _ _ _) _).
  - vm_compute. discriminate.
  - discriminate.
  - vm_compute. reflexivity.
  - vm_compute. reflexivity.
  - split; [vm_compute; reflexivity | now left].
Defined.

(** ** Configuration *)

Section ConfigFacts.
Import Config.

Lemma flat_map_nil {A B : Type} (f : A -> list B) (l : list A) :
  flat_map f l = [] -> forall x, In x l -> f x = [].
Proof.
  induction l as [| a l IH]; cbn; intros H x Hin; [destruct Hin |].
  apply app_eq_nil in H. destruct H as [Ha Hl].
  destruct Hin as [<- | Hin]; [exact Ha | now apply IH].
Qed.

Lemma has_key_lookup (key : string) (d : list (string * list Z)) :
  has_key key d = true -> exists v, lookup key d = Some v.
Proof.
  unfold has_key. induction d as [| [k v] d IH]; cbn; [discriminate |].
  destruct (String.eqb k key); cbn; [eauto | exact IH].
Qed.

Lemma in_one_to (n : Z) (i : nat) :
  (1 <= i)%nat -> (Z.of_nat i <= n)%Z -> In (Z.of_nat i) (one_to n).
Proof.
  intros H1 Hn. unfold one_to. apply in_map, in_seq. lia.
Qed.

Lemma in_expected_pairs (n : Z) (i j : nat) :
  (1 <= i)%nat -> (1 <= j)%nat -> i <> j ->
  (Z.of_nat i <= n)%Z -> (Z.of_nat j <= n)%Z ->
  In (pair_key (Z.of_nat i) (Z.of_nat j)) (expected_pairs n).
Proof.
  intros Hi Hj Hne Hin Hjn. unfold expected_pairs.
  apply in_flat_map. exists (Z.of_nat i). split; [now apply in_one_to |].
  apply in_flat_map. exists (Z.of_nat j). split; [now apply in_one_to |].
  destruct (Z.of_nat i =? Z.of_nat j)%Z eqn:E; [| now left].
  apply Z.eqb_eq in E. lia.
Qed.

Lemma index_none (x : Z) (l : list Z) : index x l = None <-> ~ In x l.
Proof.
  induction l as [| y l IH]; cbn; [tauto |].
  destruct (y =? x)%Z eqn:E.
  - apply Z.eqb_eq in E. split; [discriminate | intros H; exfalso; auto].
  - apply Z.eqb_neq in E. destruct (index x l); cbn.
    + split; [discriminate |]. intros H. exfalso. apply H. right.
      destruct IH as [_ IH]. 
      destruct (in_dec Z.eq_dec x l) as [Hin | Hout]; [exact Hin |].
      specialize (IH Hout). discriminate.
    + split; [| reflexivity]. intros _ [Hy | Hin]; [auto |].
      now apply IH.
Qed.

Lemma index_first (x : Z) (l : list Z) :
  forall i,
    nth_error l i = Some x ->
    (forall j, (j < i)%nat -> nth_error l j <> Some x) ->
    index x l = Some i.
Proof.
  induction l as [| y l IH]; intros i Hi Hfirst.
  - destruct i; discriminate.
  - cbn. destruct i as [| i]; cbn in Hi.
    + injection Hi as ->. now rewrite Z.eqb_refl.
    + destruct (y =? x)%Z eqn:E.
      * apply Z.eqb_eq in E. subst y.
        exfalso. apply (Hfirst 0%nat); [lia | reflexivity].
      * rewrite (IH i Hi); [reflexivity |].
        intros j Hj. apply (Hfirst (S j)). lia.
Qed.

End ConfigFacts.

(** [X21]: a configuration that [validate_config] accepts and whose relay
    mapping is not empty has an entry for every ordered pair of distinct
    banks; with that mapping, [set_relay_connection] for such a pair
    always finds its relays: it drives the four pins low and then the
    listed ones high. (When the mapping is empty the check is skipped.) *)
Theorem validated_relay_mapping_is_complete (c : Config.loaded)
        (s : settings) (high low : nat) :
  Config.validate_config c = [] ->
  Config.relay_mapping c <> [] ->
  relay_mapping s = Config.mapping_of (Config.relay_mapping c) ->
  Z.of_nat (NUM_BANKS s) = Config.num_series_banks c ->
  (1 <= high <= NUM_BANKS s)%nat ->
  (1 <= low <= NUM_BANKS s)%nat ->
  high <> low ->
  exists relays,
    Config.lookup (Config.pair_key (Z.of_nat high) (Z.of_nat low))
                  (Config.relay_mapping c) = Some relays
    /\ Actuator.set_relay_connection s high low
       = Actuator.all_relays_low
           ++ flat_map (fun relay =>
                          if (0 <=? relay)%Z && (relay <? 4)%Z
                          then [RelayPin (Z.to_nat relay) true]
                          else [])
                       relays.
Proof.
  intros Hvalid Hmapping Hs Hbanks Hhigh Hlow Hne.
  unfold Config.validate_config in Hvalid.
  repeat (apply app_eq_nil in Hvalid; destruct Hvalid as [_ Hvalid]).
  destruct (Config.relay_mapping c) as [| item items] eqn:Ed;
    [contradiction |].
  assert (Hin : In (Config.pair_key (Z.of_nat high) (Z.of_nat low))
                   (Config.expected_pairs (Config.num_series_banks c)))
    by (apply in_expected_pairs; lia).
  pose proof (flat_map_nil _ _ Hvalid _ Hin) as Hkey.
  cbv beta in Hkey.
  destruct (Config.has_key _ (item :: items)) eqn:Ehas; [| discriminate].
  destruct (has_key_lookup _ _ Ehas) as [relays Hrelays].
  exists relays. split; [exact Hrelays |].
  unfold Actuator.set_relay_connection.
  replace (NUM_BANKS s <? high)%nat with false
    by (symmetry; apply Nat.ltb_ge; lia).
  replace (NUM_BANKS s <? low)%nat with false
    by (symmetry; apply Nat.ltb_ge; lia).
  replace (high =? 0)%nat with false by (symmetry; apply Nat.eqb_neq; lia).
  replace (low =? 0)%nat with false by (symmetry; apply Nat.eqb_neq; lia).
  cbn [negb andb orb].
  rewrite Hs. unfold Config.mapping_of. rewrite Hrelays. reflexivity.
Qed.

Lemma validated_relay_mapping_is_complete_witness :
  let c := Config.mkLoaded 2 1 1 [1%Z]
             [("1-2"%string, [0; 1]%Z); ("2-1"%string, [2; 3]%Z)] in
  let s := mkSettings (Topology.mkConfig 2 1 1) [1%Z]
             100 3 0 42 0 2 (1 # 10) 2 (1 # 2) 35 (6144 # 1000)
             (fun _ => 20) 21 (37 # 2) (1 # 10) 60 (1 # 100)
             (Config.mapping_of (Config.relay_mapping c))
             1 (1 # 4) 10 in
  Actuator.set_relay_connection s 2 1
  = Actuator.all_relays_low ++ [RelayPin 2 true; RelayPin 3 true].
Proof.
  cbv zeta.
  edestruct (validated_relay_mapping_is_complete
               (Config.mkLoaded 2 1 1 [1%Z]
                  [("1-2"%string, [0; 1]%Z); ("2-1"%string, [2; 3]%Z)])
               (mkSettings (Topology.mkConfig 2 1 1) [1%Z]
                  100 3 0 42 0 2 (1 # 10) 2 (1 # 2) 35 (6144 # 1000)
                  (fun _ => 20) 21 (37 # 2) (1 # 10) 60 (1 # 100)
                  (Config.mapping_of
                     [("1-2"%string, [0; 1]%Z); ("2-1"%string, [2; 3]%Z)])
                  1 (1 # 4) 10)
               2 1)
    as [relays [Hlookup Hwrites]].
  - vm_compute. reflexivity.
  - discriminate.
  - reflexivity.
  - reflexivity.
  - cbn. lia.
  - cbn. lia.
  - discriminate.
  - etransitivity; [exact Hwrites |].
    vm_compute in Hlookup. injection Hlookup as <-. reflexivity.
Defined.

(** [X22]: [get_port_for_slave] pairs the address list with the port list
    by position: an address that is not configured gets the default port;
    a configured one gets the port at the position of its first occurrence,
    and the default port when the port list is too short to have one. *)
Theorem port_of_slave (slave_addr : Z) (slave_addresses slave_ports : list Z)
        (default_port : Z) :
  (~ In slave_addr slave_addresses ->
   Config.get_port_for_slave slave_addr slave_addresses slave_ports
                             default_port = default_port)
  /\ (forall i,
        nth_error slave_addresses i = Some slave_addr ->
        (forall j, (j < i)%nat ->
                   nth_error slave_addresses j <> Some slave_addr) ->
        (forall port, nth_error slave_ports i = Some port ->
           Config.get_port_for_slave slave_addr slave_addresses slave_ports
                                     default_port = port)
        /\ (nth_error slave_ports i = None ->
            Config.get_port_for_slave slave_addr slave_addresses slave_ports
                                      default_port = default_port)).
Proof.
  unfold Config.get_port_for_slave. split.
  - intros Hout. apply index_none in Hout. now rewrite Hout.
  - intros i Hi Hfirst. rewrite (index_first _ _ _ Hi Hfirst). split.
    + intros port Hport.
      assert (Hlt : (i < length slave_ports)%nat)
        by (apply nth_error_Some; congruence).
      apply Nat.ltb_lt in Hlt. rewrite Hlt.
      now apply nth_error_nth.
    + intros Hnone. apply nth_error_None in Hnone.
      replace (i <? length slave_ports)%nat with false
        by (symmetry; apply Nat.ltb_ge; exact Hnone).
      reflexivity.
Qed.

(** ** The event log *)

Lemma log_event_window {A : Type} (EventLogSize : Z) (event_log : list A)
      (entry : A) :
  (length event_log <= Z.to_nat EventLogSize)%nat ->
  log_event EventLogSize event_log entry
  = skipn (length event_log + 1 - Z.to_nat EventLogSize)
          (event_log ++ [entry])
  /\ (length (log_event EventLogSize event_log entry)
      <= Z.to_nat EventLogSize)%nat.
Proof.
  intros Hlen. unfold log_event. rewrite length_app. cbn [length].
  destruct (EventLogSize <? Z.of_nat (length event_log + 1))%Z eqn:E.
  - apply Z.ltb_lt in E.
    assert (Heq : length event_log = Z.to_nat EventLogSize) by lia.
    replace (length event_log + 1 - Z.to_nat EventLogSize)%nat with 1%nat
      by lia.
    split; [reflexivity |].
    destruct event_log as [| x l]; cbn in *; [lia |].
    rewrite length_app. cbn. lia.
  - apply Z.ltb_ge in E.
    replace (length event_log + 1 - Z.to_nat EventLogSize)%nat with 0%nat
      by lia.
    split; [reflexivity |]. rewrite length_app. cbn. lia.
Qed.

Lemma log_events_window {A : Type} (EventLogSize : Z) (entries : list A) :
  forall event_log,
    (length event_log <= Z.to_nat EventLogSize)%nat ->
    fold_left (log_event EventLogSize) entries event_log
    = skipn (length event_log + length entries - Z.to_nat EventLogSize)
            (event_log ++ entries).
Proof.
  induction entries as [| entry rest IH]; intros event_log Hlen.
  - cbn. rewrite Nat.add_0_r, app_nil_r.
    replace (length event_log - Z.to_nat EventLogSize)%nat with 0%nat by lia.
    reflexivity.
  - cbn [fold_left].
    destruct (log_event_window EventLogSize event_log entry Hlen)
      as [Hstep Hbound].
    rewrite (IH _ Hbound). rewrite Hstep.
    destruct (Nat.le_gt_cases (length event_log + 1)
                              (Z.to_nat EventLogSize)) as [Hfit | Hfull].
    + replace (length event_log + 1 - Z.to_nat EventLogSize)%nat
        with 0%nat by lia.
      cbn [skipn]. rewrite length_app, <- app_assoc. cbn [length app].
      f_equal. lia.
    + assert (Heq : length event_log = Z.to_nat EventLogSize) by lia.
      replace (length event_log + 1 - Z.to_nat EventLogSize)%nat
        with 1%nat by lia.
      destruct event_log as [| x l].
      * cbn [length app skipn] in *. rewrite <- Heq.
        rewrite Nat.add_0_l, Nat.sub_0_r, skipn_all.
        cbn. now rewrite skipn_all.
      * cbn [length app skipn] in *.
        rewrite length_app, <- app_assoc. cbn [length app].
        replace (length l + 1 + length rest - Z.to_nat EventLogSize)%nat
          with (length rest) by lia.
        replace (S (length l) + S (length rest) - Z.to_nat EventLogSize)%nat
          with (S (length rest)) by lia.
        reflexivity.
Qed.

(** [X23]: the event log, filled from empty by the append-and-trim pair of
    statements that follows every alert, always holds the latest
    [EventLogSize] entries in the order they were logged (all of them while
    there are fewer); with [EventLogSize <= 0] it stays empty. *)
Theorem event_log_holds_the_latest_entries {A : Type} (EventLogSize : Z)
        (entries : list A) :
  fold_left (log_event EventLogSize) entries []
  = skipn (length entries - Z.to_nat EventLogSize) entries.
Proof.
  rewrite (log_events_window EventLogSize entries []) by (cbn; lia).
  reflexivity.
Qed.

(** ** The check value of a whole frame *)

Lemma residue_checked :
  holds_from
    (fun x => Crc.crc_byte (Crc.crc_byte x (Crc.byte_of_Z (x mod 256)))
                           (Crc.byte_of_Z (x / 256)) =? 0)%Z
    (Z.to_nat 65536) 0 = true.
Proof. vm_compute. reflexivity. Qed.

Lemma residue_zero (x : Z) :
  word16 x ->
  Crc.crc_byte (Crc.crc_byte x (Crc.byte_of_Z (x mod 256)))
               (Crc.byte_of_Z (x / 256)) = 0%Z.
Proof.
  intros Hx. apply Z.eqb_eq.
  apply (holds_from_spec _ (Z.to_nat 65536) 0 residue_checked x).
  rewrite Z2Nat.id by lia. unfold word16 in Hx. lia.
Qed.

(** [X24]: running the checksum over a frame followed by its own
    [modbus_crc] always leaves the register at 0. *)
Theorem frame_with_checksum_has_zero_residue (data : list byte) :
  Crc.crc_register (Crc.append_crc data) = 0%Z.
Proof.
  unfold Crc.append_crc, Crc.modbus_crc, Crc.to_bytes_2_little.
  unfold Crc.crc_register at 1. rewrite fold_left_app.
  change (fold_left Crc.crc_byte data 65535%Z) with (Crc.crc_register data).
  generalize (crc_register_range data).
  generalize (Crc.crc_register data) as x. intros x Hx.
  cbn [fold_left]. apply residue_zero, Hx.
Qed.

(** ** The loop keeps running *)

Lemma map_exn_returns {A B : Type} (f : A -> exn B) (l : list A) :
  (forall x, In x l -> exists y, f x = Some y) ->
  exists r, map_exn f l = Some r.
Proof.
  induction l as [| a rest IH]; cbn; intros H; [eauto |].
  destruct (H a (or_introl eq_refl)) as [y ->].
  destruct (IH (fun x Hx => H x (or_intror Hx))) as [ys ->].
  cbn. eauto.
Qed.

Lemma fold_exn_returns {A B : Type} (f : A -> B -> exn A) (l : list B) :
  (forall a x, In x l -> exists a', f a x = Some a') ->
  forall a, exists a', fold_exn f l a = Some a'.
Proof.
  induction l as [| x rest IH]; cbn; intros H a; [eauto |].
  destruct (H a x (or_introl eq_refl)) as [a' ->]. cbn.
  apply IH. intros a0 x0 Hx0. apply H. now right.
Qed.

Lemma median_returns (data : list Q) :
  data <> [] -> exists m, Stats.median data = Some m.
Proof.
  intros Hne. unfold Stats.median.
  assert (Hlen : length (QSort.sort data) = length data)
    by (symmetry; apply Permutation_length, QSort.Permuted_sort).
  rewrite Hlen.
  destruct (length data =? 0)%nat eqn:E.
  - apply Nat.eqb_eq in E. destruct data; [contradiction | discriminate].
  - destruct (Nat.odd (length data)); eauto.
Qed.

Lemma maximum_in (rest : list Q) :
  forall first, In (Stats.maximum first rest) (first :: rest).
Proof.
  unfold Stats.maximum.
  induction rest as [| y rest IH]; intros first; cbn; [now left |].
  destruct (Qgtb y first).
  - destruct (IH y) as [H | H]; [right; left; exact H | right; right; exact H].
  - destruct (IH first) as [H | H]; [left; exact H | right; right; exact H].
Qed.

Lemma minimum_in (rest : list Q) :
  forall first, In (Stats.minimum first rest) (first :: rest).
Proof.
  unfold Stats.minimum.
  induction rest as [| y rest IH]; intros first; cbn; [now left |].
  destruct (Qltb y first).
  - destruct (IH y) as [H | H]; [right; left; exact H | right; right; exact H].
  - destruct (IH first) as [H | H]; [left; exact H | right; right; exact H].
Qed.

Lemma index_of_in (x : Q) (l : list Q) :
  In x l -> (Poll.index_of x l < length l)%nat.
Proof.
  induction l as [| y rest IH]; cbn; intros H; [destruct H |].
  destruct (Qeq_bool y x) eqn:E; [lia |].
  destruct H as [-> | H].
  - rewrite Qeq_bool_refl in E. discriminate.
  - specialize (IH H). lia.
Qed.

Section NeverRaises.
Variable s : settings.
Hypothesis config : well_configured s.

Local Abbreviation total := (Poll.total_channels s).

Lemma total_channels_positive : (1 <= total)%nat.
Proof.
  destruct config as [Hn [Hb [Hp _]]].
  unfold Poll.total_channels, Topology.total_channels,
    Topology.sensors_per_battery.
  apply (Nat.mul_le_mono 1 _ 1 _ Hp).
  apply (Nat.mul_le_mono 1 _ 1 _ Hn Hb).
Qed.

Lemma bank_medians_length (calibrated_temps : list (option Q)) :
  length (bank_medians_of s calibrated_temps) = NUM_BANKS s.
Proof.
  unfold bank_medians_of, Poll.compute_bank_medians, BANK_SENSOR_INDICES,
    Topology.bank_sensor_indices, NUM_BANKS.
  now rewrite !length_map, length_seq.
Qed.

Lemma bank_indices_length :
  length (BANK_SENSOR_INDICES s) = NUM_BANKS s.
Proof.
  unfold BANK_SENSOR_INDICES, Topology.bank_sensor_indices, NUM_BANKS.
  now rewrite length_map, length_seq.
Qed.

Lemma nth_error_in_range {A : Type} (l : list A) (i : nat) :
  (i < length l)%nat -> exists x, nth_error l i = Some x.
Proof.
  intros H. destruct (nth_error l i) eqn:E; [eauto |].
  apply nth_error_None in E. lia.
Qed.

Lemma calibrate_returns (raw_temps : list Q) (c : calibration) :
  length raw_temps = total ->
  (forall offsets, startup_offsets c = Some offsets ->
                   (total <= length offsets)%nat) ->
  exists c',
    Poll.calibrate s raw_temps c = Some c'
    /\ (forall offsets, startup_offsets c' = Some offsets ->
                        (total <= length offsets)%nat)
    /\ (startup_set c' = true ->
        exists offsets, startup_offsets c' = Some offsets).
Proof.
  intros Hlen Hcover. unfold Poll.calibrate.
  destruct (negb (startup_set c)
            && (Stats.count (Poll.is_valid s) raw_temps =? total)%nat).
  - destruct (median_returns raw_temps) as [m ->].
    { intros ->. pose proof total_channels_positive. cbn in Hlen. lia. }
    cbn. eexists. split; [reflexivity |]. split.
    + intros offsets H. injection H as <-. rewrite length_map. lia.
    + intros _. eexists. reflexivity.
  - cbn [bind]. destruct (startup_set c) eqn:Eset; cbn [andb].
    + destruct (Poll.is_none (startup_offsets c)) eqn:Enone.
      * eexists. split; [reflexivity |]. cbn.
        split; [exact Hcover | discriminate].
      * exists c. split; [reflexivity |]. split; [exact Hcover |].
        intros _. destruct (startup_offsets c); [eauto | discriminate].
    + exists c. split; [reflexivity |]. split; [exact Hcover |].
      rewrite Eset. discriminate.
Qed.

Lemma calibrate_temps_returns (raw_temps : list Q) (c : calibration) :
  length raw_temps = total ->
  (forall offsets, startup_offsets c = Some offsets ->
                   (total <= length offsets)%nat) ->
  (startup_set c = true -> exists offsets, startup_offsets c = Some offsets) ->
  exists calibrated_temps,
    Poll.calibrate_temps s c raw_temps = Some calibrated_temps
    /\ length calibrated_temps = total
    /\ forall i raw,
         nth_error raw_temps i = Some raw ->
         Qle_bool raw (valid_min s) = false ->
         exists t, nth_error calibrated_temps i = Some (Some t).
Proof.
  intros Hlen Hcover Hset.
  assert (Hat : forall i, (i < total)%nat ->
            exists y, Poll.calibrated_at s c raw_temps i = Some y
                      /\ forall raw, nth_error raw_temps i = Some raw ->
                           Qle_bool raw (valid_min s) = false ->
                           exists t, y = Some t).
  { intros i Hi. unfold Poll.calibrated_at.
    destruct (nth_error_in_range raw_temps i ltac:(lia)) as [raw Hraw].
    rewrite Hraw. cbn [bind]. unfold Poll.is_valid, Qgtb.
    destruct (Qle_bool raw (valid_min s)) eqn:Evalid; cbn [negb].
    - rewrite andb_false_r. eexists. split; [reflexivity |].
      intros raw' Hraw' Hv. injection Hraw' as <-. congruence.
    - rewrite andb_true_r. destruct (startup_set c) eqn:Eset.
      + destruct (Hset eq_refl) as [offsets Hoff]. rewrite Hoff. cbn [bind].
        destruct (nth_error_in_range offsets i) as [offset ->];
          [specialize (Hcover offsets Hoff); lia |].
        cbn. eexists. split; [reflexivity | eauto].
      + eexists. split; [reflexivity | eauto]. }
  unfold Poll.calibrate_temps.
  destruct (map_exn_returns (Poll.calibrated_at s c raw_temps) (seq 0 total))
    as [calibrated_temps Hmap].
  { intros i Hi. apply in_seq in Hi.
    destruct (Hat i ltac:(lia)) as [y [Hy _]]. eauto. }
  exists calibrated_temps. split; [exact Hmap |].
  destruct (map_exn_nth _ _ _ Hmap) as [Hl Hnth].
  rewrite length_seq in Hl. split; [exact Hl |].
  intros i raw Hraw Hvalid.
  assert (Hi : (i < total)%nat)
    by (rewrite <- Hlen; apply nth_error_Some; congruence).
  destruct (Hnth i i (nth_error_seq 0 total i Hi)) as [y [Hy Hn]].
  destruct (Hat i Hi) as [y' [Hy' Hsome]].
  assert (y' = y) by congruence. subst y'.
  destruct (Hsome raw Hraw Hvalid) as [t ->]. eauto.
Qed.

Lemma static_checks_returns (raw_temps : list Q)
      (calibrated_temps : list (option Q)) (temps_alerts : list alert) :
  length raw_temps = total ->
  (forall i raw,
     nth_error raw_temps i = Some raw ->
     Qle_bool raw (valid_min s) = false ->
     exists t, nth_error calibrated_temps i = Some (Some t)) ->
  exists temps_alerts',
    Poll.static_checks s raw_temps calibrated_temps
                       (bank_medians_of s calibrated_temps) temps_alerts
    = Some temps_alerts'.
Proof.
  intros Hlen Hvalid. unfold Poll.static_checks.
  apply fold_exn_returns. intros a [ch raw] Hin.
  destruct (enumerate1_items raw_temps 1 ch raw Hin) as [Hch Hraw].
  unfold Poll.static_check. rewrite check_invalid_reading_spec.
  destruct (Qle_bool raw (valid_min s)) eqn:E; [eauto |].
  destruct (Hvalid _ _ Hraw E) as [t ->]. cbn [bind].
  assert (Hi : (ch - 1 < total)%nat)
    by (rewrite <- Hlen; apply nth_error_Some; congruence).
  destruct (channel_has_bank (topology s) (ch - 1) Hi)
    as [b [indices [Hbank [Hindices _]]]].
  replace (ch - 1 + 1)%nat with ch in Hbank by lia.
  unfold Anomaly.bank_of, BANK_SENSOR_INDICES. rewrite Hbank. cbn [bind].
  destruct (nth_error_in_range (bank_medians_of s calibrated_temps) (b - 1))
    as [bank_median ->].
  { rewrite bank_medians_length, <- bank_indices_length.
    apply nth_error_Some. unfold BANK_SENSOR_INDICES. congruence. }
  cbn [bind]. eauto.
Qed.

Lemma previous_at_returns (previous_temps : list (option Q)) (i : nat) :
  (i < length previous_temps)%nat ->
  exists previous,
    Anomaly.previous_at previous_temps (Z.of_nat (i + 1)) = Some previous.
Proof.
  intros Hi. unfold Anomaly.previous_at.
  replace (Z.of_nat (i + 1) <? 1)%Z with false
    by (symmetry; apply Z.ltb_ge; lia).
  replace (Z.to_nat (Z.of_nat (i + 1) - 1)) with i by lia.
  now apply nth_error_in_range.
Qed.

Lemma dynamic_check_returns (st : state) (calibrated_temps : list (option Q))
      (bank_median_rise : Q) (temps_alerts : list alert) (i : nat) :
  (i < length calibrated_temps)%nat ->
  (i < length (previous_temps st))%nat ->
  exists temps_alerts',
    Poll.dynamic_check s st calibrated_temps bank_median_rise temps_alerts i
    = Some temps_alerts'.
Proof.
  intros Hi Hprev. unfold Poll.dynamic_check.
  destruct (nth_error_in_range calibrated_temps i Hi) as [calib ->].
  cbn [bind].
  destruct (previous_at_returns (previous_temps st) i Hprev)
    as [previous Hprevious].
  assert (Hfirst : exists a,
            match calib with
            | Some calib =>
                temps_alerts <- Anomaly.check_abnormal_rise s calib
                                  (previous_temps st) (Z.of_nat (i + 1))
                                  temps_alerts ;;
                Anomaly.check_group_tracking_lag s calib (previous_temps st)
                  bank_median_rise (Z.of_nat (i + 1)) temps_alerts
            | None => Some temps_alerts
            end = Some a).
  { destruct calib as [calib |]; [| eauto].
    unfold Anomaly.check_abnormal_rise, Anomaly.check_group_tracking_lag.
    rewrite Hprevious. cbn [bind].
    destruct previous as [previous |]; cbn [bind].
    - destruct (Qgtb (calib - previous) (rise_threshold s));
        destruct (Anomaly.bank_of s (Z.of_nat (i + 1)));
        destruct (Topology.get_battery_and_local_ch (Z.of_nat (i + 1)));
        cbn [bind]; rewrite ?Hprevious; cbn [bind];
        destruct (Qgtb _ (disconnection_lag_threshold s)); eauto.
    - eauto. }
  destruct Hfirst as [a ->]. cbn [bind].
  unfold Anomaly.check_sudden_disconnection. rewrite Hprevious. cbn [bind].
  destruct previous, calib;
    destruct (Topology.get_battery_and_local_ch (Z.of_nat (i + 1))); eauto.
Qed.

Lemma dynamic_checks_returns (st : state)
      (calibrated_temps : list (option Q)) (temps_alerts : list alert) :
  length calibrated_temps = total ->
  (total <= length (previous_temps st))%nat ->
  (NUM_BANKS s <= length (previous_bank_medians st))%nat ->
  exists temps_alerts',
    Poll.dynamic_checks s st calibrated_temps
                        (bank_medians_of s calibrated_temps) temps_alerts
    = Some temps_alerts'.
Proof.
  intros Hlen Hprev Hmedians. unfold Poll.dynamic_checks.
  destruct (_ && _); [| eauto].
  apply fold_exn_returns. intros a bank_id Hbank. apply in_seq in Hbank.
  unfold Poll.dynamic_bank.
  destruct (nth_error_in_range (bank_medians_of s calibrated_temps)
                               (bank_id - 1)) as [bank_median ->];
    [rewrite bank_medians_length; lia |].
  cbn [bind].
  destruct (nth_error_in_range (previous_bank_medians st) (bank_id - 1))
    as [previous_bank_median ->]; [lia |].
  cbn [bind].
  destruct (nth_error_in_range (BANK_SENSOR_INDICES s) (bank_id - 1))
    as [bank_indices Hindices]; [rewrite bank_indices_length; lia |].
  rewrite Hindices. cbn [bind].
  apply fold_exn_returns. intros a0 i Hi.
  assert (Hbound : (i < total)%nat).
  { apply (bank_indices_bound (topology s) bank_indices i);
      [eapply nth_error_In; exact Hindices | exact Hi]. }
  apply dynamic_check_returns; lia.
Qed.

Lemma read_voltages_returns (e : Poll.cycle_env) :
  exists battery_voltages,
    Poll.read_voltages s e = Some battery_voltages
    /\ length battery_voltages = NUM_BANKS s.
Proof.
  destruct config as [_ [_ [_ [_ [Hratio _]]]]].
  unfold Poll.read_voltages.
  destruct (map_exn_returns (Poll.read_bank_voltage s e)
                            (seq 1 (NUM_BANKS s))) as [vs Hvs].
  { intros i _. unfold Poll.read_bank_voltage.
    destruct (read_voltage_returns s Hratio i (Poll.voltage_adc e i))
      as [v ->].
    cbn. eauto. }
  exists vs. split; [exact Hvs |].
  destruct (map_exn_nth _ _ _ Hvs) as [Hl _]. now rewrite length_seq in Hl.
Qed.

Lemma balance_completes (r : Balance.rig) (st : state) (high low : nat)
      (temps_alerts : list alert) (is_heating : bool) (vh vl : Q) :
  Voltage.read_voltage_with_retry s high (Balance.initial_high_adc r)
  = Some (Some vh) ->
  Voltage.read_voltage_with_retry s low (Balance.initial_low_adc r)
  = Some (Some vl) ->
  exists res,
    Balance.balance_battery_voltages s r st high low temps_alerts is_heating
    = Some res.
Proof.
  destruct config as [_ [_ [_ [_ [Hratio _]]]]].
  intros Hhigh Hlow. unfold Balance.balance_battery_voltages.
  destruct temps_alerts as [| a rest]; [| eauto].
  rewrite Hhigh, Hlow. cbn [bind].
  destruct (Balance.is_zero (Some vl)); [eauto |].
  destruct (sample_loop_returns s Hratio high low (Balance.periodic_adc r)
              (Balance.or_else (Some vh) 0) (Balance.or_else (Some vl) 0)
              [Balance.or_else (Some vh) 0] [Balance.or_else (Some vl) 0])
    as [h [l [ht [lt [-> _]]]]].
  cbn [bind].
  destruct (read_voltage_returns s Hratio high (Balance.final_high_adc r))
    as [fh ->].
  destruct (read_voltage_returns s Hratio low (Balance.final_low_adc r))
    as [fl ->].
  cbn [bind]. unfold Balance.verify.
  destruct (_ && _); cbn [bind]; [| eauto].
  destruct (Balance.no_change_detected _ _ _); cbn [bind]; eauto.
Qed.

Lemma balance_decision_returns (e : Poll.cycle_env) (st : state)
      (battery_voltages : list Q) (calibrated_temps : list (option Q))
      (temps_alerts : list alert) (alert_needed : bool) :
  cooperative s e ->
  length battery_voltages = NUM_BANKS s ->
  exists st' w b,
    Poll.balance_decision s e st battery_voltages calibrated_temps
                          temps_alerts alert_needed = Some (st', w, b).
Proof.
  intros [_ [_ [_ [_ Hrig]]]] Hlen. unfold Poll.balance_decision.
  destruct (_ && negb (balancer_failed st)); [| eauto].
  destruct battery_voltages as [| first rest].
  { destruct config as [Hn _]. unfold NUM_BANKS in Hlen. cbn in Hlen. lia. }
  destruct (balancing_active st || _); [| eauto].
  pose proof (index_of_in _ _ (maximum_in rest first)) as Hmax.
  pose proof (index_of_in _ _ (minimum_in rest first)) as Hmin.
  destruct (Hrig (Poll.index_of (Stats.maximum first rest) (first :: rest)
                  + 1)%nat ltac:(lia)) as [[vh Hhigh] _].
  destruct (Hrig (Poll.index_of (Stats.minimum first rest) (first :: rest)
                  + 1)%nat ltac:(lia)) as [_ [vl Hlow]].
  destruct (balance_completes (Poll.balance_rig e) st _ _ temps_alerts
              (Poll.any_low_temp_of calibrated_temps) vh vl Hhigh Hlow)
    as [res ->].
  cbn [bind]. eauto.
Qed.

Lemma attempts_return (l : Modbus.link) (r : Modbus.request)
      (remaining : nat) :
  (forall k, (Z.of_nat k < Modbus.max_retries r - 1)%Z ->
             Modbus.backoff l r k = Modbus.Slept) ->
  forall attempt network_retry_count,
  exists result,
    Modbus.attempts l r remaining attempt network_retry_count = Some result.
Proof.
  intros Hsleep.
  induction remaining as [| rest IH]; intros attempt nrc;
    cbn [Modbus.attempts]; [eauto |].
  destruct (Modbus.attempt_body l r attempt); [eauto | | | eauto].
  - destruct (Modbus.probe_at l attempt).
    + destruct (Z.ltb_spec (Z.of_nat attempt) (Modbus.max_retries r - 1));
        [rewrite (Hsleep attempt) by assumption; apply IH | eauto].
    + destruct (_ <? 3)%nat; [apply IH | eauto].
  - destruct (Modbus.probe_at l attempt).
    + destruct (Z.ltb_spec (Z.of_nat attempt) (Modbus.max_retries r - 1));
        [rewrite (Hsleep attempt) by assumption; apply IH | eauto].
    + destruct (_ <? 3)%nat; [apply IH | eauto].
Qed.

Lemma temp_result_returns (e : Poll.cycle_env) (i : nat) (addr : Z) :
  (0 <= addr < 256)%Z ->
  (forall k, (Z.of_nat k < max_retries s - 1)%Z ->
             Modbus.backoff (Poll.temp_link e i) (Poll.request_for s addr) k
             = Modbus.Slept) ->
  exists temp_result, Poll.temp_result_of s e i addr = Some temp_result.
Proof.
  intros Haddr Hsleep.
  destruct config as [_ [_ [_ [_ [_ [_ Hfits]]]]]].
  unfold Poll.temp_result_of, Modbus.read_ntc_sensors.
  destruct (build_query_sendable (Poll.request_for s addr)) as [query ->].
  { split; [exact Haddr |]. cbn. lia. }
  cbn [bind].
  destruct (attempts_return (Poll.temp_link e i) (Poll.request_for s addr)
              (Z.to_nat (Modbus.max_retries (Poll.request_for s addr))))
    with (attempt := 0%nat) (network_retry_count := 0%nat) as [result ->].
  { exact Hsleep. }
  cbn. eauto.
Qed.

Lemma read_slaves_return (e : Poll.cycle_env) (addrs : list Z) :
  Forall (fun addr => 0 <= addr < 256)%Z addrs ->
  forall i temps_alerts all_raw_temps,
  (forall j addr k,
     nth_error addrs j = Some addr ->
     (Z.of_nat k < max_retries s - 1)%Z ->
     Modbus.backoff (Poll.temp_link e (i + j)) (Poll.request_for s addr) k
     = Modbus.Slept) ->
  exists result,
    Poll.read_slaves s e i addrs temps_alerts all_raw_temps = Some result.
Proof.
  induction 1 as [| addr rest Haddr _ IH];
    intros i temps_alerts raw Hsleep; cbn [Poll.read_slaves]; [eauto |].
  destruct (temp_result_returns e i addr Haddr) as [[l | msg] ->].
  { intros k Hk. specialize (Hsleep 0%nat addr k eq_refl Hk).
    now rewrite Nat.add_0_r in Hsleep. }
  all: cbn [bind]; apply IH; intros j addr' k Hj Hk;
    specialize (Hsleep (S j) addr' k Hj Hk);
    now rewrite Nat.add_succ_r in Hsleep.
Qed.

(** A pass over a ready state in a cooperative world runs to its end and
    leaves a ready state. *)
Lemma poll_cycle_returns (e : Poll.cycle_env) (st : state) :
  cooperative s e -> ready s st ->
  exists p, Poll.poll_cycle s e st = Some p /\ ready s (Poll.state_after p).
Proof.
  intros Hcoop [Hcover [Hprev Hmedians]].
  pose proof Hcoop as [Hfull [Hrrd [Hsleep [Hinterval _]]]].
  pose proof config as [_ [_ [_ [_ [_ [Haddrs _]]]]]].
  unfold Poll.poll_cycle.
  destruct (read_slaves_return e (modbus_slave_addresses s) Haddrs 0 [] []
                               Hsleep)
    as [[slave_alerts raw_temps] Eread].
  rewrite Eread. cbn [bind].
  destruct (read_slaves_full s e _ _ Hfull Eread) as [Hraw _].
  assert (Hlen : length raw_temps = total).
  { rewrite Hraw. destruct config as [_ [_ [_ [-> _]]]]. reflexivity. }
  destruct (calibrate_returns raw_temps (calib st) Hlen Hcover)
    as [c [-> [Hcover' Hset']]].
  cbn [bind].
  destruct (calibrate_temps_returns raw_temps c Hlen Hcover' Hset')
    as [calibrated_temps [-> [Hct Hvalid]]].
  cbn [bind].
  destruct (static_checks_returns raw_temps calibrated_temps slave_alerts
              Hlen Hvalid) as [static_alerts Hstatic].
  fold (bank_medians_of s calibrated_temps). rewrite Hstatic. cbn [bind].
  destruct (dynamic_checks_returns (set_calib c st) calibrated_temps
              static_alerts Hct Hprev Hmedians) as [dynamic_alerts ->].
  cbn [bind].
  destruct (Poll.cabinet_check s _ dynamic_alerts) as [temps_alerts fan].
  destruct (read_voltages_returns e) as [battery_voltages [-> Hvs]].
  cbn [bind].
  destruct (Issues.check_for_issues s _ (map Some battery_voltages)
                                    temps_alerts)
    as [[alert_needed all_alerts] alarm].
  destruct (balance_decision_returns e
              (set_previous calibrated_temps
                 (bank_medians_of s calibrated_temps) (set_calib c st))
              battery_voltages calibrated_temps temps_alerts alert_needed
              Hcoop Hvs) as [st' [w [b Hbalance]]].
  rewrite Hrrd. cbn [bind].
  rewrite Hbalance. cbn [bind].
  rewrite Hinterval. cbn [bind].
  eexists. split; [reflexivity |].
  destruct (balance_decision_frame s e _ _ _ _ _ _ _ _ Hbalance)
    as [Hcalib [Hp [Hm _]]].
  unfold ready. cbn. rewrite Hcalib, Hp, Hm. cbn.
  split; [exact Hcover' |]. split; [lia |].
  rewrite bank_medians_length. lia.
Qed.

Lemma step_returns (ev : Poll.event) (st : state) :
  cooperative_event s ev -> ready s st ->
  exists st', Poll.step s ev st = Some st' /\ ready s st'.
Proof.
  intros Hev Hready. destruct ev as [e |]; cbn.
  - destruct (poll_cycle_returns e st Hev Hready) as [p [-> Hp]].
    cbn. eauto.
  - eexists. split; [reflexivity |].
    unfold ready. rewrite api_balance_calib.
    unfold Poll.api_balance.
    destruct (balancing_active st); [exact Hready |].
    destruct (negb _); [exact Hready |].
    destruct (_ <? 2)%nat; [exact Hready |].
    destruct (voltages (web_data st)); [exact Hready |].
    destruct (Qltb _ _); exact Hready.
Qed.

End NeverRaises.



(** ** Battery detection *)

Section DetectionFacts.
Import Detection.

Variable d : BatteryDetector.
Variable w : wire.

Lemma enlisted_app (pairs1 pairs2 : list (Z * Z)) :
  forall start,
    enlisted (sensors d) (pairs1 ++ pairs2) start
    = enlisted (sensors d) pairs1 start
        ++ enlisted (sensors d) pairs2 (start + Z.of_nat (length pairs1))%Z.
Proof.
  induction pairs1 as [| [port slave] rest IH]; intros start; cbn [app].
  - cbn. now rewrite Z.add_0_r.
  - cbn [enlisted length app]. rewrite IH. do 3 f_equal. lia.
Qed.

Lemma enlisted_length (pairs : list (Z * Z)) :
  forall start, length (enlisted (sensors d) pairs start) = length pairs.
Proof.
  induction pairs as [| [port slave] rest IH]; intros start; cbn;
    [reflexivity | now rewrite IH].
Qed.

Lemma enlisted_pairs (pairs : list (Z * Z)) :
  forall start,
    map (fun bat => (interface_port bat, slave_id bat))
        (enlisted (sensors d) pairs start) = pairs.
Proof.
  induction pairs as [| [port slave] rest IH]; intros start; cbn;
    [reflexivity | now rewrite IH].
Qed.

Lemma enlisted_nth (pairs : list (Z * Z)) :
  forall start i bat,
    nth_error (enlisted (sensors d) pairs start) i = Some bat ->
    battery_index bat = (start + Z.of_nat i)%Z
    /\ sensors_per_battery bat = sensors d
    /\ is_online bat = true.
Proof.
  induction pairs as [| [port slave] rest IH]; intros start [| i] bat H;
    cbn in H; try discriminate.
  - injection H as <-. cbn. split; [lia | auto].
  - destruct (IH _ _ _ H) as [Hi Hrest]. split; [lia | exact Hrest].
Qed.

Lemma enlisted_find (pairs : list (Z * Z)) :
  forall start index,
    get_battery_by_index (enlisted (sensors d) pairs start) index
    = if (start <=? index)%Z
      then nth_error (enlisted (sensors d) pairs start)
                     (Z.to_nat (index - start))
      else None.
Proof.
  unfold get_battery_by_index.
  induction pairs as [| [port slave] rest IH]; intros start index.
  - cbn. destruct (start <=? index)%Z; [| reflexivity].
    now destruct (Z.to_nat (index - start)).
  - cbn [enlisted find battery_index].
    destruct (start =? index)%Z eqn:Eeq.
    + apply Z.eqb_eq in Eeq. subst index.
      rewrite Z.leb_refl, Z.sub_diag. reflexivity.
    + apply Z.eqb_neq in Eeq. rewrite IH.
      destruct (start <=? index)%Z eqn:Ele.
      * apply Z.leb_le in Ele.
        replace (start + 1 <=? index)%Z with true
          by (symmetry; apply Z.leb_le; lia).
        replace (Z.to_nat (index - start))
          with (S (Z.to_nat (index - (start + 1)))) by lia.
        reflexivity.
      * apply Z.leb_gt in Ele.
        replace (start + 1 <=? index)%Z with false
          by (symmetry; apply Z.leb_gt; lia).
        reflexivity.
Qed.

Lemma add_slaves_spec (port : Z) (detected_slaves : list Z) :
  forall detected_batteries battery_index,
    (battery_index + Z.of_nat (length detected_slaves)
     <= MAX_TOTAL_BATTERIES)%Z ->
    add_slaves d port detected_slaves detected_batteries battery_index
    = (detected_batteries
         ++ enlisted (sensors d) (map (pair port) detected_slaves)
                     battery_index,
       (battery_index + Z.of_nat (length detected_slaves))%Z).
Proof.
  induction detected_slaves as [| slave rest IH];
    intros detected_batteries battery_index Hroom.
  - cbn. now rewrite app_nil_r, Z.add_0_r.
  - cbn [add_slaves map enlisted length] in *.
    replace (MAX_TOTAL_BATTERIES <=? battery_index)%Z with false
      by (symmetry; apply Z.leb_gt; lia).
    rewrite IH by lia. rewrite <- app_assoc. cbn [app].
    f_equal. lia.
Qed.

Lemma scan_ports_spec (ports : list Z) :
  forall detected_batteries battery_index,
    (battery_index + Z.of_nat (length (responding d w ports))
     <= MAX_TOTAL_BATTERIES)%Z ->
    scan_ports d w ports detected_batteries battery_index
    = (detected_batteries
         ++ enlisted (sensors d) (responding d w ports) battery_index,
       (battery_index + Z.of_nat (length (responding d w ports)))%Z).
Proof.
  induction ports as [| port rest IH];
    intros detected_batteries battery_index Hroom.
  - cbn. now rewrite app_nil_r, Z.add_0_r.
  - cbn [scan_ports]. unfold responding in *. cbn [flat_map] in *.
    rewrite length_app, length_map in Hroom.
    rewrite add_slaves_spec by lia.
    rewrite enlisted_app, length_app, !length_map.
    destruct (MAX_TOTAL_BATTERIES <=? _)%Z eqn:Efull.
    + apply Z.leb_le in Efull.
      assert (Hnone : flat_map
                        (fun port0 => map (pair port0)
                                          (scan_interface d w port0))
                        rest = []).
      { apply length_zero_iff_nil. lia. }
      rewrite Hnone. cbn. rewrite app_nil_r. f_equal. lia.
    + rewrite IH by lia. rewrite <- app_assoc. f_equal. lia.
Qed.

Lemma scan_interface_length (port : Z) :
  (length (scan_interface d w port)
   <= Z.to_nat (max_batteries_per_interface d))%nat.
Proof.
  unfold scan_interface, Config.one_to.
  etransitivity; [apply filter_length_le |].
  now rewrite length_map, length_seq.
Qed.

Lemma responding_length (ports : list Z) :
  (length (responding d w ports)
   <= length ports * Z.to_nat (max_batteries_per_interface d))%nat.
Proof.
  unfold responding. induction ports as [| port rest IH]; cbn; [lia |].
  rewrite length_app, length_map.
  pose proof (scan_interface_length port). lia.
Qed.

Lemma in_responding (ports : list Z) (port slave : Z) :
  In (port, slave) (responding d w ports)
  <-> In port ports
      /\ (1 <= slave <= max_batteries_per_interface d)%Z
      /\ test_battery_connection d w port slave = true.
Proof.
  unfold responding, scan_interface, Config.one_to.
  rewrite in_flat_map. split.
  - intros [q [Hq Hin]]. apply in_map_iff in Hin.
    destruct Hin as [x [Hx Hin]]. injection Hx as -> ->.
    apply filter_In in Hin. destruct Hin as [Hin Htest].
    apply in_map_iff in Hin. destruct Hin as [n [<- Hn]].
    apply in_seq in Hn. split; [exact Hq |]. split; [lia | exact Htest].
  - intros [Hq [Hrange Htest]]. exists port. split; [exact Hq |].
    apply in_map, filter_In. split; [| exact Htest].
    apply in_map_iff. exists (Z.to_nat slave).
    split; [lia | apply in_seq; lia].
Qed.

Lemma one_to_ascending (n : Z) : StronglySorted Z.lt (Config.one_to n).
Proof.
  unfold Config.one_to. generalize (Z.to_nat n) as m. generalize 1%nat.
  intros a m. revert a.
  induction m as [| m IH]; intros a; cbn [seq map]; constructor.
  - apply IH.
  - apply Forall_forall. intros x Hx. apply in_map_iff in Hx.
    destruct Hx as [k [<- Hk]]. apply in_seq in Hk. lia.
Qed.

Lemma scan_interface_ascending (port : Z) :
  StronglySorted Z.lt (scan_interface d w port).
Proof.
  unfold scan_interface.
  induction (one_to_ascending (max_batteries_per_interface d))
    as [| a rest _ IH Hall]; cbn [filter]; [constructor |].
  destruct (test_battery_connection d w port a); [| exact IH].
  constructor; [exact IH |].
  rewrite Forall_forall in *. intros x Hx. apply filter_In in Hx.
  apply Hall, Hx.
Qed.

Lemma responding_in_scan_order (ports : list Z) :
  StronglySorted Z.lt ports ->
  StronglySorted scanned_before (responding d w ports).
Proof.
  induction 1 as [| port rest _ IH Hall]; [constructor |].
  change (responding d w (port :: rest))
    with (map (pair port) (scan_interface d w port) ++ responding d w rest).
  induction (scan_interface_ascending port) as [| a l _ IHl Hl];
    cbn [map app]; [exact IH |].
  constructor; [exact IHl |].
  apply Forall_forall. intros [q x] Hx. apply in_app_or in Hx.
  destruct Hx as [Hx | Hx].
  - apply in_map_iff in Hx. destruct Hx as [y [Hy Hin]].
    injection Hy as <- <-. right. split; [reflexivity |].
    rewrite Forall_forall in Hl. apply Hl, Hin.
  - apply in_responding in Hx. destruct Hx as [Hq _].
    left. rewrite Forall_forall in Hall. apply Hall, Hq.
Qed.

End DetectionFacts.

Lemma sort_ascending (l : list Z) :
  NoDup l -> StronglySorted Z.lt (ZSort.sort l).
Proof.
  intros Hnodup.
  assert (Hle : forall x y, is_true (ZLeBool.leb x y) <-> (x <= y)%Z).
  { intros x y.
    change (is_true (ZLeBool.leb x y))
      with (match (x ?= y)%Z with Gt => false | _ => true end = true).
    unfold Z.le. destruct (x ?= y)%Z; split; intros H;
      congruence || discriminate. }
  assert (Hnd : NoDup (ZSort.sort l))
    by (apply (Permutation_NoDup (ZSort.Permuted_sort l)), Hnodup).
  assert (Hs : StronglySorted (fun x y => is_true (ZLeBool.leb x y))
                              (ZSort.sort l)).
  { apply ZSort.StronglySorted_sort. intros x y z Hxy Hyz.
    apply Hle in Hxy, Hyz. apply Hle. lia. }
  induction Hs as [| a rest _ IH Hall]; [constructor |].
  inversion Hnd as [| ? ? Hnotin Hrest]; subst.
  constructor; [apply IH, Hrest |].
  rewrite Forall_forall in *. intros x Hx.
  specialize (Hall x Hx). apply Hle in Hall.
  assert (a <> x) by (intros ->; contradiction). lia.
Qed.

Lemma valid_ports_are_few (ports : list Z) :
  NoDup ports ->
  forallb Detection.valid_port ports = true ->
  (length ports <= 8)%nat.
Proof.
  intros Hnodup Hvalid.
  change 8%nat
    with (length (map (fun k => 10001 + Z.of_nat k)%Z (seq 0 8))).
  apply NoDup_incl_length; [exact Hnodup |].
  intros port Hin.
  rewrite forallb_forall in Hvalid. specialize (Hvalid port Hin).
  unfold Detection.valid_port, Detection.BASE_PORT,
    Detection.MAX_INTERFACES in Hvalid.
  apply andb_prop in Hvalid. destruct Hvalid as [Hlo Hhi].
  apply Z.leb_le in Hlo. apply Z.ltb_lt in Hhi.
  apply in_map_iff. exists (Z.to_nat (port - 10001)). split; [lia |].
  apply in_seq. lia.
Qed.

(** What [__init__] guarantees of the detector it builds. *)
Lemma init_spec (interface_ports : list Z)
      (sensors_per_battery test_register test_register_count
       max_batteries_per_interface retries : Z)
      (d : Detection.BatteryDetector) :
  Detection.init interface_ports sensors_per_battery test_register
                 test_register_count max_batteries_per_interface retries
  = Some d ->
  NoDup (Detection.interface_ports d)
  /\ (length (Detection.interface_ports d) <= 8)%nat
  /\ (Detection.max_batteries_per_interface d <= 32)%Z
  /\ (forall port, In port (Detection.interface_ports d)
                   <-> In port interface_ports)
  /\ Detection.sensors d = sensors_per_battery.
Proof.
  unfold Detection.init. intros H.
  destruct (forallb _ _) eqn:Evalid; [| discriminate].
  injection H as <-. cbn.
  pose proof (ZSort.Permuted_sort (nodup Z.eq_dec interface_ports)) as Hperm.
  assert (Hnodup : NoDup (ZSort.sort (nodup Z.eq_dec interface_ports))).
  { apply (Permutation_NoDup Hperm), NoDup_nodup. }
  split; [exact Hnodup |].
  split; [now apply valid_ports_are_few |].
  split; [unfold Detection.MAX_BATTERIES_PER_INTERFACE; lia |].
  split; [| reflexivity].
  intros port. split; intros Hin.
  - apply (Permutation_in _ (Permutation_sym Hperm)) in Hin.
    now apply nodup_In in Hin.
  - apply (Permutation_in _ Hperm). now apply nodup_In.
Qed.

(** [__init__] keeps the ports in strictly ascending order. *)
Lemma init_ports_ascending (interface_ports : list Z)
      (sensors_per_battery test_register test_register_count
       max_batteries_per_interface retries : Z)
      (d : Detection.BatteryDetector) :
  Detection.init interface_ports sensors_per_battery test_register
                 test_register_count max_batteries_per_interface retries
  = Some d ->
  StronglySorted Z.lt (Detection.interface_ports d).
Proof.
  unfold Detection.init. intros H.
  destruct (forallb _ _); [| discriminate].
  injection H as <-. cbn. apply sort_ascending, NoDup_nodup.
Qed.

(** The limit of 256 batteries is never reached before the end of a
    scan: the result is the numbered list of the responding slaves. *)
Lemma scan_all_is_enlisted (d : Detection.BatteryDetector)
      (w : Detection.wire) :
  (length (Detection.interface_ports d) <= 8)%nat ->
  (Detection.max_batteries_per_interface d <= 32)%Z ->
  Detection.scan_all_interfaces d w
  = enlisted (Detection.sensors d)
             (responding d w (Detection.interface_ports d)) 0.
Proof.
  intros Hports Hmax. unfold Detection.scan_all_interfaces.
  rewrite scan_ports_spec; [reflexivity |].
  pose proof (responding_length d w (Detection.interface_ports d)) as Hlen.
  unfold Detection.MAX_TOTAL_BATTERIES.
  assert (Hm : (Z.to_nat (Detection.max_batteries_per_interface d) <= 32)%nat)
    by lia.
  nia.
Qed.

(** [X26]: a detector that [__init__] built holds the configured ports
    once each in strictly ascending order, and its scan lists exactly the
    slaves that respond, by ascending port and, at one port, by ascending
    slave id: a pair is listed exactly when its port is configured, its
    slave id lies between 1 and [max_batteries_per_interface] and the
    connection test succeeds, and every pair of the list stands before the
    pairs that follow it in that order. The battery at position [i] has
    index [i], the configured number of sensors and is online; the limit
    of 256 batteries never cuts the list short. *)
Theorem scan_lists_every_responding_battery
        (interface_ports : list Z)
        (sensors_per_battery test_register test_register_count
         max_batteries_per_interface retries : Z)
        (d : Detection.BatteryDetector) (w : Detection.wire) :
  Detection.init interface_ports sensors_per_battery test_register
                 test_register_count max_batteries_per_interface retries
  = Some d ->
  let found := Detection.scan_all_interfaces d w in
  (StronglySorted Z.lt (Detection.interface_ports d)
   /\ forall port, In port (Detection.interface_ports d)
                   <-> In port interface_ports)
  /\ (forall port slave_id,
        In (port, slave_id)
           (map (fun bat => (Detection.interface_port bat,
                             Detection.slave_id bat)) found)
        <-> In port interface_ports
            /\ (1 <= slave_id <= Z.min max_batteries_per_interface 32)%Z
            /\ Detection.test_battery_connection d w port slave_id = true)
  /\ StronglySorted scanned_before
       (map (fun bat => (Detection.interface_port bat,
                         Detection.slave_id bat)) found)
  /\ (forall i bat,
        nth_error found i = Some bat ->
        Detection.battery_index bat = Z.of_nat i
        /\ Detection.sensors_per_battery bat = sensors_per_battery
        /\ Detection.is_online bat = true)
  /\ (length found <= 256)%nat.
Proof.
  intros Hinit. cbv zeta.
  destruct (init_spec _ _ _ _ _ _ _ Hinit)
    as [_ [Hports [Hmax [Hin Hsensors]]]].
  pose proof (init_ports_ascending _ _ _ _ _ _ _ Hinit) as Hsorted.
  rewrite (scan_all_is_enlisted d w Hports Hmax).
  rewrite enlisted_pairs, enlisted_length.
  split; [split; [exact Hsorted | exact Hin] |].
  split; [| split; [now apply responding_in_scan_order | split]].
  - intros port slave. rewrite in_responding, Hin.
    assert (Hd : Detection.max_batteries_per_interface d
                 = Z.min max_batteries_per_interface 32).
    { unfold Detection.init in Hinit.
      destruct (forallb _ _); [| discriminate].
      now injection Hinit as <-. }
    rewrite Hd. reflexivity.
  - intros i bat Hnth. apply enlisted_nth in Hnth.
    rewrite Hsensors in Hnth. exact Hnth.
  - pose proof (responding_length d w (Detection.interface_ports d)).
    assert (Hm : (Z.to_nat (Detection.max_batteries_per_interface d) <= 32)%nat)
      by lia.
    nia.
Qed.

(** [X27]: after a scan, [get_battery_by_index] returns the battery at
    that position of the list for every index from 0 below the number of
    batteries found, and [None] for every other index. *)
Theorem battery_lookup_by_index
        (interface_ports : list Z)
        (sensors_per_battery test_register test_register_count
         max_batteries_per_interface retries : Z)
        (d : Detection.BatteryDetector) (w : Detection.wire) (index : Z) :
  Detection.init interface_ports sensors_per_battery test_register
                 test_register_count max_batteries_per_interface retries
  = Some d ->
  let found := Detection.scan_all_interfaces d w in
  Detection.get_battery_by_index found index
  = if (0 <=? index)%Z then nth_error found (Z.to_nat index) else None.
Proof.
  intros Hinit. cbv zeta.
  destruct (init_spec _ _ _ _ _ _ _ Hinit) as [_ [Hports [Hmax _]]].
  rewrite (scan_all_is_enlisted d w Hports Hmax).
  rewrite enlisted_find. now rewrite Z.sub_0_r.
Qed.

Lemma scan_lists_every_responding_battery_witness :
  let w : Detection.wire :=
    fun port slave_id attempt =>
      if (((port =? 10001) && ((slave_id =? 2) || (slave_id =? 5)))
          || ((port =? 10003) && (slave_id =? 1)))%Z
      then Detection.Reply (Demo.answer slave_id [215%Z])
      else Detection.ConnectError in
  exists d,
    Detection.init [10003; 10001; 10003]%Z 24 0 1 40 3 = Some d
    /\ Detection.scan_all_interfaces d w
       = [Detection.mkDetectedBattery 10001 2 0 24 true;
          Detection.mkDetectedBattery 10001 5 1 24 true;
          Detection.mkDetectedBattery 10003 1 2 24 true]
    /\ (length (Detection.scan_all_interfaces d w) <= 256)%nat.
Proof.
  cbv zeta. eexists.
  split; [vm_compute; reflexivity |].
  split; [vm_compute; reflexivity |].
  refine (proj2 (proj2 (proj2 (proj2 (scan_lists_every_responding_battery
            [10003; 10001; 10003]%Z 24 0 1 40 3 _ _ _))))).
  vm_compute. reflexivity.
Defined.

Lemma battery_lookup_by_index_witness :
  let w : Detection.wire :=
    fun port slave_id attempt =>
      if ((port =? 10001) && (slave_id =? 2))%Z && (attempt =? 1)%nat
      then Detection.Reply (Demo.answer 2 [215%Z])
      else Detection.ConnectError in
  exists d,
    Detection.init [10003; 10001; 10003]%Z 24 0 1 40 3 = Some d
    /\ Detection.get_battery_by_index (Detection.scan_all_interfaces d w) 0
       = nth_error (Detection.scan_all_interfaces d w) 0
    /\ Detection.get_battery_by_index (Detection.scan_all_interfaces d w) 1
       = None.
Proof.
  cbv zeta. eexists.
  split; [vm_compute; reflexivity |].
  split.
  - refine (battery_lookup_by_index
              [10003; 10001; 10003]%Z 24 0 1 40 3 _ _ 0 _).
    vm_compute. reflexivity.
  - vm_compute. reflexivity.
Defined.

(** ** The replies that the detector accepts *)

Lemma nth_set_byte_other (l : list byte) :
  forall i j b, i <> j ->
    nth j (Crc.set_byte i b l) x00 = nth j l x00.
Proof.
  induction l as [| h t IH]; intros [| i] [| j] b Hne; cbn;
    try reflexivity; try contradiction.
  apply IH. lia.
Qed.

Lemma nth_set_byte_same (l : list byte) :
  forall i b, (i < length l)%nat -> nth i (Crc.set_byte i b l) x00 = b.
Proof.
  induction l as [| h t IH]; intros [| i] b Hi; cbn in *; try lia;
    [reflexivity | apply IH; lia].
Qed.

Lemma firstn_length_app {A : Type} (l tail : list A) :
  firstn (length l) (l ++ tail) = l.
Proof.
  rewrite firstn_app, Nat.sub_diag, firstn_all. cbn. apply app_nil_r.
Qed.

Lemma skipn_length_app {A : Type} (l tail : list A) :
  skipn (length l) (l ++ tail) = tail.
Proof. now rewrite skipn_app, Nat.sub_diag, skipn_all. Qed.

Section ReplyFacts.
Variable slave_id : Z.
Variable func : byte.
Variable data : list byte.
Hypothesis slave_range : (0 <= slave_id < 256)%Z.
Hypothesis data_fits : (length data < 256)%nat.
Hypothesis no_error_bit : Z.land (Crc.byte_to_Z func) 0x80 = 0%Z.

Local Abbreviation body :=
  ([Crc.byte_of_Z slave_id; func;
    Crc.byte_of_Z (Z.of_nat (length data))] ++ data).

Lemma body_data_len :
  (Z.to_nat (Crc.byte_to_Z (Crc.byte_of_Z (Z.of_nat (length data)))) + 3)%nat
  = length body.
Proof. rewrite byte_of_to_Z by lia. cbn. lia. Qed.

Lemma frame_length (l : list byte) :
  length (Crc.append_crc l) = (length l + 2)%nat.
Proof. unfold Crc.append_crc. now rewrite length_app. Qed.

Lemma complete_reply_accepted :
  Detection.accepts slave_id (Crc.append_crc body) = true.
Proof.
  unfold Detection.accepts.
  pose proof (frame_length body) as Hlen.
  set (frame := Crc.append_crc body) in *.
  assert (Hbody : (3 <= length body)%nat) by (cbn; lia).
  replace (length frame <? 5)%nat with false
    by (symmetry; apply Nat.ltb_ge; lia).
  change (nth 0 frame x00) with (Crc.byte_of_Z slave_id).
  change (nth 1 frame x00) with func.
  change (nth 2 frame x00) with (Crc.byte_of_Z (Z.of_nat (length data))).
  rewrite (byte_of_to_Z slave_id slave_range), Z.eqb_refl, no_error_bit.
  cbn [negb Z.eqb]. rewrite body_data_len.
  replace (length body + 2 <=? length frame)%nat
    with true by (symmetry; apply Nat.leb_le; lia).
  unfold frame, Crc.append_crc.
  rewrite firstn_length_app, skipn_length_app.
  now apply bytes_eqb_eq.
Qed.

Lemma corrupted_reply_rejected (i : nat) (b : byte) :
  (i < length (Crc.append_crc body))%nat ->
  i <> 2%nat ->
  b <> nth i (Crc.append_crc body) x00 ->
  Detection.accepts slave_id (Crc.set_byte i b (Crc.append_crc body)) = false.
Proof.
  intros Hi Hcount Hb.
  unfold Detection.accepts. rewrite set_byte_length.
  pose proof (frame_length body) as Hlen.
  set (frame := Crc.append_crc body) in *.
  assert (Hthree : (3 <= length body)%nat) by (cbn; lia).
  replace (length frame <? 5)%nat with false
    by (symmetry; apply Nat.ltb_ge; lia).
  destruct (Nat.eq_dec i 0) as [-> | Hfirst].
  - rewrite nth_set_byte_same by lia.
    replace (Crc.byte_to_Z b =? slave_id)%Z with false; [reflexivity |].
    symmetry. apply Z.eqb_neq. intros Heq. apply Hb.
    apply byte_to_Z_inj. rewrite Heq.
    change (nth 0 frame x00) with (Crc.byte_of_Z slave_id).
    now rewrite byte_of_to_Z.
  - rewrite (nth_set_byte_other frame i 0) by lia.
    change (nth 0 frame x00) with (Crc.byte_of_Z slave_id).
    rewrite (byte_of_to_Z slave_id slave_range), Z.eqb_refl.
    cbn [negb].
    destruct (negb (Z.land _ 128 =? 0)%Z); [reflexivity |].
    rewrite (nth_set_byte_other frame i 2) by lia.
    change (nth 2 frame x00) with (Crc.byte_of_Z (Z.of_nat (length data))).
    rewrite body_data_len.
    replace (length body + 2 <=? length frame)%nat with true
      by (symmetry; apply Nat.leb_le; lia).
    destruct (Crc.bytes_eqb _ _) eqn:E; [exfalso | reflexivity].
    apply bytes_eqb_eq in E. unfold frame, Crc.append_crc in *.
    destruct (Nat.lt_ge_cases i (length body)) as [Hbody | Hcrc].
    + rewrite set_byte_app_l in E by exact Hbody.
      rewrite <- (set_byte_length body i b) in E.
      rewrite skipn_length_app, firstn_length_app in E.
      change (firstn 2 (Crc.modbus_crc body)) with (Crc.modbus_crc body) in E.
      destruct (set_byte_split body i b Hbody) as [pre [post [E1 E2]]].
      rewrite E2 in E.
      rewrite app_nth1 in Hb by exact Hbody.
      remember (nth i body x00) as a eqn:Ea.
      rewrite E1 in E.
      apply (modbus_crc_detects pre post a b); [congruence | exact E].
    + rewrite set_byte_app_r in E by exact Hcrc.
      rewrite skipn_length_app, firstn_length_app in E.
      rewrite app_nth2 in Hb by exact Hcrc.
      assert (Hshort : (i - length body < length (Crc.modbus_crc body))%nat)
        by (rewrite length_app in Hi; lia).
      rewrite firstn_all2 in E by (rewrite set_byte_length; cbn; lia).
      exact (set_byte_changes (Crc.modbus_crc body) _ b Hshort Hb E).
Qed.

End ReplyFacts.

(** [X28]: the connection test accepts the complete reply of a slave (its
    address, a function code without error bit, the byte count, that many
    data bytes and [modbus_crc] of all of these), and rejects it when any
    single byte other than the byte count is changed: the address, the
    function code, a data byte or a byte of the check value. *)
Theorem detector_checks_complete_replies (slave_id : Z) (func : byte)
        (data : list byte) (i : nat) (b : byte) :
  (0 <= slave_id < 256)%Z ->
  (length data < 256)%nat ->
  Z.land (Crc.byte_to_Z func) 0x80 = 0%Z ->
  let frame :=
    Crc.append_crc ([Crc.byte_of_Z slave_id; func;
                     Crc.byte_of_Z (Z.of_nat (length data))] ++ data) in
  Detection.accepts slave_id frame = true
  /\ ((i < length frame)%nat -> i <> 2%nat -> b <> nth i frame x00 ->
      Detection.accepts slave_id (Crc.set_byte i b frame) = false).
Proof.
  intros Hslave Hdata Hfunc. cbv zeta. split.
  - now apply complete_reply_accepted.
  - now apply corrupted_reply_rejected.
Qed.

Lemma detector_checks_complete_replies_witness :
  Detection.accepts 2 (Demo.answer 2 [215%Z]) = true
  /\ Detection.accepts 2 (Crc.set_byte 4 x00 (Demo.answer 2 [215%Z])) = false.
Proof.
  destruct (detector_checks_complete_replies 2 x03 [x00; xd7] 4 x00)
    as [Haccepted Hrejected].
  - lia.
  - cbn. lia.
  - reflexivity.
  - split; [exact Haccepted |].
    apply Hrejected; [cbn; lia | lia | vm_compute; discriminate].
Defined.

(** [X29]: the connection test compares the check value only when the
    reply holds the bytes that its third byte announces and two more. A
    reply of at least five bytes from the right slave, without error bit,
    that is shorter than announced is accepted on the first attempt
    whatever its other bytes are, and the slave is listed by the scan of
    the port. *)
Theorem short_reply_is_accepted_unchecked (d : Detection.BatteryDetector)
        (w : Detection.wire) (port slave_id : Z) (response : list byte) :
  (1 <= Detection.retries d)%Z ->
  Detection.query_builds d slave_id = true ->
  w port slave_id 0%nat = Detection.Reply response ->
  (5 <= length response)%nat ->
  Crc.byte_to_Z (nth 0 response x00) = slave_id ->
  Z.land (Crc.byte_to_Z (nth 1 response x00)) 0x80 = 0%Z ->
  (length response
   < Z.to_nat (Crc.byte_to_Z (nth 2 response x00)) + 5)%nat ->
  Detection.test_battery_connection d w port slave_id = true
  /\ ((1 <= slave_id <= Detection.max_batteries_per_interface d)%Z ->
      In slave_id (Detection.scan_interface d w port)).
Proof.
  intros Hretries Hquery Hreply Hlen Hslave Hfunc Hshort.
  assert (Htest : Detection.test_battery_connection d w port slave_id = true).
  { unfold Detection.test_battery_connection. apply existsb_exists.
    exists 0%nat. split; [apply in_seq; lia |].
    unfold Detection.attempt_detects. rewrite Hreply, Hquery. cbn [andb].
    unfold Detection.accepts.
    replace (length response <? 5)%nat with false
      by (symmetry; apply Nat.ltb_ge; exact Hlen).
    rewrite Hslave, Z.eqb_refl, Hfunc. cbn [negb Z.eqb].
    replace (_ <=? length response)%nat with false
      by (symmetry; apply Nat.leb_gt; lia).
    reflexivity. }
  split; [exact Htest |].
  intros Hrange. unfold Detection.scan_interface.
  apply filter_In. split; [| exact Htest].
  unfold Config.one_to. apply in_map_iff. exists (Z.to_nat slave_id).
  split; [lia | apply in_seq; lia].
Qed.

Lemma short_reply_is_accepted_unchecked_witness :
  let d := Detection.mkBatteryDetector [10001%Z] 24 0 1 32 3 in
  let w : Detection.wire :=
    fun _ _ _ => Detection.Reply [x02; x03; xff; x00; x00] in
  In 2%Z (Detection.scan_interface d w 10001).
Proof.
  cbv zeta.
  refine (proj2 (short_reply_is_accepted_unchecked
                   (Detection.mkBatteryDetector [10001%Z] 24 0 1 32 3)
                   (fun _ _ _ => Detection.Reply [x02; x03; xff; x00; x00])
                   10001 2 [x02; x03; xff; x00; x00] _ _ _ _ _ _ _) _).
  - cbn. lia.
  - reflexivity.
  - reflexivity.
  - cbn. lia.
  - reflexivity.
  - reflexivity.
  - vm_compute. lia.
  - cbn. lia.
Defined.

(** ** The detection summary *)

Section SummaryFacts.
Import Detection.

Variable d : BatteryDetector.
Variable w : wire.

Lemma enlisted_sensor_count (pairs : list (Z * Z)) :
  forall start acc,
    fold_left Z.add
              (map sensors_per_battery (enlisted (sensors d) pairs start))
              acc
    = (acc + Z.of_nat (length pairs) * sensors d)%Z.
Proof.
  induction pairs as [| [port slave] rest IH]; intros start acc;
    cbn [enlisted map fold_left length sensors_per_battery].
  - lia.
  - rewrite IH. lia.
Qed.

Lemma enlisted_on_interface (pairs : list (Z * Z)) (port : Z) :
  forall start,
    map slave_id
        (get_batteries_on_interface (enlisted (sensors d) pairs start) port)
    = map snd (filter (fun p => (fst p =? port)%Z) pairs)
    /\ filter is_online
              (get_batteries_on_interface (enlisted (sensors d) pairs start)
                                          port)
       = get_batteries_on_interface (enlisted (sensors d) pairs start) port.
Proof.
  unfold get_batteries_on_interface.
  induction pairs as [| [q slave] rest IH]; intros start;
    cbn [enlisted filter map fst snd interface_port]; [auto |].
  destruct (IH (start + 1)%Z) as [IH1 IH2].
  destruct (q =? port)%Z; cbn [map filter is_online slave_id snd].
  - rewrite IH1, IH2. auto.
  - auto.
Qed.

Lemma responding_elsewhere (ports : list Z) (port : Z) :
  ~ In port ports ->
  filter (fun p => (fst p =? port)%Z) (responding d w ports) = [].
Proof.
  intros Hout. unfold responding.
  induction ports as [| q rest IH]; cbn [flat_map]; [reflexivity |].
  rewrite filter_app, IH by (intros H; apply Hout; now right).
  rewrite app_nil_r.
  assert (Hq : (q =? port)%Z = false).
  { apply Z.eqb_neq. intros ->. apply Hout. now left. }
  induction (scan_interface d w q) as [| slave l IHl]; cbn; [reflexivity |].
  now rewrite Hq.
Qed.

Lemma responding_on_interface (ports : list Z) (port : Z) :
  NoDup ports -> In port ports ->
  map snd (filter (fun p => (fst p =? port)%Z) (responding d w ports))
  = scan_interface d w port.
Proof.
  intros Hnodup. induction Hnodup as [| q rest Hq Hrest IH]; intros Hin;
    [destruct Hin |].
  change (responding d w (q :: rest))
    with (map (pair q) (scan_interface d w q) ++ responding d w rest).
  rewrite filter_app, map_app.
  destruct (Z.eq_dec q port) as [-> | Hne].
  - rewrite (responding_elsewhere rest port Hq). rewrite app_nil_r.
    induction (scan_interface d w port) as [| slave l IHl]; cbn;
      [reflexivity |].
    rewrite Z.eqb_refl. cbn. now rewrite IHl.
  - destruct Hin as [Heq | Hin]; [contradiction |].
    rewrite (IH Hin).
    assert (Hq' : (q =? port)%Z = false) by now apply Z.eqb_neq.
    assert (Hnone : filter (fun p => (fst p =? port)%Z)
                           (map (pair q) (scan_interface d w q)) = []).
    { induction (scan_interface d w q) as [| slave l IHl]; cbn;
        [reflexivity |].
      now rewrite Hq'. }
    now rewrite Hnone.
Qed.

Lemma responding_count (ports : list Z) :
  length (responding d w ports)
  = list_sum (map (fun port => length (scan_interface d w port)) ports).
Proof.
  unfold responding. induction ports as [| q rest IH]; cbn; [reflexivity |].
  now rewrite length_app, length_map, IH.
Qed.

End SummaryFacts.

(** [X30]: the summary of a scan is consistent with the scan: the number
    of sensors is the number of batteries times the configured sensors per
    battery; there is one entry per configured port, in order; the entry of
    a port lists exactly the slave ids that the scan of that port found,
    counts them, and counts all of them online; and the battery counts of
    the ports add up to the total. *)
Theorem detection_summary_is_consistent
        (interface_ports : list Z)
        (sensors_per_battery test_register test_register_count
         max_batteries_per_interface retries : Z)
        (d : Detection.BatteryDetector) (w : Detection.wire) :
  Detection.init interface_ports sensors_per_battery test_register
                 test_register_count max_batteries_per_interface retries
  = Some d ->
  let report :=
    Detection.get_detection_summary d (Detection.scan_all_interfaces d w) in
  Detection.total_sensors report
  = (Z.of_nat (Detection.total_batteries report) * sensors_per_battery)%Z
  /\ map fst (Detection.interfaces report) = Detection.interface_ports d
  /\ (forall port entry,
        In (port, entry) (Detection.interfaces report) ->
        Detection.slave_ids entry = Detection.scan_interface d w port
        /\ Detection.battery_count entry
           = length (Detection.slave_ids entry)
        /\ Detection.online_count entry = Detection.battery_count entry)
  /\ list_sum (map (fun item => Detection.battery_count (snd item))
                   (Detection.interfaces report))
     = Detection.total_batteries report.
Proof.
  intros Hinit. cbv zeta.
  destruct (init_spec _ _ _ _ _ _ _ Hinit)
    as [Hnodup [Hports [Hmax [_ Hsensors]]]].
  rewrite (scan_all_is_enlisted d w Hports Hmax).
  set (pairs := responding d w (Detection.interface_ports d)).
  unfold Detection.get_detection_summary.
  cbn [Detection.total_sensors Detection.total_batteries
       Detection.interfaces].
  assert (Hentry : forall port,
            In port (Detection.interface_ports d) ->
            map Detection.slave_id
                (Detection.get_batteries_on_interface
                   (enlisted (Detection.sensors d) pairs 0) port)
            = Detection.scan_interface d w port).
  { intros port Hin.
    destruct (enlisted_on_interface d pairs port 0%Z) as [-> _].
    now apply responding_on_interface. }
  split; [| split; [| split]].
  - unfold Detection.get_total_sensor_count.
    rewrite enlisted_sensor_count, enlisted_length, Hsensors. lia.
  - rewrite map_map. cbn [fst]. apply map_id.
  - intros port entry Hin. apply in_map_iff in Hin.
    destruct Hin as [q [Heq Hq]]. injection Heq as -> <-.
    cbn [Detection.slave_ids Detection.battery_count
         Detection.online_count].
    split; [now apply Hentry |]. split; [now rewrite length_map |].
    destruct (enlisted_on_interface d pairs port 0%Z) as [_ ->].
    reflexivity.
  - rewrite map_map. cbn [snd Detection.battery_count].
    rewrite enlisted_length. unfold pairs. rewrite responding_count.
    f_equal. apply map_ext_in. intros port Hin.
    rewrite <- (Hentry port Hin). now rewrite length_map.
Qed.

Lemma detection_summary_is_consistent_witness :
  let w : Detection.wire :=
    fun port slave_id attempt =>
      if ((port =? 10001) && (slave_id =? 2))%Z && (attempt =? 1)%nat
      then Detection.Reply (Demo.answer 2 [215%Z])
      else Detection.ConnectError in
  exists d,
    Detection.init [10003; 10001; 10003]%Z 24 0 1 40 3 = Some d
    /\ Detection.total_batteries
         (Detection.get_detection_summary
            d (Detection.scan_all_interfaces d w)) = 1%nat
    /\ Detection.total_sensors
         (Detection.get_detection_summary
            d (Detection.scan_all_interfaces d w))
       = (Z.of_nat
            (Detection.total_batteries
               (Detection.get_detection_summary
                  d (Detection.scan_all_interfaces d w))) * 24)%Z.
Proof.
  cbv zeta. eexists.
  split; [vm_compute; reflexivity |].
  split; [vm_compute; reflexivity |].
  refine (proj1 (detection_summary_is_consistent
                   [10003; 10001; 10003]%Z 24 0 1 40 3 _ _ _)).
  vm_compute. reflexivity.
Defined.
